(** * DGEN: the dependency installer (install.py) and the dataset expander (main.py)

    A shallow embedding of the two scripts and the properties their
    specification states about them.

    Conventions of the model.
    - Python [str] values are lists of characters; a character is a code
      point below 256 ([ascii]).  Python [int] values are [Z].
    - Everything outside the two scripts (the package manager and every
      other subprocess, the import system, standard input, the chat API,
      pandas) is an oracle of the host: it answers from an opaque world
      value which it may change.  An oracle answers with exactly the
      outcomes its callers handle (a completed process with its return code,
      an import that works or raises ImportError, a chat call that answers or
      raises CohereError).  What importlib.import_module refuses before it
      looks for a module, the empty name (ValueError) and a name that begins
      with a dot (TypeError), is no matter of the host: these exceptions are
      raised for every world, and nothing in the scripts catches them.
    - Files the scripts read and write live in an explicit file store;
      console output and every oracle call are recorded in an event log.
    - The csv module is modelled after CPython's reader and writer for the
      default (excel) dialect, and [re] by a derivative matcher. *)

From Stdlib Require Import List String Ascii ZArith NArith Lia Bool Arith DecimalString.
Import ListNotations.

Set Implicit Arguments.

Definition str := list ascii.
Coercion list_ascii_of_string : string >-> list.

Open Scope string_scope.
Open Scope list_scope.
Open Scope Z_scope.

(** ** Python string operations *)

Module PyStr.

Definition LF : ascii := ascii_of_nat 10.
Definition CR : ascii := ascii_of_nat 13.

Definition code (c : ascii) : nat := nat_of_ascii c.

Definition between (lo hi : nat) (c : ascii) : bool :=
  (Nat.leb lo (code c) && Nat.leb (code c) hi)%bool.

(** [str.isspace] on one character: the code points below 256 that
    CPython's Py_UNICODE_ISSPACE accepts. *)
Definition isspace (c : ascii) : bool :=
  (between 9 13 c || between 28 32 c
   || Nat.eqb (code c) 133 || Nat.eqb (code c) 160)%bool.

Fixpoint eqb (a b : str) : bool :=
  match a, b with
  | [], [] => true
  | x :: a', y :: b' => (Ascii.eqb x y && eqb a' b')%bool
  | _, _ => false
  end.

Fixpoint lstrip (s : str) : str :=
  match s with
  | [] => []
  | c :: s' => if isspace c then lstrip s' else s
  end.

Definition rstrip (s : str) : str := rev (lstrip (rev s)).

(** [s.strip()] *)
Definition strip (s : str) : str := rstrip (lstrip s).

(** [str.lower] on one character (Basic Latin and Latin-1 capitals). *)
Definition lower_char (c : ascii) : ascii :=
  if (between 65 90 c || (between 192 222 c && negb (Nat.eqb (code c) 215)))%bool
  then ascii_of_nat (code c + 32) else c.

(** [s.lower()] *)
Definition lower (s : str) : str := map lower_char s.

(** [s.startswith(p)] *)
Fixpoint startswith (p s : str) : bool :=
  match p, s with
  | [], _ => true
  | x :: p', y :: s' => (Ascii.eqb x y && startswith p' s')%bool
  | _ :: _, [] => false
  end.

(** [needle in s] *)
Fixpoint contains (needle s : str) : bool :=
  match s with
  | [] => startswith needle []
  | _ :: s' => (startswith needle s || contains needle s')%bool
  end.

(** [s.split(sep)] for a non-empty separator: a left-to-right scan for
    non-overlapping occurrences.  [cur] holds the piece being read, in
    reverse; [skip] counts the characters of a separator just found that
    are still to be passed over. *)
Fixpoint split_scan (sep cur : str) (skip : nat) (s : str) : list str :=
  match s with
  | [] => [rev cur]
  | c :: s' =>
      match skip with
      | S k => split_scan sep cur k s'
      | O =>
          if startswith sep s
          then rev cur :: split_scan sep [] (Nat.pred (List.length sep)) s'
          else split_scan sep (c :: cur) 0 s'
      end
  end.

Definition split (sep s : str) : list str := split_scan sep [] 0 s.

(** [s.replace(old, new)] for a non-empty [old]. *)
Fixpoint replace_scan (old new : str) (skip : nat) (s : str) : str :=
  match s with
  | [] => []
  | c :: s' =>
      match skip with
      | S k => replace_scan old new k s'
      | O =>
          if startswith old s
          then new ++ replace_scan old new (Nat.pred (List.length old)) s'
          else c :: replace_scan old new 0 s'
      end
  end.

Definition replace (old new s : str) : str := replace_scan old new 0 s.

(** [sep.join(parts)] *)
Fixpoint join (sep : str) (parts : list str) : str :=
  match parts with
  | [] => []
  | [p] => p
  | p :: ps => p ++ sep ++ join sep ps
  end.

(** [parts[0]] and [parts[-1]] of a list that [split] returned (never empty). *)
Definition first (parts : list str) : str := hd [] parts.
Definition last (parts : list str) : str := List.last parts [].

(** A line boundary of [str.splitlines] (code points below 256). *)
Definition is_linebreak (c : ascii) : bool :=
  (between 10 13 c || between 28 30 c || Nat.eqb (code c) 133)%bool.

(** [s.splitlines()]: the lines without their ends; CR LF is one boundary. *)
Fixpoint splitlines_scan (cur : str) (s : str) : list str :=
  match s with
  | [] => match cur with [] => [] | _ => [rev cur] end
  | c :: s' =>
      if Ascii.eqb c CR then
        match s' with
        | d :: s'' =>
            if Ascii.eqb d LF then rev cur :: splitlines_scan [] s''
            else rev cur :: splitlines_scan [] s'
        | [] => [rev cur]
        end
      else if is_linebreak c then rev cur :: splitlines_scan [] s'
      else splitlines_scan (c :: cur) s'
  end.

Definition splitlines (s : str) : list str := splitlines_scan [] s.

(** What a text file opened with the default [newline=None] delivers:
    CR LF and a lone CR are read as LF. *)
Fixpoint universal_newlines (s : str) : str :=
  match s with
  | [] => []
  | c :: s' =>
      if Ascii.eqb c CR then
        match s' with
        | d :: s'' =>
            if Ascii.eqb d LF then LF :: universal_newlines s''
            else LF :: universal_newlines s'
        | [] => [LF]
        end
      else c :: universal_newlines s'
  end.

(** Iterating over a file opened in text mode: the lines with their LF. *)
Fixpoint lines_scan (cur : str) (s : str) : list str :=
  match s with
  | [] => match cur with [] => [] | _ => [rev cur] end
  | c :: s' =>
      if Ascii.eqb c LF then rev (c :: cur) :: lines_scan [] s'
      else lines_scan (c :: cur) s'
  end.

Definition text_lines (content : str) : list str :=
  lines_scan [] (universal_newlines content).

(** Iterating over a file opened with [newline='']: lines end after LF, CR
    or CR LF, and keep their ends untranslated. *)
Fixpoint raw_lines_scan (cur : str) (s : str) : list str :=
  match s with
  | [] => match cur with [] => [] | _ => [rev cur] end
  | c :: s' =>
      if Ascii.eqb c CR then
        match s' with
        | d :: s'' =>
            if Ascii.eqb d LF then rev (d :: c :: cur) :: raw_lines_scan [] s''
            else rev (c :: cur) :: raw_lines_scan [] s'
        | [] => [rev (c :: cur)]
        end
      else if Ascii.eqb c LF then rev (c :: cur) :: raw_lines_scan [] s'
      else raw_lines_scan (c :: cur) s'
  end.

Definition raw_lines (content : str) : list str := raw_lines_scan [] content.

(** [str(n)] for an [int]. *)
Definition of_int (n : Z) : str := NilZero.string_of_int (Z.to_int n).

(** [os.path.basename] (POSIX): what follows the last slash. *)
Definition basename (path : str) : str := last (split "/" path).

End PyStr.

(** ** Regular expressions ([re]) *)

Module Re.

(** An item of a bracketed character set: a range [a-z] or one character. *)
Inductive item :=
| Range (lo hi : ascii)
| Lit (c : ascii).

Definition item_has (c : ascii) (i : item) : bool :=
  match i with
  | Range lo hi => PyStr.between (PyStr.code lo) (PyStr.code hi) c
  | Lit d => Ascii.eqb c d
  end.

Definition in_set (set : list item) (c : ascii) : bool := existsb (item_has c) set.

Inductive regex :=
| Void
| Eps
| Set_ (set : list item)
| Cat (r1 r2 : regex)
| Alt (r1 r2 : regex)
| Star (r : regex).

(** [r+] and [r?] *)
Definition Plus (r : regex) : regex := Cat r (Star r).
Definition Opt (r : regex) : regex := Alt r Eps.

Fixpoint nullable (r : regex) : bool :=
  match r with
  | Void => false
  | Eps => true
  | Set_ _ => false
  | Cat r1 r2 => (nullable r1 && nullable r2)%bool
  | Alt r1 r2 => (nullable r1 || nullable r2)%bool
  | Star _ => true
  end.

(** The derivative of [r] by the character [c]. *)
Fixpoint deriv (c : ascii) (r : regex) : regex :=
  match r with
  | Void => Void
  | Eps => Void
  | Set_ set => if in_set set c then Eps else Void
  | Cat r1 r2 =>
      if nullable r1 then Alt (Cat (deriv c r1) r2) (deriv c r2)
      else Cat (deriv c r1) r2
  | Alt r1 r2 => Alt (deriv c r1) (deriv c r2)
  | Star r1 => Cat (deriv c r1) (Star r1)
  end.

(** Does [r] match the whole of [s]? *)
Fixpoint fullmatch (r : regex) (s : str) : bool :=
  match s with
  | [] => nullable r
  | c :: s' => fullmatch (deriv c r) s'
  end.

(** [re.match('^' r '$', s) is not None]: a match starts at the beginning
    of [s]; without re.MULTILINE the [$] holds at the end of the string and
    also just before a line feed that is its last character. *)
Definition match_bol_eol (r : regex) (s : str) : bool :=
  (fullmatch r s
   || match rev s with
      | c :: p => (Ascii.eqb c PyStr.LF && fullmatch r (rev p))%bool
      | [] => false
      end)%bool.

End Re.

(** ** The csv module, default dialect

    delimiter comma, quotechar the double quote, doublequote, no escapechar, no
    skipinitialspace, lineterminator CR LF, QUOTE_MINIMAL, not strict. *)

Module Csv.

Definition delimiter : ascii := ",".
Definition quotechar : ascii := ascii_of_nat 34.
Definition lineterminator : str := [PyStr.CR; PyStr.LF].

(** csv.field_size_limit() *)
Definition field_limit : N := 131072.

(** The reader's states; the three states of an escape character cannot be
    entered when the dialect has none and are left out. *)
Inductive ParserState :=
| START_RECORD | START_FIELD | IN_FIELD
| IN_QUOTED_FIELD | QUOTE_IN_QUOTED_FIELD | EAT_CRNL.

Definition state_eqb (a b : ParserState) : bool :=
  match a, b with
  | START_RECORD, START_RECORD | START_FIELD, START_FIELD | IN_FIELD, IN_FIELD
  | IN_QUOTED_FIELD, IN_QUOTED_FIELD
  | QUOTE_IN_QUOTED_FIELD, QUOTE_IN_QUOTED_FIELD | EAT_CRNL, EAT_CRNL => true
  | _, _ => false
  end.

Record Reader := mkReader {
  state : ParserState;
  fields : list str;     (* the fields of the record read so far *)
  field : str            (* the characters of the field being read *)
}.

(** parse_reset *)
Definition parse_reset : Reader := mkReader START_RECORD [] [].

(** parse_save_field *)
Definition parse_save_field (r : Reader) : Reader :=
  mkReader (state r) (fields r ++ [field r]) [].

(** parse_add_char; [None] is csv.Error (field larger than field limit). *)
Definition parse_add_char (r : Reader) (c : ascii) : option Reader :=
  if N.leb field_limit (N.of_nat (List.length (field r))) then None
  else Some (mkReader (state r) (fields r) (field r ++ [c])).

Definition set_state (st : ParserState) (r : Reader) : Reader :=
  mkReader st (fields r) (field r).

Definition is_newline (c : ascii) : bool :=
  (Ascii.eqb c PyStr.LF || Ascii.eqb c PyStr.CR)%bool.

Definition start_field (r : Reader) (c : option ascii) : option Reader :=
  match c with
  | None => Some (set_state START_RECORD (parse_save_field r))
  | Some ch =>
      if is_newline ch then Some (set_state EAT_CRNL (parse_save_field r))
      else if Ascii.eqb ch quotechar then Some (set_state IN_QUOTED_FIELD r)
      else if Ascii.eqb ch delimiter then Some (parse_save_field r)
      else option_map (set_state IN_FIELD) (parse_add_char r ch)
  end.

(** parse_process_char; the character [None] is the end-of-line mark the
    reader feeds after the last character of each line, and the result
    [None] is csv.Error. *)
Definition parse_process_char (r : Reader) (c : option ascii) : option Reader :=
  match state r with
  | START_RECORD =>
      match c with
      | None => Some r
      | Some ch =>
          if is_newline ch then Some (set_state EAT_CRNL r)
          else start_field (set_state START_FIELD r) c
      end
  | START_FIELD => start_field r c
  | IN_FIELD =>
      match c with
      | None => Some (set_state START_RECORD (parse_save_field r))
      | Some ch =>
          if is_newline ch then Some (set_state EAT_CRNL (parse_save_field r))
          else if Ascii.eqb ch delimiter
          then Some (set_state START_FIELD (parse_save_field r))
          else parse_add_char r ch
      end
  | IN_QUOTED_FIELD =>
      match c with
      | None => Some r
      | Some ch =>
          if Ascii.eqb ch quotechar then Some (set_state QUOTE_IN_QUOTED_FIELD r)
          else parse_add_char r ch
      end
  | QUOTE_IN_QUOTED_FIELD =>
      match c with
      | None => Some (set_state START_RECORD (parse_save_field r))
      | Some ch =>
          if Ascii.eqb ch quotechar
          then option_map (set_state IN_QUOTED_FIELD) (parse_add_char r ch)
          else if Ascii.eqb ch delimiter
          then Some (set_state START_FIELD (parse_save_field r))
          else if is_newline ch then Some (set_state EAT_CRNL (parse_save_field r))
          else option_map (set_state IN_FIELD) (parse_add_char r ch)
      end
  | EAT_CRNL =>
      match c with
      | None => Some (set_state START_RECORD r)
      | Some ch => if is_newline ch then Some r else None
      end
  end.

(** The characters of one line. *)
Fixpoint process_chars (r : Reader) (line : str) : option Reader :=
  match line with
  | [] => Some r
  | c :: line' =>
      match parse_process_char r (Some c) with
      | Some r' => process_chars r' line'
      | None => None
      end
  end.

(** One line of the input, then the end-of-line mark. *)
Definition process_line (r : Reader) (line : str) : option Reader :=
  match process_chars r line with
  | Some r' => parse_process_char r' None
  | None => None
  end.

(** What iterating over a reader delivers: the rows, and whether the
    iteration ended with csv.Error after them. *)
Record Rows := mkRows { rows : list (list str); failed : bool }.

Definition cons_row (row : list str) (rs : Rows) : Rows :=
  mkRows (row :: rows rs) (failed rs).

(** [for row in csv.reader(lines)]: Reader_iternext takes lines until the
    state is START_RECORD again and returns the fields; at the end of the
    input a record that was begun is returned as it stands. *)
Fixpoint read_rows (r : Reader) (lines : list str) : Rows :=
  match lines with
  | [] =>
      if (negb (Nat.eqb (List.length (field r)) 0)
          || state_eqb (state r) IN_QUOTED_FIELD)%bool
      then mkRows [fields (parse_save_field r)] false
      else mkRows [] false
  | line :: rest =>
      match process_line r line with
      | None => mkRows [] true
      | Some r' =>
          if state_eqb (state r') START_RECORD
          then cons_row (fields r') (read_rows parse_reset rest)
          else read_rows r' rest
      end
  end.

(** [csv.reader(lines)] *)
Definition reader (lines : list str) : Rows := read_rows parse_reset lines.

(** The writer quotes a field that holds one of these. *)
Definition must_quote (c : ascii) : bool :=
  (Ascii.eqb c delimiter || Ascii.eqb c quotechar
   || existsb (Ascii.eqb c) lineterminator)%bool.

(** The field's characters, each quotechar doubled. *)
Fixpoint field_data (f : str) : str :=
  match f with
  | [] => []
  | c :: f' =>
      if Ascii.eqb c quotechar then quotechar :: quotechar :: field_data f'
      else c :: field_data f'
  end.

(** join_append: one field onto the record, after a delimiter unless it is
    the first. *)
Definition join_append (rec : str) (num_fields : nat) (f : str) (quoted : bool)
  : str :=
  let quoted := (quoted || existsb must_quote f)%bool in
  rec ++ (match num_fields with O => [] | S _ => [delimiter] end)
      ++ (if quoted then quotechar :: field_data f ++ [quotechar] else field_data f).

Fixpoint join_fields (rec : str) (num_fields : nat) (row : list str) : str :=
  match row with
  | [] => rec
  | f :: row' => join_fields (join_append rec num_fields f false) (S num_fields) row'
  end.

(** What [writer.writerow(row)] writes for a row of strings: a record of
    one empty field is written as a pair of quotes. *)
Definition writerow (row : list str) : str :=
  let rec := join_fields [] 0 row in
  let rec := match row, rec with
             | _ :: _, [] => join_append [] 0 [] true
             | _, _ => rec
             end in
  rec ++ lineterminator.

End Csv.

(** ** The host, the program state and its monad *)

(** What [subprocess.run(..., capture_output=True)] delivers. *)
Record completed := mkCompleted {
  returncode : Z;
  stdout : str;
  stderr : str
}.

(** The arguments of one [co.chat] call; the temperature in tenths. *)
Record chat_request := mkChat {
  chat_model : str;
  chat_message : str;
  chat_temperature_tenths : Z;
  chat_system : str
}.

(** A table as pandas holds it, every cell as its text. *)
Record DataFrame := mkFrame {
  columns : list str;
  values : list (list str)
}.

(** The exceptions of the model that no handler of the scripts catches. *)
Inductive exn := ValueError | TypeError.

(** What a call delivers: a value, or an exception that passes through its
    callers. *)
Inductive result (A : Type) :=
| Returns (a : A)
| Raises (e : exn).

Arguments Returns {A} a.
Arguments Raises {A} e.

Inductive event :=
| Print (line : str)                              (* a line on the console *)
| Input (prompt answer : str)                     (* input(prompt) *)
| Run (argv : list str) (code : Z)                (* subprocess.run(argv) *)
| Import (name : str) (found : bool)              (* importlib.import_module *)
| Refuse (name : str) (e : exn)                   (* import_module refusing the name *)
| Chat (request : chat_request) (answered : bool) (* co.chat *).

(** The oracles of the host over a world [W]. *)
Class Host (W : Type) := {
  sys_executable : str;
  platform_system : str;
  (* the bytes of the installer's own file and hashlib's sha256 hexdigest *)
  script_source : str;
  sha256_hexdigest : str -> str;
  subprocess_run : list str -> W -> completed * W;
  (* true: the module was imported; false: ImportError *)
  import_module : str -> W -> bool * W;
  (* the line the user types *)
  stdin_line : W -> str * W;
  (* the text of a CalledProcessError and of an IOError *)
  called_process_error : list str -> Z -> str;
  io_error : str -> str;
  (* co.chat: the response text, or the text of a CohereError *)
  co_chat : chat_request -> W -> (str + str) * W;
  (* pandas: read_csv of a file's content (or the text of its exception),
     to_csv(index=False) and to_string(index=False, header=False) *)
  pd_read_csv : str -> str + DataFrame;
  df_to_csv : DataFrame -> str;
  df_to_string : DataFrame -> str
}.

Record State (W : Type) := mkState {
  world : W;
  files : str -> option str;     (* path to content *)
  log : list event
}.

Definition M (W A : Type) : Type := State W -> A * State W.

Definition ret {W A} (a : A) : M W A := fun s => (a, s).

Definition bind {W A B} (c : M W A) (k : A -> M W B) : M W B :=
  fun s => let (a, s') := c s in k a s'.

Declare Scope monad_scope.
Delimit Scope monad_scope with monad.
Notation "x <- c ;; k" := (bind c (fun x => k))
  (at level 61, c at next level, right associativity) : monad_scope.
Notation "c ;; k" := (bind c (fun _ => k))
  (at level 61, right associativity) : monad_scope.
Open Scope monad_scope.

(** [dict]-like update of the file store. *)
Definition store (files : str -> option str) (path content : str)
  : str -> option str :=
  fun p => if PyStr.eqb p path then Some content else files p.

(** The names [importlib.import_module(name)] refuses before any module is
    looked for: a name that begins with a dot is a relative import, for
    which there is no package (TypeError), and the empty name is refused by
    the sanity check of the import (ValueError). *)
Definition refused (name : str) : option exn :=
  if PyStr.startswith "." name then Some TypeError
  else match name with
       | [] => Some ValueError
       | _ :: _ => None
       end.

Section Effects.
Context {W : Type} {host : Host W}.

Definition emit (e : event) : M W unit :=
  fun s => (tt, mkState (world s) (files s) (log s ++ [e])).

(** [print(line)] *)
Definition print (line : str) : M W unit := emit (Print line).

(** [input(prompt)] *)
Definition input (prompt : str) : M W str :=
  fun s =>
    let (answer, w) := stdin_line (world s) in
    (answer, mkState w (files s) (log s ++ [Input prompt answer])).

(** [subprocess.run(argv, capture_output=True)] *)
Definition run (argv : list str) : M W completed :=
  fun s =>
    let (p, w) := subprocess_run argv (world s) in
    (p, mkState w (files s) (log s ++ [Run argv (returncode p)])).

(** [importlib.import_module(name)] under [except ImportError]: true when
    the module was imported, false when ImportError was raised; the
    exception of a name that import_module refuses is not caught. *)
Definition try_import (name : str) : M W (result bool) :=
  fun s =>
    match refused name with
    | Some e => (Raises e, mkState (world s) (files s) (log s ++ [Refuse name e]))
    | None =>
        let (found, w) := import_module name (world s) in
        (Returns found, mkState w (files s) (log s ++ [Import name found]))
    end.

(** [co.chat(...)] *)
Definition chat (request : chat_request) : M W (str + str) :=
  fun s =>
    let (r, w) := co_chat request (world s) in
    (r, mkState w (files s)
          (log s ++ [Chat request (match r with inl _ => true | inr _ => false end)])).

(** Reading a whole file; [None] when there is none. *)
Definition read_file (path : str) : M W (option str) :=
  fun s => (files s path, s).

(** [open(path, 'w')] and one write. *)
Definition write_file (path content : str) : M W unit :=
  fun s => (tt, mkState (world s) (store (files s) path content) (log s)).

(** [open(path, 'a')] and one write: the file is created when missing. *)
Definition append_file (path content : str) : M W unit :=
  fun s =>
    let old := match files s path with Some c => c | None => [] end in
    (tt, mkState (world s) (store (files s) path (old ++ content)) (log s)).

End Effects.

(** ** install.py *)

Module Install.

Definition HASH_FILE : str := ".install_script_hash".

(** The pattern of [validate_package_name]:
    [^[a-zA-Z0-9_.-]+([<>=!]=?[a-zA-Z0-9_.-]+)?$] *)
Definition name_set : list Re.item :=
  [Re.Range "a" "z"; Re.Range "A" "Z"; Re.Range "0" "9";
   Re.Lit "_"; Re.Lit "."; Re.Lit "-"].

Definition operator_set : list Re.item :=
  [Re.Lit "<"; Re.Lit ">"; Re.Lit "="; Re.Lit "!"].

Definition package_pattern : Re.regex :=
  Re.Cat (Re.Plus (Re.Set_ name_set))
         (Re.Opt (Re.Cat (Re.Set_ operator_set)
                         (Re.Cat (Re.Opt (Re.Set_ [Re.Lit "="]))
                                 (Re.Plus (Re.Set_ name_set))))).

Definition validate_package_name (package : str) : bool :=
  Re.match_bol_eol package_pattern package.

(** The truth value of a [str] or a [list]: it is not empty. *)
Definition truthy {A : Type} (s : list A) : bool :=
  match s with [] => false | _ :: _ => true end.

(** [[line.strip() for line in f if line.strip() and not line.startswith('#')]] *)
Fixpoint requirement_lines (f : list str) : list str :=
  match f with
  | [] => []
  | line :: f' =>
      if (truthy (PyStr.strip line) && negb (PyStr.startswith "#" line))%bool
      then PyStr.strip line :: requirement_lines f'
      else requirement_lines f'
  end.

Section Installer.
Context {W : Type} {host : Host W}.

Definition pip (args : list str) : list str :=
  [sys_executable; "-m" : str; "pip" : str] ++ args.

Definition check_python_installation : M W bool :=
  p <- run [sys_executable; "--version" : str] ;;
  ret (Z.eqb (returncode p) 0).

Definition get_python_download_instructions : str :=
  let system := PyStr.lower platform_system in
  if PyStr.eqb system "windows"
  then "Download Python from https://www.python.org/downloads/windows/"
  else if PyStr.eqb system "darwin"
  then "Download Python from https://www.python.org/downloads/mac-osx/"
  else if PyStr.eqb system "linux"
  then "Use your distribution's package manager to install Python, or visit https://www.python.org/downloads/source/"
  else "Visit https://www.python.org/downloads/ to download Python for your operating system.".

Definition read_requirements (file_path : str) : M W (list str) :=
  f <- read_file file_path ;;
  match f with
  | Some content => ret (requirement_lines (PyStr.text_lines content))
  | None =>
      print ("Error reading requirements file: " ++ io_error file_path) ;;
      ret []
  end.

Definition install_package (package : str) : M W (bool * str) :=
  p <- run (pip ["install" : str; package]) ;;
  if Z.eqb (returncode p) 0 then ret (true, stdout p)
  else ret (false, stderr p).

Definition uninstall_package (package : str) : M W unit :=
  let argv := pip ["uninstall" : str; "-y" : str; package] in
  p <- run argv ;;
  if Z.eqb (returncode p) 0 then print ("Uninstalled " ++ package)
  else print ("Failed to uninstall " ++ package ++ ": "
              ++ called_process_error argv (returncode p)).

(** The [for variation in variations] loop: true when an import worked
    (the function returns True there), false when every one raised
    ImportError; the exception of a refused name passes through. *)
Fixpoint try_variations (variations : list str) : M W (result bool) :=
  match variations with
  | [] => ret (Returns false)
  | variation :: rest =>
      found <- try_import variation ;;
      match found with
      | Returns true => ret (Returns true)
      | Returns false => try_variations rest
      | Raises e => ret (Raises e)
      end
  end.

Definition variations_of (package_name : str) : list str :=
  [PyStr.replace "-" "_" package_name;
   PyStr.last (PyStr.split "-" package_name);
   PyStr.join [] (PyStr.split "-" package_name)].

Definition verify_installation (package : str) : M W (result bool) :=
  let package_name := PyStr.first (PyStr.split "==" package) in
  found <- try_import package_name ;;
  match found with
  | Returns true => ret (Returns true)
  | Raises e => ret (Raises e)
  | Returns false =>
      found <- try_variations (variations_of package_name) ;;
      match found with
      | Returns true => ret (Returns true)
      | Raises e => ret (Raises e)
      | Returns false =>
          p <- run (pip ["show" : str; package_name]) ;;
          if Z.eqb (returncode p) 0
          then ret (Returns (PyStr.contains "Version:" (stdout p)))
          else ret (Returns false)
      end
  end.

Definition calculate_file_hash (content : str) : str := sha256_hexdigest content.

Definition save_script_hash (hash_value : str) : M W unit :=
  write_file HASH_FILE hash_value.

Definition load_script_hash : M W str :=
  f <- read_file HASH_FILE ;;
  match f with
  | Some content => ret (PyStr.strip (PyStr.universal_newlines content))
  | None => ret []
  end.

Definition self_check : M W bool :=
  let current_hash := calculate_file_hash script_source in
  saved_hash <- load_script_hash ;;
  if negb (truthy saved_hash) then
    print "This appears to be the first run of the script." ;;
    save_script_hash current_hash ;;
    ret true
  else if negb (PyStr.eqb current_hash saved_hash) then
    print "Warning: The script has been modified since it was last run." ;;
    answer <- input "Do you want to continue anyway? (y/n): " ;;
    let user_input := PyStr.lower answer in
    if PyStr.eqb user_input "y" then
      save_script_hash current_hash ;;
      ret true
    else ret false
  else ret true.

(** [for installed_package in installed_packages: uninstall_package(...)] *)
Fixpoint uninstall_all (installed_packages : list str) : M W unit :=
  match installed_packages with
  | [] => ret tt
  | installed_package :: rest =>
      uninstall_package installed_package ;;
      uninstall_all rest
  end.

(** How the [for package in requirements] loop of [main] is left: it runs
    to its end, [main] returns from inside it, or an exception of
    [verify_installation] passes through it. *)
Inductive flow := Finished | Returned | Raised (e : exn).

(** The loop of [main] over the requirements, with [installed_packages] as
    it stands; it delivers the list as the loop leaves it. *)
Fixpoint install_loop (requirements installed_packages : list str)
  : M W (flow * list str) :=
  match requirements with
  | [] => ret (Finished, installed_packages)
  | package :: rest =>
      if negb (validate_package_name package) then
        print ("Invalid package name: " ++ package ++ ". Skipping.") ;;
        install_loop rest installed_packages
      else
        r <- install_package package ;;
        let (success, output) := r in
        if success then
          print ("Successfully installed " ++ package) ;;
          verified <- verify_installation package ;;
          match verified with
          | Returns true =>
              print ("Verified installation of " ++ package) ;;
              install_loop rest (installed_packages ++ [package])
          | Returns false =>
              print ("Warning: Failed to verify installation of " ++ package) ;;
              print "The package may still be installed correctly. Please check manually." ;;
              install_loop rest installed_packages
          | Raises e => ret (Raised e, installed_packages)
          end
        else
          print ("Failed to install " ++ package) ;;
          print ("Error: " ++ output) ;;
          answer <- input "Do you want to roll back the installations? (y/n): " ;;
          let rollback := PyStr.eqb (PyStr.lower answer) "y" in
          if rollback then
            uninstall_all installed_packages ;;
            print "Rolled back installations." ;;
            ret (Returned, installed_packages)
          else install_loop rest installed_packages
  end.

Definition requirements_file : str := "requirements.txt".

(** [main] returns, or it ends with the exception that passed through its
    loop. *)
Definition main : M W (result unit) :=
  ok <- self_check ;;
  if negb ok then
    print "Exiting for security reasons." ;;
    ret (Returns tt)
  else
    ok <- check_python_installation ;;
    if negb ok then
      print "Error: Python is not installed or not accessible." ;;
      print get_python_download_instructions ;;
      ret (Returns tt)
    else
      f <- read_file requirements_file ;;
      match f with
      | None =>
          print ("Error: " ++ requirements_file
                 ++ " not found in the current directory.") ;;
          ret (Returns tt)
      | Some _ =>
          requirements <- read_requirements requirements_file ;;
          if negb (truthy requirements) then
            print "No packages to install." ;;
            ret (Returns tt)
          else
            print "Installing packages..." ;;
            r <- install_loop requirements [] ;;
            match fst r with
            | Raised e => ret (Raises e)
            | Returned => ret (Returns tt)
            | Finished =>
                print "Installation process completed." ;;
                print "The hash file is to check if the install script hasn't been modified to prevent malicious use of the install script from the user or external parties." ;;
                ret (Returns tt)
            end
      end.

End Installer.
End Install.

(** ** main.py *)

Module Expander.

Definition ESC : ascii := ascii_of_nat 27.
Definition NL : str := [PyStr.LF].

(** colorama's Fore.WHITE, Fore.CYAN, Fore.LIGHTGREEN_EX and Style.RESET_ALL *)
Definition PRIMARY_COLOR : str := ESC :: "[37m".
Definition ACCENT_COLOR : str := ESC :: "[36m".
Definition SECONDARY_COLOR : str := ESC :: "[92m".
Definition RESET_ALL : str := ESC :: "[0m".

Definition analyzer_prompt : str :=
  "You are an AI agent that analyzes the csv provided by the user. The focus of your analysis should be on what the data is, how it is formatted, what each column stands for, and how new data should look like.".

Definition expander_prompt : str :=
  "You are an AI agent that generates new csv rows based on analysis results and sample data. Follow the exact formatting and you should NEVER output any extra text besides the formatted data. No confirmation, nothing JUST THE FORMATTED DATA! Do NOT explain your actions nor use quotations in your response.".

(** How the [while rows_added < rows_to_add] loop of [main] is left. *)
Inductive loop_exit :=
| Complete (rows_added : Z)   (* the condition became false *)
| ApiFailure                  (* expand_dataset returned None: main returns *)
| CsvError                    (* csv.Error, which nothing catches *)
| OutOfFuel.                  (* the model's bound on iterations was reached *)

(** How [main] ends. *)
Inductive exit := Return | Uncaught.

Section Expander.
Context {W : Type} {host : Host W}.

Definition colored_print (text color : str) : M W unit :=
  print (color ++ text ++ RESET_ALL).

Definition analysis_request (sample_df : DataFrame) (system_prompt : str)
  : chat_request :=
  let sample_str := df_to_string sample_df in
  mkChat "command-r-plus"
         ("Analyze this dataset sample:" ++ NL ++ NL ++ sample_str)
         1 system_prompt.

Definition analyze_dataset (sample_df : DataFrame) (system_prompt : str)
  : M W (option str) :=
  response <- chat (analysis_request sample_df system_prompt) ;;
  match response with
  | inl text => ret (Some text)
  | inr e =>
      colored_print ("Error during dataset analysis: " ++ e) SECONDARY_COLOR ;;
      ret None
  end.

Definition expansion_request (sample_df : DataFrame) (analysis system_prompt : str)
  (num_new_rows : Z) : chat_request :=
  let sample_str := df_to_string sample_df in
  mkChat "command-r-plus"
         ("Based on this sample dataset:" ++ NL ++ NL ++ sample_str ++ NL ++ NL
          ++ "And this analysis:" ++ NL ++ analysis ++ NL ++ NL
          ++ "Generate " ++ PyStr.of_int num_new_rows
          ++ " new rows for this dataset. Format the output as a CSV string without headers.")
         10 system_prompt.

Definition expand_dataset (sample_df : DataFrame) (analysis system_prompt : str)
  (num_new_rows : Z) : M W (option str) :=
  response <- chat (expansion_request sample_df analysis system_prompt num_new_rows) ;;
  match response with
  | inl text => ret (Some text)
  | inr e =>
      colored_print ("Error during dataset expansion: " ++ e) SECONDARY_COLOR ;;
      ret None
  end.

(** The text [append_to_csv] writes for rows. *)
Definition written (rows : list (list str)) : str :=
  List.concat (map Csv.writerow rows).

(** [append_to_csv]: every row the reader delivers is written; the result
    is false when the reader then raised csv.Error, which the function does
    not catch. *)
Definition append_to_csv (file_path new_data : str) : M W bool :=
  let parsed := Csv.reader (PyStr.splitlines new_data) in
  append_file file_path (written (Csv.rows parsed)) ;;
  ret (negb (Csv.failed parsed)).

(** The [while] loop of [main]; [fuel] bounds the number of iterations. *)
Fixpoint expansion_loop (fuel : nat) (sample_df : DataFrame)
  (analysis output_file : str) (rows_to_add rows_added : Z) : M W loop_exit :=
  if rows_added <? rows_to_add then
    match fuel with
    | O => ret OutOfFuel
    | S fuel' =>
        let new_rows := Z.min 50 (rows_to_add - rows_added) in
        new_data <- expand_dataset sample_df analysis expander_prompt new_rows ;;
        match new_data with
        | None =>
            colored_print "Failed to expand dataset. Exiting." SECONDARY_COLOR ;;
            ret ApiFailure
        | Some new_data =>
            ok <- append_to_csv output_file new_data ;;
            if ok then
              let rows_added := rows_added + new_rows in
              colored_print ("Progress: " ++ PyStr.of_int rows_added ++ "/"
                             ++ PyStr.of_int rows_to_add ++ " rows added")
                            ACCENT_COLOR ;;
              expansion_loop fuel' sample_df analysis output_file
                             rows_to_add rows_added
            else ret CsvError
        end
    end
  else ret (Complete rows_added).

(** [pd.read_csv(path)]: the frame, or the text of the exception. *)
Definition read_csv (path : str) : M W (str + DataFrame) :=
  f <- read_file path ;;
  match f with
  | Some content => ret (pd_read_csv content)
  | None => ret (inl (io_error path))
  end.

Definition output_file_of (input_file : str) : str :=
  "expanded_" ++ PyStr.basename input_file.

(** [main] once its three prompt loops have delivered the client, the
    input file with its sample, and a positive [target_rows] (source lines
    122 to 163). *)
Definition main (input_file : str) (sample_df : DataFrame) (target_rows : Z)
  : M W exit :=
  r <- read_csv input_file ;;
  match r with
  | inl e =>
      colored_print ("Error reading the original CSV file: " ++ e) SECONDARY_COLOR ;;
      ret Return
  | inr original_df =>
      let current_rows := Z.of_nat (List.length (values original_df)) in
      colored_print (NL ++ "Original dataset has " ++ PyStr.of_int current_rows
                     ++ " rows.") ACCENT_COLOR ;;
      let rows_to_add := Z.max 0 (target_rows - current_rows) in
      if rows_to_add =? 0 then
        colored_print "The dataset already has the desired number of rows or more. No expansion needed." PRIMARY_COLOR ;;
        ret Return
      else
        colored_print ("Will add " ++ PyStr.of_int rows_to_add
                       ++ " new rows to the dataset.") ACCENT_COLOR ;;
        colored_print (NL ++ "Analyzing the dataset...") ACCENT_COLOR ;;
        analysis <- analyze_dataset sample_df analyzer_prompt ;;
        match analysis with
        | None => ret Return
        | Some analysis =>
            colored_print "Analysis complete." ACCENT_COLOR ;;
            let output_file := output_file_of input_file in
            write_file output_file (df_to_csv original_df) ;;
            colored_print "Expanding dataset, this can take a while. Go take a break ;)" PRIMARY_COLOR ;;
            e <- expansion_loop (Z.to_nat rows_to_add) sample_df analysis
                                output_file rows_to_add 0 ;;
            match e with
            | Complete rows_added =>
                colored_print (NL ++ "Dataset expansion complete. "
                               ++ PyStr.of_int rows_added ++ " new rows added.")
                              PRIMARY_COLOR ;;
                colored_print ("Expanded dataset saved as '" ++ output_file ++ "'")
                              SECONDARY_COLOR ;;
                ret Return
            | ApiFailure => ret Return
            | CsvError | OutOfFuel => ret Uncaught
            end
        end
  end.

End Expander.
End Expander.

(** ** A scripted host

    A world that answers from a script: the lines typed by the user and the
    chat responses in turn, and fixed verdicts for subprocesses and imports.
    It serves to run the two programs on concrete inputs. *)

Module Scripted.

Record Script := mkScript {
  typed : list str;                 (* the lines the user will type *)
  exit_code : list str -> Z;        (* the return code of each command *)
  output_of : list str -> str;      (* and what it prints *)
  importable : str -> bool;         (* the modules that can be imported *)
  responses : list (str + str)      (* the chat responses to come *)
}.

Definition next_line (w : Script) : str * Script :=
  (hd [] (typed w),
   mkScript (tl (typed w)) (exit_code w) (output_of w) (importable w) (responses w)).

Definition next_response (w : Script) : (str + str) * Script :=
  (hd (inr ("no response" : str)) (responses w),
   mkScript (typed w) (exit_code w) (output_of w) (importable w) (tl (responses w))).

(** The scripted pandas: the first record of the file is the header. *)
Definition parse_frame (content : str) : str + DataFrame :=
  match Csv.rows (Csv.reader (PyStr.raw_lines content)) with
  | [] => inl ("No columns to parse from file" : str)
  | header :: body => inr (mkFrame header body)
  end.

Definition frame_text (df : DataFrame) : str :=
  List.concat (map Csv.writerow (columns df :: values df)).

#[global] Instance host : Host Script := {
  sys_executable := "python3";
  platform_system := "Linux";
  script_source := "import sys";
  sha256_hexdigest := fun content => "digest of " ++ content;
  subprocess_run := fun argv w =>
    (mkCompleted (exit_code w argv) (output_of w argv) (output_of w argv), w);
  import_module := fun name w => (importable w name, w);
  stdin_line := next_line;
  called_process_error := fun argv code =>
    "Command returned non-zero exit status " ++ PyStr.of_int code;
  io_error := fun path => "No such file or directory: " ++ path;
  co_chat := fun _ w => next_response w;
  pd_read_csv := parse_frame;
  df_to_csv := frame_text;
  df_to_string := frame_text
}.

Definition no_files : str -> option str := fun _ => None.

Definition start (w : Script) (files : str -> option str) : State Script :=
  mkState w files [].

End Scripted.

(** ** Observations on the event log *)

Definition is_chat (e : event) : bool :=
  match e with Chat _ _ => true | _ => false end.

(** The chat requests of a log, in order. *)
Fixpoint chat_requests (l : list event) : list chat_request :=
  match l with
  | [] => []
  | Chat request _ :: l' => request :: chat_requests l'
  | _ :: l' => chat_requests l'
  end.

(** The commands of a log, in order. *)
Fixpoint commands (l : list event) : list (list str) :=
  match l with
  | [] => []
  | Run argv _ :: l' => argv :: commands l'
  | _ :: l' => commands l'
  end.

(** The module names of the import attempts of a log, in order, those that
    import_module refused included. *)
Fixpoint imports (l : list event) : list str :=
  match l with
  | [] => []
  | Import name _ :: l' => name :: imports l'
  | Refuse name _ :: l' => name :: imports l'
  | _ :: l' => imports l'
  end.

(** The lines printed, in order. *)
Fixpoint printed (l : list event) : list str :=
  match l with
  | [] => []
  | Print line :: l' => line :: printed l'
  | _ :: l' => printed l'
  end.

(** The prompts shown to the user, in order. *)
Fixpoint prompts (l : list event) : list str :=
  match l with
  | [] => []
  | Input prompt _ :: l' => prompt :: prompts l'
  | _ :: l' => prompts l'
  end.

(** ** The batches the specification prescribes

    Each batch is the smaller of the cap, 50, and the remaining deficit, and
    the deficit goes down by the batch requested, until it is zero.  [n]
    bounds the number of batches. *)

Fixpoint batch_plan (n : nat) (deficit : Z) : list Z :=
  match n with
  | O => []
  | S n' =>
      if 0 <? deficit
      then Z.min 50 deficit :: batch_plan n' (deficit - Z.min 50 deficit)
      else []
  end.

Definition batches (deficit : Z) : list Z := batch_plan (Z.to_nat deficit) deficit.

Fixpoint total (sizes : list Z) : Z :=
  match sizes with
  | [] => 0
  | n :: sizes' => n + total sizes'
  end.

(** [l1] is an initial part of [l2]. *)
Definition initial {A : Type} (l1 l2 : list A) : Prop := exists rest, l2 = l1 ++ rest.

(** ** Sample inputs for the scripted host *)

Module Samples.

Definition CRLF : str := Csv.lineterminator.

(** [n] lines of a two-column dataset. *)
Definition two_column_rows (n : nat) : str :=
  List.concat (repeat ("1,2" ++ CRLF) n).

(** A dataset file of two columns and ten rows. *)
Definition dataset : str := "x,y" ++ CRLF ++ two_column_rows 10.

Definition sample_df : DataFrame :=
  mkFrame ["0" : str; "1" : str] [["x" : str; "y" : str]; ["1" : str; "2" : str]].

(** A chat API that answers every generation request with as many rows as
    were asked for when ten rows are to become a hundred and twenty. *)
Definition exact_api : Scripted.Script :=
  Scripted.mkScript [] (fun _ => 0) (fun _ => []) (fun _ => false)
    [inl (two_column_rows 50); inl (two_column_rows 50); inl (two_column_rows 10)].

(** The same, with the response to the analysis request first. *)
Definition analysed_api : Scripted.Script :=
  Scripted.mkScript [] (fun _ => 0) (fun _ => []) (fun _ => false)
    [inl ("two integer columns" : str);
     inl (two_column_rows 50); inl (two_column_rows 50); inl (two_column_rows 10)].

Definition data_files : str -> option str :=
  store Scripted.no_files "data.csv" dataset.

(** A chat API that answers the analysis request, then the one generation
    request with two hundred rows. *)
Definition flooding_api : Scripted.Script :=
  Scripted.mkScript [] (fun _ => 0) (fun _ => []) (fun _ => false)
    [inl ("two integer columns" : str); inl (two_column_rows 200)].

(** A chat API that answers the generation request with one row of three
    fields. *)
Definition three_field_api : Scripted.Script :=
  Scripted.mkScript [] (fun _ => 0) (fun _ => []) (fun _ => false)
    [inl ("two integer columns" : str); inl ("1,2,3" ++ [PyStr.LF])].

(** What the scripted pandas reads from [dataset]. *)
Definition original_df : DataFrame :=
  mkFrame ["x" : str; "y" : str] (repeat ["1" : str; "2" : str] 10).

(** The loop of [main] for ten rows and a target of 120. *)
Definition loop_start : State Scripted.Script :=
  Scripted.start exact_api Scripted.no_files.

Definition loop_run : Expander.loop_exit * State Scripted.Script :=
  Expander.expansion_loop (Z.to_nat (Z.max 0 (120 - 10))) sample_df
    "two integer columns" "expanded_data.csv" (Z.max 0 (120 - 10)) 0 loop_start.

(** [main] on the dataset of ten rows. *)
Definition main_start : State Scripted.Script :=
  Scripted.start analysed_api data_files.

(** [main] on the dataset of ten rows with a target of eleven, where the
    response holds two hundred rows, and where it holds a row of three
    fields. *)
Definition flooded_run : Expander.exit * State Scripted.Script :=
  Expander.main "data.csv" sample_df 11 (Scripted.start flooding_api data_files).

Definition three_field_run : Expander.exit * State Scripted.Script :=
  Expander.main "data.csv" sample_df 11 (Scripted.start three_field_api data_files).

(** A state in which the output file holds the dataset. *)
Definition expanding_start : State Scripted.Script :=
  Scripted.start exact_api (store Scripted.no_files "expanded_data.csv" dataset).

End Samples.

(** ** Lines of a requirements manifest, as the specification names them *)

(** A blank line holds nothing but white space (its line end included). *)
Definition blank (line : str) : Prop := Forall (fun c => PyStr.isspace c = true) line.

(** A comment line begins with [#]. *)
Definition comment (line : str) : Prop := exists rest, line = "#"%char :: rest.

(** ** Console lines of the installer *)

Definition first_run_line : str := "This appears to be the first run of the script.".
Definition modified_line : str :=
  "Warning: The script has been modified since it was last run.".
Definition continue_prompt : str := "Do you want to continue anyway? (y/n): ".
Definition rollback_prompt : str := "Do you want to roll back the installations? (y/n): ".
Definition unverified_lines (package : str) : list event :=
  [Print ("Warning: Failed to verify installation of " ++ package);
   Print "The package may still be installed correctly. Please check manually."].

(** ** Runs of the installer's loop, as the specification speaks of them *)

(** The state [s] with more events in its log. *)
Definition logged {W : Type} (events : list event) (s : State W) : State W :=
  mkState (world s) (files s) (log s ++ events).

Section InstallRuns.
Context {W : Type} {host : Host W}.

Definition install_command (package : str) : list str :=
  Install.pip ["install" : str; package].

Definition uninstall_command (package : str) : list str :=
  Install.pip ["uninstall" : str; "-y" : str; package].

(** [installed_all packages verdicts s s']: from the state [s], each of
    [packages] in turn passes validation and is installed with success, its
    verification gives the verdict at the same place of [verdicts], and the
    state after the console lines of the last of them is [s']. *)
Inductive installed_all : list str -> list bool -> State W -> State W -> Prop :=
| installed_none s : installed_all [] [] s s
| installed_next package packages verdict verdicts s output s1 s2 s3 :
    Install.validate_package_name package = true ->
    Install.install_package package s = ((true, output), s1) ->
    Install.verify_installation package
      (logged [Print ("Successfully installed " ++ package)] s1)
    = (Returns verdict, s2) ->
    installed_all packages verdicts
      (logged (if verdict
               then [Print ("Verified installation of " ++ package)]
               else unverified_lines package) s2) s3 ->
    installed_all (package :: packages) (verdict :: verdicts) s s3.

(** The packages whose verification succeeded. *)
Fixpoint verified_of (packages : list str) (verdicts : list bool) : list str :=
  match packages, verdicts with
  | package :: packages', verdict :: verdicts' =>
      if verdict then package :: verified_of packages' verdicts'
      else verified_of packages' verdicts'
  | _, _ => []
  end.

(** The line [uninstall_package] prints: the success line, or the failure
    with the text of its error. *)
Definition uninstall_line (package line : str) : Prop :=
  line = "Uninstalled " ++ package
  \/ exists e, line = "Failed to uninstall " ++ package ++ ": " ++ e.

End InstallRuns.

(** ** Sample runs of the installer on the scripted host *)

Module InstallSamples.

(** The fourth and fifth words of a command ([pip install name]). *)
Definition subcommand (argv : list str) : str := nth 3 argv [].
Definition last_word (argv : list str) : str := List.last argv [].

(** Installing [broken] fails, every other install works; no metadata query
    finds anything; uninstalling [alpha] fails. *)
Definition verdicts (argv : list str) : Z :=
  if PyStr.eqb (subcommand argv) "install"
  then (if PyStr.eqb (last_word argv) "broken" then 1 else 0)
  else if PyStr.eqb (subcommand argv) "show" then 1
  else if PyStr.eqb (subcommand argv) "uninstall"
  then (if PyStr.eqb (last_word argv) "alpha" then 1 else 0)
  else 0.

(** A host on which no module can be imported and the user types [y]. *)
Definition nothing_importable : Scripted.Script :=
  Scripted.mkScript ["y" : str] verdicts (fun _ => []) (fun _ => false) [].

(** A host on which [alpha] and [beta] can be imported and the user types
    [Y]. *)
Definition both_importable : Scripted.Script :=
  Scripted.mkScript ["Y" : str] verdicts (fun _ => [])
    (fun name => (PyStr.eqb name "alpha" || PyStr.eqb name "beta")%bool) [].

Definition unverified_start : State Scripted.Script :=
  Scripted.start nothing_importable Scripted.no_files.

Definition verified_start : State Scripted.Script :=
  Scripted.start both_importable Scripted.no_files.

(** A manifest of a comment, a requirement, a blank line and a requirement
    with spaces around it. *)
Definition manifest : str :=
  "# dependencies" ++ [PyStr.LF] ++ "requests==2.0" ++ [PyStr.LF]
  ++ [PyStr.LF] ++ "  numpy " ++ [PyStr.LF].

Definition manifest_start : State Scripted.Script :=
  Scripted.start nothing_importable
    (store Scripted.no_files Install.requirements_file manifest).

(** A digest file from an earlier version of the script, and a user who
    types [n]. *)
Definition refusing : Scripted.Script :=
  Scripted.mkScript ["n" : str] verdicts (fun _ => []) (fun _ => false) [].

Definition modified_start : State Scripted.Script :=
  Scripted.start refusing
    (store (store Scripted.no_files Install.requirements_file manifest)
           Install.HASH_FILE ("digest of import os" ++ [PyStr.LF])).

(** The loop over [alpha] and [broken] where nothing can be imported. *)
Definition unverified_run : (Install.flow * list str) * State Scripted.Script :=
  Install.install_loop ["alpha" : str; "broken" : str] [] unverified_start.

End InstallSamples.

(** ** The language of a regular expression *)

Inductive lang : Re.regex -> str -> Prop :=
| lang_eps : lang Re.Eps []
| lang_set set c : Re.in_set set c = true -> lang (Re.Set_ set) [c]
| lang_cat r1 r2 s1 s2 :
    lang r1 s1 -> lang r2 s2 -> lang (Re.Cat r1 r2) (s1 ++ s2)
| lang_alt_l r1 r2 s : lang r1 s -> lang (Re.Alt r1 r2) s
| lang_alt_r r1 r2 s : lang r2 s -> lang (Re.Alt r1 r2) s
| lang_star_nil r : lang (Re.Star r) []
| lang_star_cons r s1 s2 :
    lang r s1 -> lang (Re.Star r) s2 -> lang (Re.Star r) (s1 ++ s2).

(** ** The requirement grammar *)

(** A character of a name or a version: an alphanumeric, a dot, a hyphen
    or an underscore. *)
Definition name_char (c : ascii) : bool :=
  (PyStr.between 97 122 c || PyStr.between 65 90 c || PyStr.between 48 57 c
   || Ascii.eqb c "." || Ascii.eqb c "-" || Ascii.eqb c "_")%bool.

Definition operator_char (c : ascii) : bool :=
  (Ascii.eqb c "<" || Ascii.eqb c ">" || Ascii.eqb c "=" || Ascii.eqb c "!")%bool.

(** A character the grammar has a place for. *)
Definition grammar_char (c : ascii) : bool := (name_char c || operator_char c)%bool.

(** A name or a version: one character or more, all of them name characters. *)
Definition word (s : str) : Prop :=
  s <> [] /\ Forall (fun c => name_char c = true) s.

(** The comparison operators. *)
Definition comparison (op : str) : Prop :=
  In op ["<" : str; ">" : str; "<=" : str; ">=" : str; "==" : str; "!=" : str].

(** What the pattern takes for an operator: one of its four characters,
    and after it an equals sign or nothing. *)
Definition pattern_operator (op : str) : Prop :=
  exists c, operator_char c = true /\ (op = [c] \/ op = [c; "="%char]).

(** A requirement: a name, or a name, one operator and a version. *)
Definition requirement_with (operator : str -> Prop) (s : str) : Prop :=
  word s
  \/ exists name op version,
       s = name ++ op ++ version /\ word name /\ operator op /\ word version.

Definition requirement : str -> Prop := requirement_with comparison.

(** ** What the installer hands to the package manager *)

(** What [verify_installation] takes for the name of the package. *)
Definition package_name_of (package : str) : str :=
  PyStr.first (PyStr.split "==" package).

Section Commands.
Context {W : Type} {host : Host W}.

Definition show_command (name : str) : list str :=
  Install.pip ["show" : str; name].

(** A command of the package manager for a requirement that passed
    validation: its install, the metadata query for its name, or its
    uninstall. *)
Definition validated_command (requirements : list str) (argv : list str) : Prop :=
  exists package,
    In package requirements
    /\ Install.validate_package_name package = true
    /\ (argv = install_command package
        \/ argv = show_command (package_name_of package)
        \/ argv = uninstall_command package).

End Commands.

(** A string without an equals sign. *)
Definition no_equals (s : str) : Prop := Forall (fun c => c <> "="%char) s.

(** ** Rows and files of the csv format, as the specification speaks of them *)

(** A field the reader can deliver from lines without line ends: it holds
    no CR and no LF, and it is within the field size limit. *)
Definition plain_field (f : str) : Prop :=
  Forall (fun c => Csv.is_newline c = false) f
  /\ (N.of_nat (List.length f) <= Csv.field_limit)%N.

Definition plain_row (row : list str) : Prop := Forall plain_field row.

(** The state the reader is in after all of [lines], [None] after
    csv.Error; as in [Csv.read_rows], a record that ends starts the next
    one afresh. *)
Fixpoint scan_state (r : Csv.Reader) (lines : list str) : option Csv.Reader :=
  match lines with
  | [] => Some r
  | line :: rest =>
      match Csv.process_line r line with
      | None => None
      | Some r' =>
          if Csv.state_eqb (Csv.state r') Csv.START_RECORD
          then scan_state Csv.parse_reset rest
          else scan_state r' rest
      end
  end.

(** The content of a file is empty or ends with a line feed. *)
Definition terminated (content : str) : Prop :=
  content = [] \/ exists body, content = body ++ [PyStr.LF].

(** A file of complete records: its last line is ended, and the reader is
    at the start of a record, without error, after its last line. *)
Definition complete (content : str) : Prop :=
  terminated content
  /\ scan_state Csv.parse_reset (PyStr.raw_lines content) = Some Csv.parse_reset.

(** The records [csv.reader] delivers from a file opened with
    [newline='']. *)
Definition records (content : str) : list (list str) :=
  Csv.rows (Csv.reader (PyStr.raw_lines content)).

(** The rows of a dataset file: its records but the header. *)
Definition row_count (content : str) : Z := Z.of_nat (List.length (records content)) - 1.

(** The content of a file of the store, empty when there is none. *)
Definition content_of {W : Type} (s : State W) (path : str) : str :=
  match files s path with Some c => c | None => [] end.

(** The rows the reader delivers from a chat response, as [append_to_csv]
    reads it. *)
Definition parsed (new_data : str) : list (list str) :=
  Csv.rows (Csv.reader (PyStr.splitlines new_data)).

(** How the writer renders one field. *)
Definition render (f : str) : str :=
  if existsb Csv.must_quote f
  then Csv.quotechar :: Csv.field_data f ++ [Csv.quotechar]
  else Csv.field_data f.

(** The fields after the first, each behind its delimiter. *)
Definition tail_render (row : list str) : str :=
  List.concat (map (fun f => Csv.delimiter :: render f) row).

(** The reader is about to read a field: at the start of a record or after
    a delimiter. *)
Definition starting (st : Csv.ParserState) : Prop :=
  st = Csv.START_RECORD \/ st = Csv.START_FIELD.

(** The state of the reader after a field as the writer rendered it. *)
Definition after_render (st : Csv.ParserState) (f : str) : Csv.ParserState :=
  if existsb Csv.must_quote f then Csv.QUOTE_IN_QUOTED_FIELD
  else match f with [] => st | _ :: _ => Csv.IN_FIELD end.

(** The field is within the field size limit. *)
Definition within_limit (f : str) : Prop :=
  (N.of_nat (List.length f) <= Csv.field_limit)%N.

(** A string without CR and LF. *)
Definition no_newline (s : str) : Prop := Forall (fun c => Csv.is_newline c = false) s.

(** What the reader holds is plain. *)
Definition plain_reader (r : Csv.Reader) : Prop :=
  plain_row (Csv.fields r) /\ plain_field (Csv.field r).

(** The rows of [rs] after the rows [rows]. *)
Definition after_rows (rows : list (list str)) (rs : Csv.Rows) : Csv.Rows :=
  Csv.mkRows (rows ++ Csv.rows rs) (Csv.failed rs).

(** ** Requirement strings, as a reader of the manifest sees them *)

(** A string with no white space at either end. *)
Definition trimmed (r : str) : Prop :=
  (forall c t, r = c :: t -> PyStr.isspace c = false)
  /\ (forall b c, r = b ++ [c] -> PyStr.isspace c = false).

(** ** Names with hyphens *)

(** The hyphen turned into an underscore. *)
Definition underscored (c : ascii) : ascii :=
  if Ascii.eqb c "-" then "_"%char else c.

Definition not_hyphen (c : ascii) : bool := negb (Ascii.eqb c "-").

(** [tail] is what follows the last [d] of [s], the whole of [s] when it
    holds no [d]. *)
Definition after_last (d : ascii) (s tail : str) : Prop :=
  ~ In d tail
  /\ exists before, s = before ++ tail
                    /\ (before = [] \/ exists b, before = b ++ [d]).

(** ** Outcomes in the log *)

(** An import attempt that failed. *)
Definition failed_import (name : str) : event := Import name false.

(** The fourth word of a command is [uninstall]. *)
Definition is_uninstall (argv : list str) : bool :=
  PyStr.eqb (nth 3 argv []) "uninstall".

(** ** What a computation may touch *)

(** The computation changes no file but the one at [path]. *)
Definition writes_only {W A : Type} (path : str) (c : M W A) : Prop :=
  forall s p, p <> path -> files (snd (c s)) p = files s p.

(** The requirements the manifest of a state holds, none when there is no
    manifest. *)
Definition manifest_requirements {W : Type} (s : State W) : list str :=
  match files s Install.requirements_file with
  | Some content => Install.requirement_lines (PyStr.text_lines content)
  | None => []
  end.

Section MainCommands.
Context {W : Type} {host : Host W}.

(** The command of [check_python_installation]. *)
Definition version_command : list str := [sys_executable; "--version" : str].

(** A command [main] may run: the version check, or a command of the
    package manager for a requirement of the manifest that passed
    validation. *)
Definition main_command (s : State W) (argv : list str) : Prop :=
  argv = version_command \/ validated_command (manifest_requirements s) argv.

End MainCommands.

(** ** Reasoning about a computation of the monad *)

(** From a state that satisfies [pre], the computation delivers a value and
    a state that satisfy [post]. *)
Definition triple {W A : Type} (pre : State W -> Prop) (c : M W A)
  (post : A -> State W -> Prop) : Prop :=
  forall s, pre s -> post (fst (c s)) (snd (c s)).

(** The log of [s'] is the log of [s] and then events whose commands all
    satisfy [P]. *)
Definition extends {W : Type} (P : list str -> Prop) (s s' : State W) : Prop :=
  exists L, log s' = log s ++ L /\ Forall P (commands L).

(** ** Responses without quote characters *)

(** The fields of a line that holds no quote character: none for an empty
    line, else the pieces between its commas. *)
Definition fields_of (line : str) : list str :=
  match line with
  | [] => []
  | _ :: _ => PyStr.split [Csv.delimiter] line
  end.

Definition no_quote (s : str) : Prop := ~ In Csv.quotechar s.

(** The characters of all the lines together. *)
Definition total_length (lines : list str) : nat :=
  list_sum (map (@List.length ascii) lines).

(** The number of requests for a deficit: the deficit over 50, rounded up. *)
Definition request_count (deficit : Z) : nat := Z.to_nat ((deficit + 49) / 50).

(** ** More sample inputs for the scripted host *)

Module MoreSamples.

(** A manifest whose second line is an indented comment. *)
Definition indented_manifest : str :=
  "requests" ++ [PyStr.LF] ++ "  # note" ++ [PyStr.LF].

Definition indented_start : State Scripted.Script :=
  Scripted.start InstallSamples.nothing_importable
    (store Scripted.no_files Install.requirements_file indented_manifest).

(** A chat API whose one response is an error. *)
Definition failing_api : Scripted.Script :=
  Scripted.mkScript [] (fun _ => 0) (fun _ => []) (fun _ => false)
    [inr ("too many requests" : str)].

(** A host on which every command fails, the version check of the
    interpreter among them. *)
Definition no_python : Scripted.Script :=
  Scripted.mkScript [] (fun _ => 1) (fun _ => []) (fun _ => false) [].

(** A manifest whose first requirement ends with a hyphen: it passes
    validation, and the part after its last hyphen is the empty name. *)
Definition refused_manifest : str :=
  "foo-" ++ [PyStr.LF] ++ "alpha" ++ [PyStr.LF].

Definition refused_start : State Scripted.Script :=
  Scripted.start InstallSamples.nothing_importable
    (store Scripted.no_files Install.requirements_file refused_manifest).

(** A response of two rows around an empty line. *)
Definition gapped_response : str := "1,2" ++ [PyStr.LF] ++ [PyStr.LF] ++ "3,,4".

(** The responses to come are within the field size limit. *)
Definition short_script (w : Scripted.Script) : Prop :=
  Forall (fun r => match r with inl text => within_limit text | inr _ => True end)
         (Scripted.responses w).

End MoreSamples.

(** * Properties *)

#[local] Arguments Ascii.eqb : simpl never.

Lemma chat_requests_app l1 l2 :
  chat_requests (l1 ++ l2) = chat_requests l1 ++ chat_requests l2.
Proof.
  induction l1 as [|e l1 IH]; simpl; [reflexivity|].
  destruct e; simpl; rewrite ?IH; reflexivity.
Qed.

Lemma commands_app l1 l2 : commands (l1 ++ l2) = commands l1 ++ commands l2.
Proof.
  induction l1 as [|e l1 IH]; simpl; [reflexivity|].
  destruct e; simpl; rewrite ?IH; reflexivity.
Qed.

Lemma imports_app l1 l2 : imports (l1 ++ l2) = imports l1 ++ imports l2.
Proof.
  induction l1 as [|e l1 IH]; simpl; [reflexivity|].
  destruct e; simpl; rewrite ?IH; reflexivity.
Qed.

Lemma printed_app l1 l2 : printed (l1 ++ l2) = printed l1 ++ printed l2.
Proof.
  induction l1 as [|e l1 IH]; simpl; [reflexivity|].
  destruct e; simpl; rewrite ?IH; reflexivity.
Qed.

Lemma prompts_app l1 l2 : prompts (l1 ++ l2) = prompts l1 ++ prompts l2.
Proof.
  induction l1 as [|e l1 IH]; simpl; [reflexivity|].
  destruct e; simpl; rewrite ?IH; reflexivity.
Qed.

(** ** The expander: no work when the dataset is large enough *)

Section ExpanderEarlyExit.
Context {W : Type} {host : Host W}.

(** C6. When [target_rows <= current_rows], [main] returns after two
    console lines: it calls no oracle (the world is untouched, so neither
    the analysis nor a generation request is made), and the file store is
    the one it started from, so no output artifact is created or changed. *)
Theorem main_no_expansion_needed :
  forall (input_file : str) (sample_df : DataFrame) (target_rows : Z)
         (s : State W) (content : str) (original_df : DataFrame),
    files s input_file = Some content ->
    pd_read_csv content = inr original_df ->
    target_rows <= Z.of_nat (List.length (values original_df)) ->
    let r := Expander.main input_file sample_df target_rows s in
    fst r = Expander.Return
    /\ world (snd r) = world s
    /\ files (snd r) = files s
    /\ chat_requests (log (snd r)) = chat_requests (log s)
    /\ exists line1 line2, log (snd r) = log s ++ [Print line1; Print line2].
Proof.
  intros input_file sample_df target_rows s content df Hfile Hread Hle.
  unfold Expander.main, Expander.read_csv, read_file, bind, ret; simpl.
  rewrite Hfile, Hread.
  unfold Expander.colored_print, print, emit; simpl.
  assert (Hz : Z.max 0 (target_rows - Z.of_nat (List.length (values df))) = 0)
    by lia.
  rewrite Hz; simpl.
  repeat split; try reflexivity.
  - rewrite <- app_assoc, chat_requests_app; simpl. apply app_nil_r.
  - do 2 eexists. rewrite <- app_assoc. reflexivity.
Qed.

End ExpanderEarlyExit.

(** [main] on the dataset of ten rows with a target of five. *)
Lemma main_no_expansion_needed_witness :
  fst (Expander.main "data.csv" Samples.sample_df 5 Samples.main_start)
  = Expander.Return
  /\ files (snd (Expander.main "data.csv" Samples.sample_df 5 Samples.main_start))
     = Samples.data_files
  /\ chat_requests
       (log (snd (Expander.main "data.csv" Samples.sample_df 5 Samples.main_start)))
     = [].
Proof.
  destruct (@main_no_expansion_needed _ Scripted.host "data.csv" Samples.sample_df 5
              Samples.main_start Samples.dataset Samples.original_df)
    as (Hexit & _ & Hfiles & Hchat & _).
  - reflexivity.
  - vm_compute. reflexivity.
  - vm_compute. discriminate.
  - split; [exact Hexit|]. split; [exact Hfiles | exact Hchat].
Defined.

(** ** The expansion loop: the batches it requests *)

Lemma batch_plan_total n deficit :
  (Z.to_nat deficit <= n)%nat -> 0 <= deficit ->
  total (batch_plan n deficit) = deficit.
Proof.
  revert deficit. induction n as [|n IH]; intros deficit Hn Hd; simpl.
  - lia.
  - destruct (0 <? deficit) eqn:Hpos.
    + apply Z.ltb_lt in Hpos. simpl. rewrite IH; lia.
    + apply Z.ltb_ge in Hpos. simpl. lia.
Qed.

Lemma batch_plan_bounds n deficit :
  Forall (fun size => 1 <= size <= 50) (batch_plan n deficit).
Proof.
  revert deficit. induction n as [|n IH]; intros deficit; simpl.
  - constructor.
  - destruct (0 <? deficit) eqn:Hpos; [|constructor].
    apply Z.ltb_lt in Hpos. constructor; [lia | apply IH].
Qed.

Section ExpansionLoop.
Context {W : Type} {host : Host W}.
Variables (sample_df : DataFrame) (analysis output_file : str).

Let request (size : Z) : chat_request :=
  Expander.expansion_request sample_df analysis Expander.expander_prompt size.

Lemma expand_dataset_log size s :
  chat_requests (log (snd (Expander.expand_dataset sample_df analysis
                             Expander.expander_prompt size s)))
  = chat_requests (log s) ++ [request size].
Proof.
  unfold Expander.expand_dataset, chat, bind, ret.
  destruct (co_chat _ (world s)) as [[text|e] w]; simpl;
    rewrite ?chat_requests_app; simpl; rewrite ?app_nil_r;
    try rewrite <- app_assoc; reflexivity.
Qed.

(** The loop from any running total: the requests it issues are an initial
    part of the plan for the remaining deficit, the bound on iterations is
    not reached, and when the loop runs to its end the whole plan was
    requested and the running total is [rows_to_add]. *)
Lemma expansion_loop_plan fuel :
  forall rows_to_add rows_added (s s' : State W) (e : Expander.loop_exit),
    (Z.to_nat (rows_to_add - rows_added) <= fuel)%nat ->
    Expander.expansion_loop fuel sample_df analysis output_file
                            rows_to_add rows_added s = (e, s') ->
    exists sizes,
      initial sizes (batch_plan fuel (rows_to_add - rows_added))
      /\ chat_requests (log s') = chat_requests (log s) ++ map request sizes
      /\ e <> Expander.OutOfFuel
      /\ (forall n, e = Expander.Complete n ->
            sizes = batch_plan fuel (rows_to_add - rows_added)
            /\ n = rows_added + total sizes).
Proof.
  induction fuel as [|fuel IH]; intros rows_to_add rows_added s s' e Hfuel Hrun;
    simpl in Hrun.
  - destruct (rows_added <? rows_to_add) eqn:Hlt.
    + apply Z.ltb_lt in Hlt. lia.
    + injection Hrun as <- <-. exists []. simpl. rewrite app_nil_r.
      split; [exists []; reflexivity|]. split; [reflexivity|].
      split; [discriminate|].
      intros n Hn. injection Hn as <-. split; [reflexivity | lia].
  - destruct (rows_added <? rows_to_add) eqn:Hlt.
    + apply Z.ltb_lt in Hlt.
      assert (Hpos : (0 <? rows_to_add - rows_added) = true)
        by (apply Z.ltb_lt; lia).
      simpl. rewrite Hpos.
      set (size := Z.min 50 (rows_to_add - rows_added)) in *.
      unfold bind at 1 in Hrun.
      pose proof (expand_dataset_log size s) as Hlog.
      destruct (Expander.expand_dataset sample_df analysis
                  Expander.expander_prompt size s) as [[new_data|] s1].
      * simpl in Hlog.
        unfold Expander.append_to_csv, append_file, bind, ret in Hrun.
        simpl in Hrun.
        destruct (Csv.failed _); simpl in Hrun.
        -- injection Hrun as <- <-. exists [size]. simpl.
           split; [eexists; reflexivity|]. split; [exact Hlog|].
           split; [discriminate | intros n Hn; discriminate Hn].
        -- unfold Expander.colored_print, print, emit in Hrun. simpl in Hrun.
           apply IH in Hrun; [|subst size; lia].
           replace (rows_to_add - (rows_added + size))
             with (rows_to_add - rows_added - size) in Hrun by lia.
           destruct Hrun as (sizes & [rest Hini] & Hreq & Hfu & Hdone).
           exists (size :: sizes). simpl in *.
           split; [exists rest; rewrite Hini; reflexivity|].
           split.
           { rewrite Hreq, chat_requests_app, Hlog. simpl.
             rewrite app_nil_r, <- app_assoc. reflexivity. }
           split; [exact Hfu|].
           intros n Hn. destruct (Hdone n Hn) as [-> ->]. split; [reflexivity | lia].
      * simpl in Hlog. unfold Expander.colored_print, print, emit, bind, ret in Hrun.
        simpl in Hrun. injection Hrun as <- <-. exists [size]. simpl.
        split; [eexists; reflexivity|].
        split; [rewrite chat_requests_app, Hlog; simpl; apply app_nil_r|].
        split; [discriminate | intros n Hn; discriminate Hn].
    + apply Z.ltb_ge in Hlt.
      assert (Hpos : (0 <? rows_to_add - rows_added) = false)
        by (apply Z.ltb_ge; lia).
      simpl. rewrite Hpos. injection Hrun as <- <-.
      exists []. simpl. rewrite app_nil_r.
      split; [exists []; reflexivity|]. split; [reflexivity|].
      split; [discriminate|].
      intros n Hn. injection Hn as <-. split; [reflexivity | lia].
Qed.

End ExpansionLoop.

(** C1. With [current_rows < target_rows], the loop requests the batches of
    the plan, each the smaller of 50 and the remaining deficit, one after
    the other: whatever it requested is an initial part of the plan, it never
    reaches the model's bound on iterations, and when it runs to its end it
    has requested the whole plan and its running total is [rows_to_add], the
    sum of the sizes requested, whatever the responses held.  For ten rows
    and a target of 120 the plan is 50, 50, 10. *)
Theorem expansion_loop_batches :
  forall (W : Type) (host : Host W) (sample_df : DataFrame)
         (analysis output_file : str) (current_rows target_rows : Z)
         (s s' : State W) (e : Expander.loop_exit),
    current_rows < target_rows ->
    let rows_to_add := Z.max 0 (target_rows - current_rows) in
    Expander.expansion_loop (Z.to_nat rows_to_add) sample_df analysis
                            output_file rows_to_add 0 s = (e, s') ->
    (exists sizes,
        initial sizes (batches rows_to_add)
        /\ chat_requests (log s')
           = chat_requests (log s)
             ++ map (Expander.expansion_request sample_df analysis
                       Expander.expander_prompt) sizes
        /\ e <> Expander.OutOfFuel
        /\ (forall n, e = Expander.Complete n ->
              sizes = batches rows_to_add /\ n = total sizes
              /\ n = rows_to_add))
    /\ Forall (fun size => 1 <= size <= 50) (batches rows_to_add)
    /\ batches (Z.max 0 (120 - 10)) = [50; 50; 10].
Proof.
  intros W host sample_df analysis output_file current_rows target_rows
         s s' e Hlt rows_to_add Hrun.
  split; [|split; [apply batch_plan_bounds | reflexivity]].
  apply expansion_loop_plan in Hrun; [|lia].
  rewrite Z.sub_0_r in Hrun.
  destruct Hrun as (sizes & Hini & Hreq & Hfuel & Hdone).
  exists sizes. split; [exact Hini|]. split; [exact Hreq|]. split; [exact Hfuel|].
  intros n Hn. destruct (Hdone n Hn) as [Hs Ht]. split; [exact Hs|].
  split; [lia|]. rewrite Ht, Hs. simpl.
  unfold batches. apply batch_plan_total; subst rows_to_add; lia.
Qed.

(** The loop on the scripted host, for ten rows and a target of 120. *)
Lemma expansion_loop_batches_witness :
  fst Samples.loop_run = Expander.Complete 110
  /\ chat_requests (log (snd Samples.loop_run))
     = map (Expander.expansion_request Samples.sample_df "two integer columns"
              Expander.expander_prompt) [50; 50; 10].
Proof.
  assert (Hrun : Samples.loop_run = (fst Samples.loop_run, snd Samples.loop_run))
    by (destruct Samples.loop_run; reflexivity).
  destruct (expansion_loop_batches Scripted.host Samples.sample_df
              "two integer columns" "expanded_data.csv" (current_rows := 10)
              (target_rows := 120) Samples.loop_start eq_refl Hrun)
    as [(sizes & _ & Hreq & _ & Hdone) _].
  assert (Hexit : fst Samples.loop_run = Expander.Complete 110)
    by (vm_compute; reflexivity).
  split; [exact Hexit|].
  destruct (Hdone 110 Hexit) as [Hsizes _].
  rewrite Hreq, Hsizes. reflexivity.
Defined.

(** ** White space and [strip] *)

Lemma lstrip_nil_iff s : PyStr.lstrip s = [] <-> blank s.
Proof.
  unfold blank. induction s as [|c s IH]; simpl.
  - split; [constructor | reflexivity].
  - destruct (PyStr.isspace c) eqn:Hc.
    + rewrite IH. split; intros H.
      * constructor; assumption.
      * inversion H; assumption.
    + split; [discriminate|]. intros H.
      apply Forall_inv in H. simpl in H. congruence.
Qed.

Lemma lstrip_blank_or_head s :
  PyStr.lstrip s = [] \/ exists c t, PyStr.lstrip s = c :: t /\ PyStr.isspace c = false.
Proof.
  induction s as [|c s IH]; simpl; [left; reflexivity|].
  destruct (PyStr.isspace c) eqn:Hc; [exact IH|].
  right. exists c, s. split; [reflexivity | exact Hc].
Qed.

Lemma blank_rev s : blank (rev s) <-> blank s.
Proof.
  unfold blank. rewrite !Forall_forall. split; intros H c Hc; apply H.
  - apply in_rev in Hc. exact Hc.
  - apply in_rev. exact Hc.
Qed.

Lemma strip_nil_iff s : PyStr.strip s = [] <-> blank s.
Proof.
  unfold PyStr.strip, PyStr.rstrip. split; intros H.
  - assert (Hl : PyStr.lstrip (rev (PyStr.lstrip s)) = []).
    { destruct (PyStr.lstrip (rev (PyStr.lstrip s))) as [|c l]; [reflexivity|].
      simpl in H. destruct (rev l); discriminate. }
    apply lstrip_nil_iff in Hl. apply (proj1 (blank_rev _)) in Hl.
    destruct (lstrip_blank_or_head s) as [Hn | (c & t & Hs & Hc)].
    + apply lstrip_nil_iff. exact Hn.
    + rewrite Hs in Hl. apply Forall_inv in Hl. simpl in Hl. congruence.
  - apply lstrip_nil_iff in H. rewrite H. reflexivity.
Qed.

Lemma truthy_strip_false_iff s :
  Install.truthy (PyStr.strip s) = false <-> blank s.
Proof.
  rewrite <- strip_nil_iff. destruct (PyStr.strip s); simpl; split;
    congruence.
Qed.

Lemma startswith_hash_iff line :
  PyStr.startswith "#" line = true <-> comment line.
Proof.
  unfold comment. destruct line as [|c rest]; simpl.
  - split; [discriminate | intros [r Hr]; discriminate].
  - rewrite andb_true_r. split.
    + intros H. apply Ascii.eqb_eq in H. subst. exists rest. reflexivity.
    + intros [r Hr]. injection Hr as -> _. apply Ascii.eqb_refl.
Qed.

Lemma requirement_lines_cons line f :
  Install.requirement_lines (line :: f)
  = if (Install.truthy (PyStr.strip line)
        && negb (PyStr.startswith "#" line))%bool
    then PyStr.strip line :: Install.requirement_lines f
    else Install.requirement_lines f.
Proof. reflexivity. Qed.

Lemma requirement_lines_app l1 l2 :
  Install.requirement_lines (l1 ++ l2)
  = Install.requirement_lines l1 ++ Install.requirement_lines l2.
Proof.
  induction l1 as [|line l1 IH]; [reflexivity|].
  rewrite <- app_comm_cons, !requirement_lines_cons.
  destruct (_ && _)%bool; simpl; rewrite IH; reflexivity.
Qed.

(** C9. [read_requirements] on a manifest that can be read: wherever a line
    stands in the file, it contributes nothing to the result when it is
    blank or begins with [#], and otherwise exactly its stripped text, between
    what the lines before it and the lines after it contribute.  The state
    is left as it was. *)
Theorem read_requirements_lines :
  forall (W : Type) (host : Host W) (file_path content : str) (s : State W)
         (before after : list str) (line : str),
    files s file_path = Some content ->
    PyStr.text_lines content = before ++ line :: after ->
    snd (Install.read_requirements file_path s) = s
    /\ (blank line \/ comment line ->
        fst (Install.read_requirements file_path s)
        = Install.requirement_lines before ++ Install.requirement_lines after)
    /\ (~ blank line -> ~ comment line ->
        fst (Install.read_requirements file_path s)
        = Install.requirement_lines before ++ PyStr.strip line
            :: Install.requirement_lines after).
Proof.
  intros W host file_path content s before after line Hfile Hlines.
  unfold Install.read_requirements, read_file, bind, ret. rewrite Hfile.
  cbn [fst snd]. rewrite Hlines, requirement_lines_app, requirement_lines_cons.
  split; [reflexivity|]. split.
  - intros [Hb | Hc].
    + apply truthy_strip_false_iff in Hb. rewrite Hb. reflexivity.
    + apply startswith_hash_iff in Hc. rewrite Hc, andb_false_r. reflexivity.
  - intros Hb Hc.
    destruct (Install.truthy (PyStr.strip line)) eqn:Ht.
    + destruct (PyStr.startswith "#" line) eqn:Hs.
      * apply startswith_hash_iff in Hs. contradiction.
      * reflexivity.
    + apply truthy_strip_false_iff in Ht. contradiction.
Qed.

(** ** Equality of strings *)

Lemma eqb_eq a b : PyStr.eqb a b = true <-> a = b.
Proof.
  revert b. induction a as [|x a IH]; intros [|y b]; simpl;
    try (split; [discriminate | discriminate]); try (split; reflexivity).
  rewrite andb_true_iff, Ascii.eqb_eq, IH. split.
  - intros [-> ->]. reflexivity.
  - intros H. injection H as -> ->. split; reflexivity.
Qed.

Lemma eqb_neq a b : PyStr.eqb a b = false <-> a <> b.
Proof.
  rewrite <- eqb_eq. destruct (PyStr.eqb a b); split; congruence.
Qed.

Lemma eqb_refl a : PyStr.eqb a a = true.
Proof. apply eqb_eq. reflexivity. Qed.

(** ** The self-check gate *)

Section SelfCheck.
Context {W : Type} {host : Host W}.

Let current_hash : str := Install.calculate_file_hash script_source.

(** C4. The gate has three cases, by the digest [load_script_hash] finds.
    None stored (no file, or an empty one): the run is accepted, the current
    digest is written, nobody is asked.  The stored digest is the current one:
    the run is accepted and the state is unchanged.  Another digest is
    stored: the warning is printed and the user is asked once; on [y] (in
    either case) the current digest is written and the run is accepted;
    on any other answer the digest file is left alone, [self_check] is
    false, and [main] prints one line and returns, having run no command
    and tried no import. *)
Theorem self_check_gate :
  forall (s : State W),
    let saved_hash := fst (Install.load_script_hash s) in
    let answer := fst (stdin_line (world s)) in
    let w := snd (stdin_line (world s)) in
    let asked := log s ++ [Print modified_line; Input continue_prompt answer] in
    (files s Install.HASH_FILE = None -> saved_hash = [])
    /\ (saved_hash = [] ->
        Install.self_check s
        = (true, mkState (world s)
                   (store (files s) Install.HASH_FILE current_hash)
                   (log s ++ [Print first_run_line])))
    /\ (saved_hash <> [] -> saved_hash = current_hash ->
        Install.self_check s = (true, s))
    /\ (saved_hash <> [] -> saved_hash <> current_hash ->
        PyStr.lower answer = "y" ->
        Install.self_check s
        = (true, mkState w (store (files s) Install.HASH_FILE current_hash) asked))
    /\ (saved_hash <> [] -> saved_hash <> current_hash ->
        PyStr.lower answer <> "y" ->
        Install.self_check s = (false, mkState w (files s) asked)
        /\ Install.main s
           = (Returns tt, mkState w (files s)
                            (asked ++ [Print "Exiting for security reasons."]))).
Proof.
  intros s saved_hash answer w asked.
  assert (Hload : Install.load_script_hash s = (saved_hash, s)).
  { subst saved_hash. unfold Install.load_script_hash, read_file, bind, ret.
    destruct (files s Install.HASH_FILE); reflexivity. }
  assert (Hin : stdin_line (world s) = (answer, w))
    by (subst answer w; destruct (stdin_line (world s)); reflexivity).
  split.
  { intros Hnone. subst saved_hash.
    unfold Install.load_script_hash, read_file, bind, ret. rewrite Hnone.
    reflexivity. }
  split.
  { intros Hnil. unfold Install.self_check, bind. rewrite Hload, Hnil. reflexivity. }
  split.
  { intros Hne Heq. unfold Install.self_check, bind. rewrite Hload.
    destruct saved_hash as [|c t]; [congruence|]. cbn [Install.truthy negb].
    fold current_hash. rewrite <- Heq, eqb_refl. cbn [negb].
    destruct s; reflexivity. }
  assert (Hself : saved_hash <> [] -> saved_hash <> current_hash ->
            Install.self_check s
            = if PyStr.eqb (PyStr.lower answer) "y"
              then (true, mkState w (store (files s) Install.HASH_FILE current_hash)
                            asked)
              else (false, mkState w (files s) asked)).
  { intros Hne Hneq. unfold Install.self_check, bind. rewrite Hload.
    destruct saved_hash as [|c t]; [congruence|]. cbn [Install.truthy negb].
    fold current_hash.
    assert (Hb : PyStr.eqb current_hash (c :: t) = false)
      by (apply eqb_neq; congruence).
    rewrite Hb. cbn [negb]. unfold print, emit, input, ret. cbn [world files log].
    rewrite Hin. subst asked. rewrite <- app_assoc.
    destruct (PyStr.eqb (PyStr.lower answer) "y"); reflexivity. }
  split.
  { intros Hne Hneq Hy. rewrite (Hself Hne Hneq).
    apply eqb_eq in Hy. rewrite Hy. reflexivity. }
  intros Hne Hneq Hy. apply eqb_neq in Hy.
  assert (Hs : Install.self_check s = (false, mkState w (files s) asked))
    by (rewrite (Hself Hne Hneq), Hy; reflexivity).
  split; [exact Hs|].
  unfold Install.main, bind. rewrite Hs. reflexivity.
Qed.

End SelfCheck.

(** ** The installer's loop, one requirement at a time *)

Lemma logged_logged {W : Type} (l1 l2 : list event) (s : State W) :
  logged l2 (logged l1 s) = logged (l1 ++ l2) s.
Proof. unfold logged. simpl. rewrite <- app_assoc. reflexivity. Qed.

Section InstallLoopSteps.
Context {W : Type} {host : Host W}.

Lemma print_logged (line : str) (s : State W) :
  print line s = (tt, logged [Print line] s).
Proof. reflexivity. Qed.

Lemma input_logged (prompt : str) (s : State W) :
  input prompt s
  = (fst (stdin_line (world s)),
     mkState (snd (stdin_line (world s))) (files s)
             (log s ++ [Input prompt (fst (stdin_line (world s)))])).
Proof. unfold input. destruct (stdin_line (world s)); reflexivity. Qed.

Lemma install_loop_invalid package rest installed (s : State W) :
  Install.validate_package_name package = false ->
  Install.install_loop (package :: rest) installed s
  = Install.install_loop rest installed
      (logged [Print ("Invalid package name: " ++ package ++ ". Skipping.")] s).
Proof.
  intros Hv. cbn [Install.install_loop]. rewrite Hv. reflexivity.
Qed.

Lemma install_loop_verified package rest installed (s s1 s2 : State W) output :
  Install.validate_package_name package = true ->
  Install.install_package package s = ((true, output), s1) ->
  Install.verify_installation package
    (logged [Print ("Successfully installed " ++ package)] s1)
  = (Returns true, s2) ->
  Install.install_loop (package :: rest) installed s
  = Install.install_loop rest (installed ++ [package])
      (logged [Print ("Verified installation of " ++ package)] s2).
Proof.
  intros Hv Hi Hvf. cbn [Install.install_loop]. rewrite Hv. cbn [negb].
  unfold bind at 1. rewrite Hi. unfold bind at 1. rewrite print_logged.
  unfold bind at 1. rewrite Hvf. reflexivity.
Qed.

Lemma install_loop_unverified package rest installed (s s1 s2 : State W) output :
  Install.validate_package_name package = true ->
  Install.install_package package s = ((true, output), s1) ->
  Install.verify_installation package
    (logged [Print ("Successfully installed " ++ package)] s1)
  = (Returns false, s2) ->
  Install.install_loop (package :: rest) installed s
  = Install.install_loop rest installed (logged (unverified_lines package) s2).
Proof.
  intros Hv Hi Hvf. cbn [Install.install_loop]. rewrite Hv. cbn [negb].
  unfold bind at 1. rewrite Hi. unfold bind at 1. rewrite print_logged.
  unfold bind at 1. rewrite Hvf. unfold bind. rewrite !print_logged.
  rewrite logged_logged. reflexivity.
Qed.

Lemma install_loop_raised package rest installed (s s1 s2 : State W) output e :
  Install.validate_package_name package = true ->
  Install.install_package package s = ((true, output), s1) ->
  Install.verify_installation package
    (logged [Print ("Successfully installed " ++ package)] s1)
  = (Raises e, s2) ->
  Install.install_loop (package :: rest) installed s
  = ((Install.Raised e, installed), s2).
Proof.
  intros Hv Hi Hvf. cbn [Install.install_loop]. rewrite Hv. cbn [negb].
  unfold bind at 1. rewrite Hi. unfold bind at 1. rewrite print_logged.
  unfold bind at 1. rewrite Hvf. reflexivity.
Qed.

Lemma install_loop_failed package rest installed (s s1 : State W) output :
  Install.validate_package_name package = true ->
  Install.install_package package s = ((false, output), s1) ->
  let told := logged [Print ("Failed to install " ++ package);
                      Print ("Error: " ++ output)] s1 in
  let answer := fst (stdin_line (world s1)) in
  let asked := mkState (snd (stdin_line (world s1))) (files s1)
                       (log told ++ [Input rollback_prompt answer]) in
  Install.install_loop (package :: rest) installed s
  = if PyStr.eqb (PyStr.lower answer) "y"
    then ((Install.Returned, installed),
          logged [Print "Rolled back installations."]
                 (snd (Install.uninstall_all installed asked)))
    else Install.install_loop rest installed asked.
Proof.
  intros Hv Hi told answer asked. cbn [Install.install_loop]. rewrite Hv.
  cbn [negb]. unfold bind at 1. rewrite Hi. unfold bind at 1.
  rewrite print_logged. unfold bind at 1. rewrite print_logged.
  rewrite logged_logged. cbn [app]. unfold bind at 1. rewrite input_logged.
  subst asked told. unfold logged. cbn [world files log]. fold answer.
  unfold rollback_prompt.
  destruct (PyStr.eqb (PyStr.lower answer) "y"); [|reflexivity].
  unfold bind.
  match goal with
  | |- context [Install.uninstall_all installed ?st] =>
      destruct (Install.uninstall_all installed st) as [[] s3]
  end.
  reflexivity.
Qed.

End InstallLoopSteps.

(** ** Verification failures and rollback *)

Section Rollback.
Context {W : Type} {host : Host W}.

Lemma uninstall_package_log package (s : State W) :
  exists code line,
    Install.uninstall_package package s
    = (tt, mkState (snd (subprocess_run (uninstall_command package) (world s)))
                   (files s)
                   (log s ++ [Run (uninstall_command package) code; Print line]))
    /\ uninstall_line package line.
Proof.
  unfold Install.uninstall_package, run, bind. fold (uninstall_command package).
  destruct (subprocess_run (uninstall_command package) (world s)) as [p w].
  cbn [snd]. exists (returncode p).
  destruct (returncode p =? 0); rewrite print_logged; unfold logged;
    cbn [world files log]; rewrite <- app_assoc; eexists; (split; [reflexivity|]).
  - left. reflexivity.
  - right. eexists. reflexivity.
Qed.

(** Every package of the list gets its uninstall command, in order, each
    followed by the line for its outcome; a failure does not stop the
    iteration.  Nothing else happens. *)
Lemma uninstall_all_log installed :
  forall (s : State W),
    exists L,
      log (snd (Install.uninstall_all installed s)) = log s ++ L
      /\ commands L = map uninstall_command installed
      /\ Forall2 uninstall_line installed (printed L)
      /\ files (snd (Install.uninstall_all installed s)) = files s
      /\ imports L = [] /\ prompts L = [].
Proof.
  induction installed as [|package rest IH]; intros s.
  - exists []. cbn. rewrite app_nil_r. repeat split. constructor.
  - cbn [Install.uninstall_all]. unfold bind.
    destruct (uninstall_package_log package s) as (code & line & Hrun & Hline).
    rewrite Hrun.
    match goal with
    | |- context [Install.uninstall_all rest ?st] =>
        destruct (IH st) as (L & Hlog & Hc & Hl & Hf & Hi & Hq)
    end.
    exists (Run (uninstall_command package) code :: Print line :: L).
    cbn [log files] in *. rewrite Hlog, Hf, <- !app_assoc. cbn.
    rewrite Hc, Hi, Hq. repeat split. constructor; assumption.
Qed.


Lemma install_loop_installed_all packages verdicts (s s1 : State W) :
  installed_all packages verdicts s s1 ->
  forall rest installed,
    Install.install_loop (packages ++ rest) installed s
    = Install.install_loop rest (installed ++ verified_of packages verdicts) s1.
Proof.
  induction 1 as [s | package packages verdict verdicts s output s1 s2 s3
                      Hv Hi Hvf Hrest IH]; intros rest installed.
  - cbn. rewrite app_nil_r. reflexivity.
  - rewrite <- app_comm_cons. destruct verdict.
    + erewrite install_loop_verified by eassumption. rewrite IH.
      cbn [verified_of]. rewrite <- app_assoc. reflexivity.
    + erewrite install_loop_unverified by eassumption. rewrite IH. reflexivity.
Qed.

Lemma verified_of_all packages verdicts :
  List.length verdicts = List.length packages ->
  Forall (eq true) verdicts -> verified_of packages verdicts = packages.
Proof.
  revert verdicts. induction packages as [|p ps IH]; intros [|v vs] Hlen Hall;
    try discriminate; [reflexivity|].
  apply Forall_cons_iff in Hall. destruct Hall as [<- Hall]. cbn.
  f_equal. apply IH; [injection Hlen as Hlen; exact Hlen | exact Hall].
Qed.

Lemma installed_all_length packages verdicts (s s1 : State W) :
  installed_all packages verdicts s s1 ->
  List.length verdicts = List.length packages.
Proof. induction 1; cbn; congruence. Qed.


End Rollback.





(** ** The derivative matcher decides the language *)

Lemma lang_void_inv s : lang Re.Void s -> False.
Proof. intros H. inversion H. Qed.

Lemma lang_eps_inv s : lang Re.Eps s -> s = [].
Proof. intros H. inversion H. reflexivity. Qed.

Lemma lang_set_inv set s :
  lang (Re.Set_ set) s -> exists c, s = [c] /\ Re.in_set set c = true.
Proof. intros H. inversion H; subst. eexists. split; [reflexivity | assumption]. Qed.

Lemma lang_cat_inv r1 r2 s :
  lang (Re.Cat r1 r2) s -> exists s1 s2, s = s1 ++ s2 /\ lang r1 s1 /\ lang r2 s2.
Proof.
  intros H. inversion H; subst. eexists _, _.
  split; [reflexivity|]. split; assumption.
Qed.

Lemma lang_alt_inv r1 r2 s : lang (Re.Alt r1 r2) s -> lang r1 s \/ lang r2 s.
Proof. intros H. inversion H; subst; [left | right]; assumption. Qed.

Lemma nullable_lang r : Re.nullable r = true <-> lang r [].
Proof.
  induction r as [| |set|r1 IH1 r2 IH2|r1 IH1 r2 IH2|r IH]; simpl.
  - split; [discriminate | intros H; destruct (lang_void_inv H)].
  - split; [constructor | reflexivity].
  - split; [discriminate|]. intros H.
    apply lang_set_inv in H. destruct H as (c & Hc & _). discriminate.
  - rewrite andb_true_iff, IH1, IH2. split.
    + intros [H1 H2]. apply (lang_cat H1 H2).
    + intros H. apply lang_cat_inv in H. destruct H as (s1 & s2 & Heq & H1 & H2).
      symmetry in Heq. apply app_eq_nil in Heq. destruct Heq; subst.
      split; assumption.
  - rewrite orb_true_iff, IH1, IH2. split.
    + intros [H|H]; [apply lang_alt_l | apply lang_alt_r]; exact H.
    + apply lang_alt_inv.
  - split; [constructor | reflexivity].
Qed.

Lemma lang_star_uncons r s :
  lang (Re.Star r) s ->
  forall c t, s = c :: t ->
    exists s1 s2, t = s1 ++ s2 /\ lang r (c :: s1) /\ lang (Re.Star r) s2.
Proof.
  intros H. remember (Re.Star r) as rs eqn:Hrs.
  induction H as [| | | | | |r' s1 s2 H1 _ H2 IH2]; try discriminate.
  injection Hrs as ->. intros c t Heq.
  destruct s1 as [|d s1].
  - simpl in Heq. apply (IH2 eq_refl c t Heq).
  - simpl in Heq. injection Heq as -> <-.
    exists s1, s2. repeat split; assumption.
Qed.

Lemma lang_cat_cons r1 r2 c s :
  lang (Re.Cat r1 r2) (c :: s) <->
  (exists s1 s2, s = s1 ++ s2 /\ lang r1 (c :: s1) /\ lang r2 s2)
  \/ (lang r1 [] /\ lang r2 (c :: s)).
Proof.
  split.
  - intros H. apply lang_cat_inv in H. destruct H as (s1 & s2 & Heq & H1 & H2).
    destruct s1 as [|d s1]; simpl in Heq.
    + right. subst. split; assumption.
    + injection Heq as -> ->. left. eexists _, _. repeat split; assumption.
  - intros [(s1 & s2 & -> & H1 & H2) | [H1 H2]].
    + apply (lang_cat H1 H2).
    + apply (lang_cat H1 H2).
Qed.

Lemma deriv_lang c r : forall s, lang (Re.deriv c r) s <-> lang r (c :: s).
Proof.
  induction r as [| |set|r1 IH1 r2 IH2|r1 IH1 r2 IH2|r IH]; intros s; simpl.
  - split; intros H; destruct (lang_void_inv H).
  - split; intros H; [destruct (lang_void_inv H)|].
    apply lang_eps_inv in H. discriminate.
  - destruct (Re.in_set set c) eqn:Hc; split; intros H.
    + apply lang_eps_inv in H. subst. constructor. exact Hc.
    + apply lang_set_inv in H. destruct H as (d & Heq & _).
      injection Heq as _ ->. constructor.
    + destruct (lang_void_inv H).
    + apply lang_set_inv in H. destruct H as (d & Heq & Hd).
      injection Heq as -> _. congruence.
  - assert (Hcat : lang (Re.Cat (Re.deriv c r1) r2) s <->
                   exists s1 s2, s = s1 ++ s2 /\ lang r1 (c :: s1) /\ lang r2 s2).
    { split.
      - intros H. apply lang_cat_inv in H.
        destruct H as (s1 & s2 & -> & H1 & H2). eexists _, _.
        split; [reflexivity|]. split; [apply IH1|]; assumption.
      - intros (s1 & s2 & -> & H1 & H2). constructor; [apply IH1|]; assumption. }
    rewrite lang_cat_cons. destruct (Re.nullable r1) eqn:Hn.
    + split.
      * intros H. apply lang_alt_inv in H. destruct H as [H|H].
        -- left. apply Hcat. assumption.
        -- right. split; [apply nullable_lang; exact Hn | apply IH2; assumption].
      * intros [H | [_ H2]].
        -- apply lang_alt_l, Hcat, H.
        -- apply lang_alt_r, IH2, H2.
    + rewrite Hcat. split; [intros H; left; exact H|].
      intros [H | [H1 _]]; [exact H|].
      apply nullable_lang in H1. congruence.
  - split; intros H.
    + apply lang_alt_inv in H.
      destruct H as [H|H]; [apply lang_alt_l, IH1 | apply lang_alt_r, IH2];
        assumption.
    + apply lang_alt_inv in H.
      destruct H as [H|H]; [apply lang_alt_l, IH1 | apply lang_alt_r, IH2];
        assumption.
  - split; intros H.
    + apply lang_cat_inv in H. destruct H as (s1 & s2 & -> & H1 & H2).
      apply IH in H1. apply (lang_star_cons H1 H2).
    + destruct (lang_star_uncons H eq_refl) as (s1 & s2 & -> & H1 & H2).
      constructor; [apply IH|]; assumption.
Qed.

Lemma fullmatch_lang s : forall r, Re.fullmatch r s = true <-> lang r s.
Proof.
  induction s as [|c s IH]; intros r; simpl.
  - apply nullable_lang.
  - rewrite IH. apply deriv_lang.
Qed.

(** ** The language of the package pattern *)

Lemma in_name_set c : Re.in_set Install.name_set c = name_char c.
Proof.
  unfold Re.in_set, Install.name_set, name_char. simpl.
  change (PyStr.code "a") with 97%nat. change (PyStr.code "z") with 122%nat.
  change (PyStr.code "A") with 65%nat. change (PyStr.code "Z") with 90%nat.
  change (PyStr.code "0") with 48%nat. change (PyStr.code "9") with 57%nat.
  destruct (PyStr.between 97 122 c), (PyStr.between 65 90 c),
    (PyStr.between 48 57 c), (Ascii.eqb c "_"), (Ascii.eqb c "."),
    (Ascii.eqb c "-"); reflexivity.
Qed.

Lemma in_operator_set c : Re.in_set Install.operator_set c = operator_char c.
Proof.
  unfold Re.in_set, Install.operator_set, operator_char. simpl.
  rewrite orb_false_r, !orb_assoc. reflexivity.
Qed.

Lemma lang_star_set set s :
  lang (Re.Star (Re.Set_ set)) s <-> Forall (fun c => Re.in_set set c = true) s.
Proof.
  split.
  - intros H. remember (Re.Star (Re.Set_ set)) as r eqn:Hr.
    induction H as [| | | | | |r' s1 s2 H1 _ H2 IH2]; try discriminate.
    + constructor.
    + injection Hr as ->. apply lang_set_inv in H1.
      destruct H1 as (c & -> & Hc). constructor; [exact Hc | apply IH2; reflexivity].
  - induction 1 as [|c s Hc _ IH].
    + constructor.
    + apply (lang_star_cons (s1 := [c]) (lang_set set c Hc) IH).
Qed.

Lemma lang_plus_set set s :
  lang (Re.Plus (Re.Set_ set)) s <->
  s <> [] /\ Forall (fun c => Re.in_set set c = true) s.
Proof.
  unfold Re.Plus. split.
  - intros H. apply lang_cat_inv in H. destruct H as (s1 & s2 & -> & H1 & H2).
    apply lang_set_inv in H1. destruct H1 as (c & -> & Hc).
    apply lang_star_set in H2. split; [discriminate|].
    constructor; assumption.
  - intros [Hne Hall]. destruct s as [|c s]; [congruence|].
    apply Forall_cons_iff in Hall. destruct Hall as [Hc Hall].
    apply (lang_cat (s1 := [c]) (lang_set set c Hc)), lang_star_set, Hall.
Qed.

Lemma lang_opt r s : lang (Re.Opt r) s <-> lang r s \/ s = [].
Proof.
  unfold Re.Opt. split.
  - intros H. apply lang_alt_inv in H. destruct H as [H|H]; [left; exact H|].
    right. apply lang_eps_inv, H.
  - intros [H | ->]; [apply lang_alt_l, H | apply lang_alt_r; constructor].
Qed.

Lemma lang_word s : lang (Re.Plus (Re.Set_ Install.name_set)) s <-> word s.
Proof.
  rewrite lang_plus_set. unfold word.
  assert (Heq : Forall (fun c => Re.in_set Install.name_set c = true) s
                <-> Forall (fun c => name_char c = true) s).
  { split; apply Forall_impl; intros c; rewrite in_name_set; trivial. }
  rewrite Heq. reflexivity.
Qed.

Lemma lang_package_pattern s :
  lang Install.package_pattern s <-> requirement_with pattern_operator s.
Proof.
  unfold Install.package_pattern, requirement_with. split.
  - intros H. apply lang_cat_inv in H. destruct H as (name & t & -> & Hn & Ht).
    apply lang_word in Hn. apply lang_opt in Ht. destruct Ht as [Ht | ->].
    + right. apply lang_cat_inv in Ht. destruct Ht as (o & t' & -> & Ho & Ht).
      apply lang_set_inv in Ho. destruct Ho as (c & -> & Hc).
      rewrite in_operator_set in Hc.
      apply lang_cat_inv in Ht. destruct Ht as (e & version & -> & He & Hver).
      apply lang_word in Hver. apply lang_opt in He. destruct He as [He | ->].
      * apply lang_set_inv in He. destruct He as (d & -> & Hd).
        simpl in Hd. rewrite orb_false_r in Hd. apply Ascii.eqb_eq in Hd. subst d.
        exists name, [c; "="%char], version. repeat split; try apply Hn; try apply Hver.
        exists c. split; [exact Hc | right; reflexivity].
      * exists name, [c], version. repeat split; try apply Hn; try apply Hver.
        exists c. split; [exact Hc | left; reflexivity].
    + left. rewrite app_nil_r. exact Hn.
  - intros [Hw | (name & op & version & -> & Hn & (c & Hc & Hop) & Hver)].
    + rewrite <- (app_nil_r s). apply lang_cat; [apply lang_word, Hw|].
      apply lang_opt. right. reflexivity.
    + apply lang_cat; [apply lang_word, Hn|]. apply lang_opt. left.
      assert (Hset : lang (Re.Set_ Install.operator_set) [c])
        by (constructor; rewrite in_operator_set; exact Hc).
      destruct Hop as [-> | ->].
      * apply (lang_cat (s1 := [c]) Hset).
        apply (lang_cat (s1 := [])); [apply lang_opt; right; reflexivity|].
        apply lang_word, Hver.
      * change ([c; "="%char] ++ version) with ([c] ++ ["="%char] ++ version).
        apply (lang_cat Hset). apply lang_cat; [|apply lang_word, Hver].
        apply lang_opt. left. constructor. reflexivity.
Qed.

(** What [validate_package_name] accepts: the requirements of the pattern,
    and those followed by one line feed. *)
Lemma validate_package_name_iff s :
  Install.validate_package_name s = true <->
  requirement_with pattern_operator s
  \/ exists g, s = g ++ [PyStr.LF] /\ requirement_with pattern_operator g.
Proof.
  unfold Install.validate_package_name, Re.match_bol_eol.
  rewrite orb_true_iff, fullmatch_lang, lang_package_pattern.
  apply or_iff_compat_l.
  destruct (rev s) as [|c p] eqn:Hrev.
  - split; [discriminate|]. intros (g & -> & _).
    rewrite rev_app_distr in Hrev. discriminate.
  - assert (Hs : s = rev p ++ [c]).
    { rewrite <- (rev_involutive s), Hrev. reflexivity. }
    rewrite andb_true_iff, Ascii.eqb_eq, fullmatch_lang, lang_package_pattern.
    split.
    + intros [-> Hg]. exists (rev p). split; assumption.
    + intros (g & Heq & Hg). rewrite Hs in Heq.
      apply app_inj_tail in Heq. destruct Heq as [-> ->]. split; [reflexivity | exact Hg].
Qed.

(** ** Validation *)

Lemma comparison_pattern_operator op : comparison op -> pattern_operator op.
Proof.
  unfold comparison, pattern_operator. simpl.
  intros [<- | [<- | [<- | [<- | [<- | [<- | []]]]]]].
  - exists "<"%char. split; [reflexivity | left; reflexivity].
  - exists ">"%char. split; [reflexivity | left; reflexivity].
  - exists "<"%char. split; [reflexivity | right; reflexivity].
  - exists ">"%char. split; [reflexivity | right; reflexivity].
  - exists "="%char. split; [reflexivity | right; reflexivity].
  - exists "!"%char. split; [reflexivity | right; reflexivity].
Qed.

Lemma word_grammar_chars s :
  word s -> Forall (fun c => grammar_char c = true) s.
Proof.
  intros [_ H]. eapply Forall_impl; [|exact H].
  intros c Hc. unfold grammar_char. rewrite Hc. reflexivity.
Qed.

Lemma requirement_grammar_chars s :
  requirement_with pattern_operator s -> Forall (fun c => grammar_char c = true) s.
Proof.
  intros [Hw | (name & op & version & -> & Hn & (c & Hc & Hop) & Hver)].
  - apply word_grammar_chars, Hw.
  - apply Forall_app. split; [apply word_grammar_chars, Hn|].
    apply Forall_app. split; [|apply word_grammar_chars, Hver].
    assert (Hg : grammar_char c = true)
      by (unfold grammar_char; rewrite Hc; apply orb_true_r).
    destruct Hop as [-> | ->]; repeat constructor; exact Hg.
Qed.

(** A string with a character outside the grammar is rejected, unless the
    character is a line feed at the very end. *)
Lemma validate_rejects (before after : str) (c : ascii) :
  grammar_char c = false ->
  after <> [] \/ c <> PyStr.LF ->
  Install.validate_package_name (before ++ c :: after) = false.
Proof.
  intros Hc Hpos.
  destruct (Install.validate_package_name (before ++ c :: after)) eqn:Hv;
    [|reflexivity].
  exfalso. apply validate_package_name_iff in Hv.
  assert (Hbad : forall s, Forall (fun c => grammar_char c = true) s ->
                           In c s -> False).
  { intros s Hall Hin. rewrite Forall_forall in Hall.
    specialize (Hall c Hin). congruence. }
  destruct Hv as [Hg | (g & Heq & Hg)].
  - apply (Hbad _ (requirement_grammar_chars Hg)).
    apply in_elt.
  - apply requirement_grammar_chars in Hg.
    destruct (rev after) as [|d p] eqn:Hrev.
    + assert (after = []) by (rewrite <- (rev_involutive after), Hrev; reflexivity).
      subst after. apply app_inj_tail in Heq. destruct Heq as [_ ->].
      destruct Hpos as [H | H]; congruence.
    + assert (Hafter : after = rev p ++ [d])
        by (rewrite <- (rev_involutive after), Hrev; reflexivity).
      rewrite Hafter in Heq.
      change (before ++ c :: rev p ++ [d]) with (before ++ (c :: rev p) ++ [d]) in Heq.
      rewrite app_assoc in Heq. apply app_inj_tail in Heq. destruct Heq as [<- _].
      apply (Hbad _ Hg). apply in_elt.
Qed.

(** ** Splitting at the double equals sign *)

Lemma name_char_not_equals c : name_char c = true -> c <> "="%char.
Proof. intros H ->. discriminate H. Qed.

Lemma word_no_equals s : word s -> no_equals s.
Proof.
  intros [_ H]. eapply Forall_impl; [|exact H]. apply name_char_not_equals.
Qed.

Lemma startswith_equals_cons c s :
  c <> "="%char -> PyStr.startswith "==" (c :: s) = false.
Proof.
  intros Hc. simpl. destruct (Ascii.eqb "=" c) eqn:He; [|reflexivity].
  apply Ascii.eqb_eq in He. congruence.
Qed.

Lemma split_scan_absent sep s :
  forall cur, PyStr.contains sep s = false ->
              PyStr.split_scan sep cur 0 s = [rev cur ++ s].
Proof.
  induction s as [|c s IH]; intros cur Hc.
  - simpl. rewrite app_nil_r. reflexivity.
  - cbn [PyStr.contains] in Hc. apply orb_false_iff in Hc. destruct Hc as [Hs Hc].
    cbn [PyStr.split_scan]. rewrite Hs, (IH _ Hc). simpl.
    rewrite <- app_assoc. reflexivity.
Qed.

Lemma split_absent sep s :
  PyStr.contains sep s = false -> PyStr.split sep s = [s].
Proof. intros H. unfold PyStr.split. rewrite (split_scan_absent sep s [] H). reflexivity. Qed.

Lemma split_scan_first name rest :
  no_equals name ->
  forall cur,
    PyStr.first (PyStr.split_scan "==" cur 0 (name ++ "==" ++ rest))
    = rev cur ++ name.
Proof.
  induction 1 as [|c name Hc _ IH]; intros cur.
  - simpl. rewrite app_nil_r. reflexivity.
  - rewrite <- app_comm_cons. cbn [PyStr.split_scan].
    rewrite (startswith_equals_cons _ Hc), IH. simpl.
    rewrite <- app_assoc. reflexivity.
Qed.

Lemma package_name_stripped name rest :
  no_equals name -> package_name_of (name ++ "==" ++ rest) = name.
Proof. intros H. unfold package_name_of, PyStr.split. apply (split_scan_first rest H). Qed.

Lemma package_name_whole s :
  PyStr.contains "==" s = false -> package_name_of s = s.
Proof. intros H. unfold package_name_of. rewrite (split_absent _ _ H). reflexivity. Qed.

Lemma contains_equals_cons c s :
  c <> "="%char -> PyStr.contains "==" (c :: s) = PyStr.contains "==" s.
Proof.
  intros Hc. cbn [PyStr.contains]. rewrite (startswith_equals_cons _ Hc).
  reflexivity.
Qed.

Lemma contains_equals_app s t :
  no_equals s -> PyStr.contains "==" (s ++ t) = PyStr.contains "==" t.
Proof.
  induction 1 as [|c s Hc _ IH]; [reflexivity|].
  rewrite <- app_comm_cons, (contains_equals_cons _ Hc). exact IH.
Qed.

Lemma contains_equals_none s : no_equals s -> PyStr.contains "==" s = false.
Proof.
  intros H. rewrite <- (app_nil_r s), (contains_equals_app _ H). reflexivity.
Qed.

(** One equals sign before a string that does not begin with another. *)
Lemma contains_single_equals s :
  s <> [] -> no_equals s -> PyStr.contains "==" ("="%char :: s) = false.
Proof.
  intros Hne Hs. destruct s as [|d s]; [congruence|].
  cbn [PyStr.contains]. apply orb_false_iff. split.
  - apply Forall_inv in Hs. simpl.
    destruct (Ascii.eqb "=" d) eqn:He; [|reflexivity].
    apply Ascii.eqb_eq in He. congruence.
  - apply (contains_equals_none Hs).
Qed.

(** A name, an operator and a version, with or without characters after
    them that are no equals signs: either the operator is the double equals
    sign, or the double equals sign does not occur at all. *)
Lemma operator_equals name op version tail :
  word name -> pattern_operator op -> word version -> no_equals tail ->
  op = "==" \/ PyStr.contains "==" (name ++ op ++ version ++ tail) = false.
Proof.
  intros Hn (c & Hc & Hop) Hver Htail.
  assert (Hrest : no_equals (version ++ tail))
    by (apply Forall_app; split; [apply word_no_equals, Hver | exact Htail]).
  assert (Hne : version ++ tail <> [])
    by (destruct Hver as [Hv _]; destruct version; [congruence | discriminate]).
  rewrite (contains_equals_app _ (word_no_equals Hn)).
  destruct (Ascii.eqb c "=") eqn:He.
  - apply Ascii.eqb_eq in He. subst c. destruct Hop as [-> | ->].
    + right. apply (contains_single_equals Hne Hrest).
    + left. reflexivity.
  - assert (Hcne : c <> "="%char)
      by (intros ->; rewrite Ascii.eqb_refl in He; discriminate).
    right. destruct Hop as [-> | ->]; cbn [app]; rewrite (contains_equals_cons _ Hcne).
    + apply (contains_equals_none Hrest).
    + apply (contains_single_equals Hne Hrest).
Qed.

Lemma requirement_equals g tail :
  requirement_with pattern_operator g -> no_equals tail ->
  (exists name version,
      g = name ++ "==" ++ version /\ word name /\ word version)
  \/ PyStr.contains "==" (g ++ tail) = false.
Proof.
  intros [Hw | (name & op & version & -> & Hn & Hop & Hver)] Htail.
  - right. apply contains_equals_none, Forall_app.
    split; [apply word_no_equals, Hw | exact Htail].
  - destruct (operator_equals Hn Hop Hver Htail) as [-> | Hc].
    + left. exists name, version. repeat split; try apply Hn; try apply Hver.
    + right. rewrite <- !app_assoc. exact Hc.
Qed.

Lemma word_requirement s : word s -> requirement_with pattern_operator s.
Proof. intros H. left. exact H. Qed.

(** The name [verify_installation] takes from a requirement that passed
    validation passes validation too. *)
Lemma package_name_valid package :
  Install.validate_package_name package = true ->
  Install.validate_package_name (package_name_of package) = true.
Proof.
  intros Hv. pose proof Hv as Hv'. apply validate_package_name_iff in Hv'.
  assert (Hlf : no_equals [PyStr.LF])
    by (constructor; [discriminate | constructor]).
  destruct Hv' as [Hg | (g & -> & Hg)].
  - destruct (requirement_equals Hg (Forall_nil _))
      as [(name & version & -> & Hn & _) | Hc].
    + rewrite (package_name_stripped _ (word_no_equals Hn)).
      apply validate_package_name_iff. left. apply word_requirement, Hn.
    + rewrite app_nil_r in Hc. rewrite (package_name_whole _ Hc). exact Hv.
  - destruct (requirement_equals Hg Hlf)
      as [(name & version & -> & Hn & _) | Hc].
    + rewrite <- !app_assoc.
      rewrite (package_name_stripped _ (word_no_equals Hn)).
      apply validate_package_name_iff. left. apply word_requirement, Hn.
    + rewrite (package_name_whole _ Hc). exact Hv.
Qed.

(** ** What verification does *)

Lemma initial_refl {A : Type} (l : list A) : initial l l.
Proof. exists []. rewrite app_nil_r. reflexivity. Qed.

Lemma initial_nil {A : Type} (l : list A) : initial [] l.
Proof. exists l. reflexivity. Qed.

Lemma initial_cons {A : Type} (a : A) (l1 l2 : list A) :
  initial l1 l2 -> initial (a :: l1) (a :: l2).
Proof. intros [rest ->]. exists rest. reflexivity. Qed.

Section Verification.
Context {W : Type} {host : Host W}.

(** The loop over the variations only tries imports, in order, and stops at
    the first that works or that import_module refuses. *)
Lemma try_variations_log variations :
  forall (s : State W),
    exists L,
      log (snd (Install.try_variations variations s)) = log s ++ L
      /\ files (snd (Install.try_variations variations s)) = files s
      /\ initial (imports L) variations
      /\ (fst (Install.try_variations variations s) = Returns false ->
          imports L = variations)
      /\ commands L = [] /\ printed L = [] /\ prompts L = [].
Proof.
  induction variations as [|v vs IH]; intros s.
  - exists []. cbn. rewrite app_nil_r.
    repeat split; try reflexivity. apply initial_nil.
  - cbn [Install.try_variations]. unfold bind, try_import.
    destruct (refused v) as [e|].
    + exists [Refuse v e]. cbn.
      repeat split; try reflexivity; try discriminate.
      exists vs. reflexivity.
    + destruct (import_module v (world s)) as [found w].
      destruct found.
      * exists [Import v true]. cbn.
        repeat split; try reflexivity; try discriminate.
        exists vs. reflexivity.
      * match goal with
        | |- context [Install.try_variations vs ?st] =>
            destruct (IH st) as (L & Hlog & Hf & Hini & Hall & Hc & Hp & Hq)
        end.
        exists (Import v false :: L). cbn [log files] in *.
        rewrite Hlog, Hf, <- app_assoc. cbn.
        split; [reflexivity|]. split; [reflexivity|].
        split; [apply initial_cons, Hini|].
        split; [intros Hr; rewrite (Hall Hr); reflexivity|].
        repeat split; assumption.
Qed.

(** [verify_installation] tries imports among the name and its variations,
    in order; the first attempt is the name itself.  It runs the metadata
    query only after every import failed, and for the name.  It prints
    nothing, asks nothing and leaves the files alone.  This holds of every
    run, one that ends with an exception included. *)
Lemma verify_installation_log package :
  forall (s s' : State W) (r : result bool),
    Install.verify_installation package s = (r, s') ->
    let name := package_name_of package in
    exists L,
      log s' = log s ++ L
      /\ files s' = files s
      /\ initial (imports L) (name :: Install.variations_of name)
      /\ hd_error (imports L) = Some name
      /\ (commands L = []
          \/ commands L = [show_command name]
             /\ imports L = name :: Install.variations_of name)
      /\ printed L = [] /\ prompts L = [].
Proof.
  intros s s' r Hrun name. unfold Install.verify_installation in Hrun.
  fold (package_name_of package) in Hrun. fold name in Hrun.
  unfold bind at 1 in Hrun. unfold try_import at 1 in Hrun.
  destruct (refused name) as [e|].
  { injection Hrun as <- <-. exists [Refuse name e]. cbn.
    repeat split; try reflexivity; try (left; reflexivity).
    exists (Install.variations_of name). reflexivity. }
  destruct (import_module name (world s)) as [found w].
  destruct found.
  - injection Hrun as <- <-. exists [Import name true]. cbn.
    repeat split; try reflexivity; try (left; reflexivity).
    exists (Install.variations_of name). reflexivity.
  - unfold bind at 1 in Hrun.
    match type of Hrun with
    | context [Install.try_variations (Install.variations_of name) ?st] =>
        destruct (try_variations_log (Install.variations_of name) st)
          as (L & Hlog & Hf & Hini & Hall & Hc & Hp & Hq);
        destruct (Install.try_variations (Install.variations_of name) st)
          as [found s1]
    end.
    cbn [fst snd log files] in *. destruct found as [[|]|e].
    + injection Hrun as <- <-. exists (Import name false :: L).
      rewrite Hlog, Hf, <- app_assoc. cbn.
      split; [reflexivity|]. split; [reflexivity|].
      split; [apply initial_cons, Hini|]. split; [reflexivity|].
      split; [left; exact Hc|]. split; assumption.
    + unfold bind, run in Hrun. fold (show_command name) in Hrun.
      destruct (subprocess_run (show_command name) (world s1)) as [p w1].
      exists (Import name false :: L ++ [Run (show_command name) (returncode p)]).
      assert (Hs' : s' = mkState w1 (files s1)
                          (log s1 ++ [Run (show_command name) (returncode p)])).
      { destruct (returncode p =? 0); injection Hrun as _ <-; reflexivity. }
      rewrite Hs'. cbn [log files]. rewrite Hlog, Hf, <- !app_assoc. cbn.
      rewrite imports_app, commands_app, printed_app, prompts_app.
      cbn. rewrite ?app_nil_r, Hc, Hp, Hq, (Hall eq_refl).
      split; [reflexivity|]. split; [reflexivity|].
      split; [apply initial_refl|]. split; [reflexivity|].
      split; [right; split; reflexivity|]. split; reflexivity.
    + injection Hrun as <- <-. exists (Import name false :: L).
      rewrite Hlog, Hf, <- app_assoc. cbn.
      split; [reflexivity|]. split; [reflexivity|].
      split; [apply initial_cons, Hini|]. split; [reflexivity|].
      split; [left; exact Hc|]. split; assumption.
Qed.

End Verification.

(** ** Names without a hyphen *)

Lemma contains_hyphen s : ~ In "-"%char s -> PyStr.contains "-" s = false.
Proof.
  induction s as [|c s IH]; intros Hin; [reflexivity|].
  cbn [PyStr.contains]. apply orb_false_iff. split.
  - simpl. rewrite andb_true_r. destruct (Ascii.eqb "-" c) eqn:He; [|reflexivity].
    apply Ascii.eqb_eq in He. exfalso. apply Hin. left. symmetry. exact He.
  - apply IH. intros H. apply Hin. right. exact H.
Qed.

Lemma replace_scan_absent old new s :
  PyStr.contains old s = false -> PyStr.replace_scan old new 0 s = s.
Proof.
  induction s as [|c s IH]; intros Hc; [reflexivity|].
  cbn [PyStr.contains] in Hc. apply orb_false_iff in Hc. destruct Hc as [Hs Hc].
  cbn [PyStr.replace_scan]. rewrite Hs, (IH Hc). reflexivity.
Qed.

Lemma variations_no_hyphen name :
  ~ In "-"%char name -> Install.variations_of name = [name; name; name].
Proof.
  intros H. apply contains_hyphen in H. unfold Install.variations_of.
  unfold PyStr.replace. rewrite (replace_scan_absent _ _ _ H).
  rewrite (split_absent _ _ H). reflexivity.
Qed.

(** C10, as the code has it.  For a requirement of a name, an operator and
    a version: when the operator is the double equals sign the name alone is
    verified; with any other operator the whole requirement, operator and
    version included, serves as the name: it is the module of the first
    import attempt and the argument of the metadata query (which runs only
    after every import has failed), and the other import attempts take
    its variations on hyphens, which are the requirement itself when it
    holds no hyphen.  This holds of every run of the verification, also of
    one that import_module ends with an exception. *)
Theorem verify_installation_names :
  forall (W : Type) (host : Host W) (name op version : str)
         (s s' : State W) (r : result bool),
    word name -> pattern_operator op -> word version ->
    Install.verify_installation (name ++ op ++ version) s = (r, s') ->
    (op = "==" -> package_name_of (name ++ op ++ version) = name)
    /\ (op <> "==" ->
        package_name_of (name ++ op ++ version) = name ++ op ++ version
        /\ (~ In "-"%char (name ++ op ++ version) ->
            Install.variations_of (name ++ op ++ version)
            = [name ++ op ++ version; name ++ op ++ version; name ++ op ++ version])
        /\ exists L,
             log s' = log s ++ L
             /\ hd_error (imports L) = Some (name ++ op ++ version)
             /\ initial (imports L)
                  ((name ++ op ++ version)
                     :: Install.variations_of (name ++ op ++ version))
             /\ (commands L = []
                 \/ commands L = [show_command (name ++ op ++ version)]
                    /\ imports L
                       = (name ++ op ++ version)
                           :: Install.variations_of (name ++ op ++ version))).
Proof.
  intros W host name op version s s' r Hn Hop Hver Hrun. split.
  - intros ->. apply package_name_stripped, word_no_equals, Hn.
  - intros Hne.
    assert (Hname : package_name_of (name ++ op ++ version) = name ++ op ++ version).
    { destruct (operator_equals Hn Hop Hver (Forall_nil _)) as [Heq | Hc];
        [contradiction|].
      rewrite app_nil_r in Hc. apply package_name_whole, Hc. }
    split; [exact Hname|]. split; [apply variations_no_hyphen|].
    destruct (verify_installation_log _ _ Hrun) as (L & Hlog & _ & Hini & Hhd & Hc & _).
    rewrite Hname in *. exists L. repeat split; assumption.
Qed.

(** The verification of [numpy>=1.0] where nothing can be imported. *)
Lemma verify_installation_names_witness :
  imports (log (snd (Install.verify_installation "numpy>=1.0"
                       InstallSamples.unverified_start)))
  = ["numpy>=1.0" : str; "numpy>=1.0" : str; "numpy>=1.0" : str; "numpy>=1.0" : str]
  /\ commands (log (snd (Install.verify_installation "numpy>=1.0"
                           InstallSamples.unverified_start)))
     = [show_command "numpy>=1.0"].
Proof.
  assert (Hrun : Install.verify_installation ("numpy" ++ ">=" ++ "1.0")
                   InstallSamples.unverified_start
                 = (Returns false,
                    snd (Install.verify_installation "numpy>=1.0"
                           InstallSamples.unverified_start)))
    by (vm_compute; reflexivity).
  assert (Hw : forall s : string,
             Re.fullmatch (Re.Plus (Re.Set_ Install.name_set)) s = true -> word s)
    by (intros s H; apply lang_word, fullmatch_lang, H).
  destruct (@verify_installation_names _ Scripted.host "numpy" ">=" "1.0"
              InstallSamples.unverified_start _ (Returns false)
              (Hw "numpy"%string eq_refl)
              (ex_intro _ ">"%char (conj eq_refl (or_intror eq_refl)))
              (Hw "1.0"%string eq_refl) Hrun) as [_ H].
  destruct H as (_ & _ & L & Hlog & _); [discriminate|].
  split; vm_compute; reflexivity.
Defined.

(** The original wording of C10 fails: for [my-pkg>=1.0] three of the four
    import attempts use another module name than the whole requirement. *)
Lemma verify_installation_hyphen_variations :
  imports (log (snd (Install.verify_installation "my-pkg>=1.0"
                       InstallSamples.unverified_start)))
  = ["my-pkg>=1.0" : str; "my_pkg>=1.0" : str; "pkg>=1.0" : str; "mypkg>=1.0" : str]
  /\ ~ Forall (eq ("my-pkg>=1.0" : str))
         (imports (log (snd (Install.verify_installation "my-pkg>=1.0"
                               InstallSamples.unverified_start)))).
Proof.
  split; [vm_compute; reflexivity|].
  vm_compute. intros H.
  apply Forall_inv_tail, Forall_inv in H. discriminate H.
Qed.

(** ** The commands of the installer's loop *)

Section LoopCommands.
Context {W : Type} {host : Host W}.

Lemma validated_command_incl (l1 l2 : list str) argv :
  incl l1 l2 -> validated_command l1 argv -> validated_command l2 argv.
Proof.
  intros Hincl (package & Hin & Hv & Hargv).
  exists package. split; [apply Hincl, Hin|]. split; assumption.
Qed.

Lemma install_package_log package (s s1 : State W) success output :
  Install.install_package package s = ((success, output), s1) ->
  exists code, log s1 = log s ++ [Run (install_command package) code].
Proof.
  unfold Install.install_package, bind, run. fold (install_command package).
  destruct (subprocess_run (install_command package) (world s)) as [p w].
  intros H. exists (returncode p).
  destruct (returncode p =? 0); injection H as _ _ <-; reflexivity.
Qed.

Lemma install_loop_commands requirements :
  forall installed (s s' : State W) r,
    Install.install_loop requirements installed s = (r, s') ->
    Forall (fun p => Install.validate_package_name p = true) installed ->
    exists L,
      log s' = log s ++ L
      /\ Forall (validated_command (requirements ++ installed)) (commands L).
Proof.
  induction requirements as [|package rest IH]; intros installed s s' r Hrun Hinst.
  - injection Hrun as _ <-. exists []. rewrite app_nil_r. split; [reflexivity|].
    constructor.
  - assert (Hweak : forall inst' L,
               incl (rest ++ inst') ((package :: rest) ++ installed) ->
               Forall (validated_command (rest ++ inst')) (commands L) ->
               Forall (validated_command ((package :: rest) ++ installed))
                      (commands L)).
    { intros inst' L Hincl. apply Forall_impl. intros argv.
      apply validated_command_incl, Hincl. }
    assert (Hincl0 : incl (rest ++ installed) ((package :: rest) ++ installed))
      by (intros x Hx; right; exact Hx).
    destruct (Install.validate_package_name package) eqn:Hv.
    + destruct (Install.install_package package s) as [[success output] s1] eqn:Hi.
      destruct (install_package_log _ _ Hi) as (code & Hlog1).
      assert (Hcmd : validated_command ((package :: rest) ++ installed)
                       (install_command package)).
      { exists package. split; [left; reflexivity|]. split; [exact Hv|].
        left. reflexivity. }
      destruct success.
      * destruct (Install.verify_installation package
                    (logged [Print ("Successfully installed " ++ package)] s1))
          as [verdict s2] eqn:Hvf.
        destruct (verify_installation_log _ _ Hvf)
          as (Lv & Hlog2 & _ & _ & _ & Hcv & _).
        assert (Hshow : Forall (validated_command ((package :: rest) ++ installed))
                          (commands Lv)).
        { destruct Hcv as [-> | [-> _]]; [constructor|].
          constructor; [|constructor]. exists package.
          split; [left; reflexivity|]. split; [exact Hv|].
          right. left. reflexivity. }
        cbn [logged log] in Hlog2. rewrite Hlog1 in Hlog2.
        destruct verdict as [[|]|e].
        3:{ erewrite install_loop_raised in Hrun by eassumption.
            injection Hrun as _ <-.
            eexists. split; [rewrite Hlog2, <- !app_assoc; reflexivity|].
            cbn. constructor; [exact Hcmd | exact Hshow]. }
        -- erewrite install_loop_verified in Hrun by eassumption.
           apply IH in Hrun.
           2:{ apply Forall_app. split; [exact Hinst|].
               constructor; [exact Hv | constructor]. }
           destruct Hrun as (L & Hlog & Hall).
           cbn [logged log] in Hlog. rewrite Hlog2 in Hlog.
           eexists. split; [rewrite Hlog, <- !app_assoc; reflexivity|].
           cbn. rewrite !commands_app. cbn.
           constructor; [exact Hcmd|]. apply Forall_app. split; [exact Hshow|].
           apply (Hweak (installed ++ [package])); [|cbn; exact Hall].
           intros x Hx. apply in_app_or in Hx. destruct Hx as [Hx | Hx].
           ++ right. apply in_or_app. left. exact Hx.
           ++ apply in_app_or in Hx. destruct Hx as [Hx | [<- | []]].
              ** right. apply in_or_app. right. exact Hx.
              ** left. reflexivity.
        -- erewrite install_loop_unverified in Hrun by eassumption.
           apply IH in Hrun; [|exact Hinst].
           destruct Hrun as (L & Hlog & Hall).
           cbn [logged log] in Hlog. rewrite Hlog2 in Hlog.
           eexists. split; [rewrite Hlog, <- !app_assoc; reflexivity|].
           cbn. rewrite !commands_app. cbn.
           constructor; [exact Hcmd|]. apply Forall_app. split; [exact Hshow|].
           apply (Hweak installed); [exact Hincl0 | exact Hall].
      * pose proof (@install_loop_failed _ _ package rest installed s s1 output
                      Hv Hi) as Hstep.
        cbv zeta in Hstep. rewrite Hstep in Hrun. clear Hstep.
        destruct (PyStr.eqb _ _).
        -- injection Hrun as _ <-.
           match goal with
           | |- context [Install.uninstall_all installed ?st] =>
               destruct (uninstall_all_log installed st) as (Lu & Hlogu & Hcu & _)
           end.
           cbn [logged log] in *. rewrite Hlogu, Hlog1.
           eexists. split; [rewrite <- !app_assoc; reflexivity|].
           cbn. rewrite !commands_app, Hcu. cbn. rewrite app_nil_r.
           constructor; [exact Hcmd|].
           apply Forall_forall. intros argv Hargv.
           apply in_map_iff in Hargv. destruct Hargv as (q & <- & Hq).
           exists q. split; [right; apply in_or_app; right; exact Hq|].
           split; [|right; right; reflexivity].
           rewrite Forall_forall in Hinst. apply Hinst, Hq.
        -- apply IH in Hrun; [|exact Hinst].
           destruct Hrun as (L & Hlog & Hall).
           cbn [logged log] in Hlog. rewrite Hlog1 in Hlog.
           eexists. split; [rewrite Hlog, <- !app_assoc; reflexivity|].
           cbn. constructor; [exact Hcmd|].
           apply (Hweak installed); [exact Hincl0 | exact Hall].
    + rewrite (install_loop_invalid _ _ _ _ Hv) in Hrun.
      apply IH in Hrun; [|exact Hinst].
      destruct Hrun as (L & Hlog & Hall).
      cbn [logged log] in Hlog.
      eexists. split; [rewrite Hlog, <- !app_assoc; reflexivity|].
      cbn. apply (Hweak installed); [exact Hincl0 | exact Hall].
Qed.

End LoopCommands.

(** ** Requirement strings of a manifest *)

Lemma strip_last_not_space s body c :
  PyStr.strip s = body ++ [c] -> PyStr.isspace c = false.
Proof.
  unfold PyStr.strip, PyStr.rstrip. intros H.
  destruct (lstrip_blank_or_head (rev (PyStr.lstrip s)))
    as [Hn | (d & t & Hs & Hd)].
  - rewrite Hn in H. destruct body; discriminate.
  - rewrite Hs in H. simpl in H. apply app_inj_tail in H.
    destruct H as [_ <-]. exact Hd.
Qed.

Lemma requirement_lines_in f p :
  In p (Install.requirement_lines f) ->
  exists line, In line f /\ p = PyStr.strip line.
Proof.
  induction f as [|line f IH]; [intros []|].
  rewrite requirement_lines_cons.
  destruct (_ && _)%bool.
  - intros [<- | H].
    + exists line. split; [left|]; reflexivity.
    + destruct (IH H) as (l & Hl & ->). exists l. split; [right|]; trivial.
  - intros H. destruct (IH H) as (l & Hl & ->). exists l. split; [right|]; trivial.
Qed.

(** A requirement string of a manifest that holds a character outside the
    grammar, wherever it stands, is rejected. *)
Lemma manifest_string_rejected f p c :
  In p (Install.requirement_lines f) -> In c p -> grammar_char c = false ->
  Install.validate_package_name p = false.
Proof.
  intros Hp Hc Hg. apply in_split in Hc. destruct Hc as (before & after & Heq).
  rewrite Heq. apply validate_rejects; [exact Hg|].
  destruct after as [|d after]; [right | left; discriminate].
  intros ->. destruct (requirement_lines_in _ _ Hp) as (line & _ & Hs).
  rewrite Heq in Hs. symmetry in Hs. apply strip_last_not_space in Hs.
  discriminate Hs.
Qed.

(** C5, as the code has it.  Every requirement of the grammar passes
    validation.  A string with a character outside the grammar, such as
    a semicolon, a bar or a backtick, is rejected wherever the character
    stands, except a line feed that is the last character of the string; a
    requirement string read from a manifest is stripped, so for it there is
    no exception.  A rejected string is skipped: the loop prints one line
    and goes on with the next requirement; every command the loop runs is
    the install, the metadata query or the uninstall of a requirement that
    passed validation, and the name the metadata query is given passes
    validation too. *)
Theorem validation_guards_subprocess :
  forall (W : Type) (host : Host W),
    (forall s, requirement s -> Install.validate_package_name s = true)
    /\ (forall before c after,
          grammar_char c = false -> after <> [] \/ c <> PyStr.LF ->
          Install.validate_package_name (before ++ c :: after) = false)
    /\ (grammar_char ";" = false /\ grammar_char "|" = false
        /\ grammar_char "`" = false)
    /\ (forall content p c,
          In p (Install.requirement_lines (PyStr.text_lines content)) ->
          In c p -> grammar_char c = false ->
          Install.validate_package_name p = false)
    /\ (forall package rest installed (s : State W),
          Install.validate_package_name package = false ->
          Install.install_loop (package :: rest) installed s
          = Install.install_loop rest installed
              (logged [Print ("Invalid package name: " ++ package ++ ". Skipping.")]
                      s))
    /\ (forall requirements (s s' : State W) r,
          Install.install_loop requirements [] s = (r, s') ->
          exists L,
            log s' = log s ++ L
            /\ Forall (validated_command requirements) (commands L))
    /\ (forall package,
          Install.validate_package_name package = true ->
          Install.validate_package_name (package_name_of package) = true).
Proof.
  intros W host.
  split.
  { intros s [Hw | (name & op & version & -> & Hn & Hop & Hver)];
      apply validate_package_name_iff; left.
    - left. exact Hw.
    - right. exists name, op, version. repeat split; try apply Hn; try apply Hver.
      apply comparison_pattern_operator, Hop. }
  split; [intros before c after; apply validate_rejects|].
  split; [repeat split; reflexivity|].
  split; [intros content; apply manifest_string_rejected|].
  split; [apply install_loop_invalid|].
  split; [|apply package_name_valid].
  intros requirements s s' r Hrun.
  destruct (@install_loop_commands W host requirements [] s s' r Hrun
              (Forall_nil _)) as (L & Hlog & Hall).
  rewrite app_nil_r in Hall. exists L. split; assumption.
Qed.

(** The original wording of C5 fails: a requirement followed by a line
    feed holds a character outside the grammar and passes validation. *)
Lemma validate_accepts_final_line_feed :
  grammar_char PyStr.LF = false
  /\ In PyStr.LF ("requests" ++ [PyStr.LF])
  /\ Install.validate_package_name ("requests" ++ [PyStr.LF]) = true.
Proof.
  split; [reflexivity|]. split; [|vm_compute; reflexivity].
  apply in_or_app. right. left. reflexivity.
Qed.

(** ** The theorems at sample inputs *)

(** The manifest of a comment, a requirement, a blank line and a padded
    requirement gives the two requirements. *)
Lemma read_requirements_lines_witness :
  fst (Install.read_requirements Install.requirements_file
         InstallSamples.manifest_start)
  = ["requests==2.0" : str; "numpy" : str].
Proof.
  destruct (@read_requirements_lines _ Scripted.host Install.requirements_file
              InstallSamples.manifest InstallSamples.manifest_start
              [("# dependencies" ++ [PyStr.LF]) : str;
               ("requests==2.0" ++ [PyStr.LF]) : str; [PyStr.LF]]
              [] ("  numpy " ++ [PyStr.LF]) eq_refl eq_refl)
    as (_ & _ & Hkept).
  rewrite Hkept.
  - reflexivity.
  - intros Hb. apply truthy_strip_false_iff in Hb. discriminate Hb.
  - intros Hc. apply startswith_hash_iff in Hc. discriminate Hc.
Defined.

(** A stored digest of another version and the answer [n]: [main] stops
    after the question and runs no command. *)
Lemma self_check_gate_witness :
  commands (log (snd (Install.main InstallSamples.modified_start))) = []
  /\ prompts (log (snd (Install.main InstallSamples.modified_start)))
     = [continue_prompt]
  /\ files (snd (Install.main InstallSamples.modified_start))
     = files InstallSamples.modified_start.
Proof.
  destruct (@self_check_gate _ Scripted.host InstallSamples.modified_start)
    as (_ & _ & _ & _ & Hrefuse).
  destruct Hrefuse as [_ Hmain].
  - vm_compute. discriminate.
  - vm_compute. discriminate.
  - vm_compute. discriminate.
  - rewrite Hmain. repeat split.
Defined.

(** Validation at a requirement and at a string with a semicolon. *)
Lemma validation_guards_subprocess_witness :
  Install.validate_package_name "requests>=2.0" = true
  /\ Install.validate_package_name "requests; rm -rf x" = false.
Proof.
  destruct (validation_guards_subprocess Scripted.host)
    as (Haccept & Hreject & _).
  split.
  - apply Haccept. right. exists ("requests" : str), (">=" : str), ("2.0" : str).
    split; [reflexivity|].
    split; [apply lang_word, fullmatch_lang; reflexivity|].
    split; [unfold comparison; simpl; tauto|].
    apply lang_word, fullmatch_lang; reflexivity.
  - apply (Hreject ("requests" : str) ";"%char (" rm -rf x" : str)).
    + reflexivity.
    + left. discriminate.
Defined.

(** ** What the csv writer writes *)

Lemma join_append_render rec n f :
  Csv.join_append rec n f false
  = rec ++ (match n with O => [] | S _ => [Csv.delimiter] end) ++ render f.
Proof. reflexivity. Qed.

Lemma join_fields_tail row :
  forall rec n, Csv.join_fields rec (S n) row = rec ++ tail_render row.
Proof.
  induction row as [|f row IH]; intros rec n.
  - cbn. rewrite app_nil_r. reflexivity.
  - cbn [Csv.join_fields]. rewrite IH, join_append_render.
    unfold tail_render. cbn [map List.concat].
    rewrite <- !app_assoc. reflexivity.
Qed.

Lemma join_fields_first (f : str) (row : list str) :
  Csv.join_fields [] 0 (f :: row) = render f ++ tail_render row.
Proof.
  cbn [Csv.join_fields]. rewrite join_fields_tail, join_append_render.
  reflexivity.
Qed.

Lemma field_data_nil f : Csv.field_data f = [] -> f = [].
Proof.
  destruct f as [|c f]; [reflexivity|]. cbn [Csv.field_data].
  destruct (Ascii.eqb c Csv.quotechar); discriminate.
Qed.

Lemma render_nil f : render f = [] -> f = [].
Proof.
  unfold render. destruct (existsb Csv.must_quote f); [discriminate|].
  apply field_data_nil.
Qed.

Lemma writerow_nil : Csv.writerow [] = Csv.lineterminator.
Proof. reflexivity. Qed.

Lemma writerow_empty_field :
  Csv.writerow [[]] = [Csv.quotechar; Csv.quotechar] ++ Csv.lineterminator.
Proof. reflexivity. Qed.

Lemma writerow_fields (f : str) (rest : list str) :
  f <> [] \/ rest <> [] ->
  Csv.writerow (f :: rest) = render f ++ tail_render rest ++ Csv.lineterminator.
Proof.
  intros Hne. unfold Csv.writerow. rewrite join_fields_first.
  destruct (render f ++ tail_render rest) as [|c rec] eqn:Hrec.
  - exfalso. apply app_eq_nil in Hrec. destruct Hrec as [Hf Ht].
    destruct Hne as [Hne | Hne].
    + apply Hne, render_nil, Hf.
    + destruct rest; [congruence | discriminate Ht].
  - rewrite <- Hrec, <- app_assoc. reflexivity.
Qed.

(** ** The csv reader on what the writer wrote *)

Unset Implicit Arguments.

Lemma must_quote_false c :
  Csv.must_quote c = false ->
  Ascii.eqb c Csv.delimiter = false /\ Ascii.eqb c Csv.quotechar = false
  /\ Csv.is_newline c = false.
Proof.
  unfold Csv.must_quote, Csv.is_newline, Csv.lineterminator. cbn [existsb].
  destruct (Ascii.eqb c Csv.delimiter), (Ascii.eqb c Csv.quotechar),
    (Ascii.eqb c PyStr.CR), (Ascii.eqb c PyStr.LF); cbn; intros H;
    try discriminate H; repeat split.
Qed.

Lemma field_data_unquoted f :
  existsb Csv.must_quote f = false -> Csv.field_data f = f.
Proof.
  induction f as [|c f IH]; [reflexivity|]. cbn [existsb Csv.field_data].
  intros H. apply orb_false_iff in H. destruct H as [Hc Hf].
  apply must_quote_false in Hc. destruct Hc as (_ & Hq & _).
  rewrite Hq, (IH Hf). reflexivity.
Qed.

Lemma process_chars_app a b :
  forall r,
    Csv.process_chars r (a ++ b)
    = match Csv.process_chars r a with
      | Some r' => Csv.process_chars r' b
      | None => None
      end.
Proof.
  induction a as [|c a IH]; intros r; [reflexivity|].
  cbn [app Csv.process_chars].
  destruct (Csv.parse_process_char r (Some c)); [apply IH | reflexivity].
Qed.

Lemma parse_add_char_ok st acc pre c :
  (N.of_nat (List.length pre) < Csv.field_limit)%N ->
  Csv.parse_add_char (Csv.mkReader st acc pre) c
  = Some (Csv.mkReader st acc (pre ++ [c])).
Proof.
  intros H. unfold Csv.parse_add_char. cbn [Csv.field Csv.state Csv.fields].
  destruct (N.leb_spec Csv.field_limit (N.of_nat (List.length pre)));
    [lia | reflexivity].
Qed.

Lemma length_app_lt (pre : str) c f :
  (N.of_nat (List.length (pre ++ c :: f)) <= Csv.field_limit)%N ->
  (N.of_nat (List.length pre) < Csv.field_limit)%N.
Proof. rewrite length_app. cbn [List.length]. lia. Qed.

Ltac reader_step :=
  cbn [Csv.process_chars];
  unfold Csv.parse_process_char, Csv.start_field, Csv.set_state,
    Csv.parse_save_field;
  cbn [Csv.state Csv.fields Csv.field option_map].

Lemma in_field_chars f :
  forall acc pre,
    existsb Csv.must_quote f = false ->
    (N.of_nat (List.length (pre ++ f)) <= Csv.field_limit)%N ->
    Csv.process_chars (Csv.mkReader Csv.IN_FIELD acc pre) f
    = Some (Csv.mkReader Csv.IN_FIELD acc (pre ++ f)).
Proof.
  induction f as [|c f IH]; intros acc pre Hq Hlen.
  - rewrite app_nil_r. reflexivity.
  - cbn [existsb] in Hq. apply orb_false_iff in Hq. destruct Hq as [Hc Hf].
    apply must_quote_false in Hc. destruct Hc as (Hd & _ & Hn).
    cbn [Csv.process_chars]. unfold Csv.parse_process_char.
    cbn [Csv.state]. rewrite Hn, Hd.
    rewrite (parse_add_char_ok _ _ _ _ (length_app_lt _ _ _ Hlen)).
    rewrite IH; [|exact Hf | rewrite <- app_assoc; exact Hlen].
    rewrite <- app_assoc. reflexivity.
Qed.

Lemma in_quoted_field_chars f :
  forall acc pre,
    (N.of_nat (List.length (pre ++ f)) <= Csv.field_limit)%N ->
    Csv.process_chars (Csv.mkReader Csv.IN_QUOTED_FIELD acc pre) (Csv.field_data f)
    = Some (Csv.mkReader Csv.IN_QUOTED_FIELD acc (pre ++ f)).
Proof.
  induction f as [|c f IH]; intros acc pre Hlen.
  - rewrite app_nil_r. reflexivity.
  - pose proof (length_app_lt _ _ _ Hlen) as Hlt.
    assert (Hnext : Csv.process_chars
                      (Csv.mkReader Csv.IN_QUOTED_FIELD acc (pre ++ [c]))
                      (Csv.field_data f)
                    = Some (Csv.mkReader Csv.IN_QUOTED_FIELD acc (pre ++ c :: f))).
    { rewrite IH; rewrite <- app_assoc; [reflexivity | exact Hlen]. }
    cbn [Csv.field_data]. destruct (Ascii.eqb c Csv.quotechar) eqn:Hq.
    + apply Ascii.eqb_eq in Hq. subst c.
      reader_step. rewrite Ascii.eqb_refl. reader_step. rewrite ?Ascii.eqb_refl.
      rewrite (parse_add_char_ok _ _ _ _ Hlt). reader_step. exact Hnext.
    + reader_step. rewrite Hq, (parse_add_char_ok _ _ _ _ Hlt). exact Hnext.
Qed.

Lemma render_chars st acc f :
  starting st -> within_limit f ->
  Csv.process_chars (Csv.mkReader st acc []) (render f)
  = Some (Csv.mkReader (after_render st f) acc f).
Proof.
  intros Hst Hlen. unfold render, after_render, within_limit in *.
  destruct (existsb Csv.must_quote f) eqn:Hq.
  - assert (Hopen : Csv.parse_process_char (Csv.mkReader st acc [])
                      (Some Csv.quotechar)
                    = Some (Csv.mkReader Csv.IN_QUOTED_FIELD acc []))
      by (destruct Hst as [-> | ->]; reflexivity).
    cbn [Csv.process_chars]. rewrite Hopen, process_chars_app.
    rewrite (in_quoted_field_chars f acc [] Hlen). cbn [app].
    reader_step. rewrite Ascii.eqb_refl. reflexivity.
  - rewrite (field_data_unquoted f Hq). destruct f as [|c f]; [reflexivity|].
    cbn [existsb] in Hq. apply orb_false_iff in Hq. destruct Hq as [Hc Hf].
    apply must_quote_false in Hc. destruct Hc as (Hd & Hqc & Hn).
    assert (Hfirst : Csv.parse_process_char (Csv.mkReader st acc []) (Some c)
                     = Some (Csv.mkReader Csv.IN_FIELD acc [c])).
    { destruct Hst as [-> | ->]; reader_step; rewrite Hn, Hqc, Hd; reflexivity. }
    cbn [Csv.process_chars]. rewrite Hfirst.
    apply (in_field_chars f acc [c] Hf Hlen).
Qed.

Lemma delimiter_after_render st acc f :
  starting st ->
  Csv.parse_process_char (Csv.mkReader (after_render st f) acc f)
    (Some Csv.delimiter)
  = Some (Csv.mkReader Csv.START_FIELD (acc ++ [f]) []).
Proof.
  intros Hst. unfold after_render.
  destruct (existsb Csv.must_quote f); [reflexivity|].
  destruct f as [|c f]; [|reflexivity].
  destruct Hst as [-> | ->]; reflexivity.
Qed.

Lemma cr_after_render st acc f :
  st = Csv.START_FIELD \/ (st = Csv.START_RECORD /\ render f <> []) ->
  Csv.parse_process_char (Csv.mkReader (after_render st f) acc f)
    (Some PyStr.CR)
  = Some (Csv.mkReader Csv.EAT_CRNL (acc ++ [f]) []).
Proof.
  intros Hst. unfold after_render, render in *.
  destruct (existsb Csv.must_quote f); [reflexivity|].
  destruct f as [|c f]; [|reflexivity].
  destruct Hst as [-> | [_ Hne]]; [reflexivity|].
  exfalso. apply Hne. reflexivity.
Qed.

(** A field and the delimiter after it. *)
Lemma field_then_delimiter st acc f rest :
  starting st -> within_limit f ->
  Csv.process_chars (Csv.mkReader st acc []) (render f ++ Csv.delimiter :: rest)
  = Csv.process_chars (Csv.mkReader Csv.START_FIELD (acc ++ [f]) []) rest.
Proof.
  intros Hst Hlen. rewrite process_chars_app, (render_chars st acc f Hst Hlen).
  cbn [Csv.process_chars]. rewrite (delimiter_after_render st acc f Hst).
  reflexivity.
Qed.

(** The last field of a record and the CR after it. *)
Lemma field_then_cr st acc f rest :
  st = Csv.START_FIELD \/ (st = Csv.START_RECORD /\ render f <> []) ->
  within_limit f ->
  Csv.process_chars (Csv.mkReader st acc []) (render f ++ PyStr.CR :: rest)
  = Csv.process_chars (Csv.mkReader Csv.EAT_CRNL (acc ++ [f]) []) rest.
Proof.
  intros Hst Hlen.
  assert (Hs : starting st) by (destruct Hst as [-> | [-> _]]; [right | left]; reflexivity).
  rewrite process_chars_app, (render_chars st acc f Hs Hlen).
  cbn [Csv.process_chars]. rewrite (cr_after_render st acc f Hst).
  reflexivity.
Qed.

(** The fields of a record from the first on, up to the CR. *)
Lemma fields_then_cr rest :
  forall st acc f,
    st = Csv.START_FIELD
    \/ (st = Csv.START_RECORD /\ (render f <> [] \/ rest <> [])) ->
    within_limit f -> Forall within_limit rest ->
    Csv.process_chars (Csv.mkReader st acc [])
      (render f ++ tail_render rest ++ Csv.lineterminator)
    = Some (Csv.mkReader Csv.EAT_CRNL (acc ++ f :: rest) []).
Proof.
  induction rest as [|g rest IH]; intros st acc f Hst Hf Hrest.
  - cbn [tail_render map List.concat app]. unfold Csv.lineterminator.
    rewrite (field_then_cr st acc f [PyStr.LF]); [reflexivity | | exact Hf].
    destruct Hst as [Hst | [Hst [Hne | Hne]]];
      [left; exact Hst | right; split; assumption | congruence].
  - unfold tail_render. cbn [map List.concat]. fold (tail_render rest).
    rewrite <- !app_assoc. cbn [app].
    rewrite (field_then_delimiter st acc f _); [| |exact Hf].
    + rewrite (IH Csv.START_FIELD (acc ++ [f]) g).
      * rewrite <- app_assoc. reflexivity.
      * left. reflexivity.
      * apply (Forall_inv Hrest).
      * apply (Forall_inv_tail Hrest).
    + destruct Hst as [-> | [-> _]]; [right | left]; reflexivity.
Qed.

(** The round trip of one row: the reader delivers from the line
    [writerow] wrote the row that was written, and stands at the start of
    the next record. *)
Lemma process_line_writerow row :
  Forall within_limit row ->
  Csv.process_line Csv.parse_reset (Csv.writerow row)
  = Some (Csv.mkReader Csv.START_RECORD row []).
Proof.
  intros Hrow. unfold Csv.process_line, Csv.parse_reset.
  assert (Hend : forall acc,
             Csv.parse_process_char (Csv.mkReader Csv.EAT_CRNL acc []) None
             = Some (Csv.mkReader Csv.START_RECORD acc [])) by reflexivity.
  destruct row as [|f rest].
  - reflexivity.
  - destruct f as [|c f]; [destruct rest as [|g rest]|].
    + reflexivity.
    + rewrite (@writerow_fields [] (g :: rest)); [|right; discriminate].
      rewrite (fields_then_cr (g :: rest) Csv.START_RECORD [] []).
      * apply Hend.
      * right. split; [reflexivity|]. right. discriminate.
      * apply (Forall_inv Hrow).
      * apply (Forall_inv_tail Hrow).
    + rewrite (@writerow_fields (c :: f) rest); [|left; discriminate].
      rewrite (fields_then_cr rest Csv.START_RECORD [] (c :: f)).
      * apply Hend.
      * right. split; [reflexivity|]. left. intros H.
        apply render_nil in H. discriminate H.
      * apply (Forall_inv Hrow).
      * apply (Forall_inv_tail Hrow).
Qed.

(** ** Lines of a file *)

Lemma list_pair_ind {A : Type} (P : list A -> Prop) :
  P [] -> (forall a, P [a]) ->
  (forall a b l, P l -> P (b :: l) -> P (a :: b :: l)) ->
  forall l, P l.
Proof.
  intros Hnil Hone Hstep l.
  assert (H : P l /\ forall a, P (a :: l)).
  { induction l as [|b l [IH1 IH2]].
    - split; [exact Hnil | exact Hone].
    - split; [apply IH2|]. intros a. apply Hstep; [exact IH1 | apply IH2]. }
  apply H.
Qed.

Lemma is_newline_false c :
  Csv.is_newline c = false ->
  Ascii.eqb c PyStr.CR = false /\ Ascii.eqb c PyStr.LF = false.
Proof.
  unfold Csv.is_newline. intros H. apply orb_false_iff in H.
  destruct H as [H1 H2]. split; assumption.
Qed.

(** A line without line ends, ended by CR LF, is one line of the file. *)
Lemma raw_lines_scan_line (body : str) :
  no_newline body ->
  forall cur rest,
    PyStr.raw_lines_scan cur (body ++ Csv.lineterminator ++ rest)
    = (rev cur ++ body ++ Csv.lineterminator) :: PyStr.raw_lines_scan [] rest.
Proof.
  induction 1 as [|c body Hc _ IH]; intros cur rest.
  - unfold Csv.lineterminator. cbn [app PyStr.raw_lines_scan].
    rewrite !Ascii.eqb_refl. cbn [rev]. rewrite <- app_assoc. reflexivity.
  - apply is_newline_false in Hc. destruct Hc as [Hcr Hlf].
    cbn [app PyStr.raw_lines_scan]. rewrite Hcr, Hlf, IH. cbn [rev].
    rewrite <- app_assoc. reflexivity.
Qed.

Lemma raw_lines_scan_cons (cur : str) (c : ascii) (s : str) :
  PyStr.raw_lines_scan cur (c :: s)
  = if Ascii.eqb c PyStr.CR then
      match s with
      | d :: s'' =>
          if Ascii.eqb d PyStr.LF
          then rev (d :: c :: cur) :: PyStr.raw_lines_scan [] s''
          else rev (c :: cur) :: PyStr.raw_lines_scan [] s
      | [] => [rev (c :: cur)]
      end
    else if Ascii.eqb c PyStr.LF
         then rev (c :: cur) :: PyStr.raw_lines_scan [] s
         else PyStr.raw_lines_scan (c :: cur) s.
Proof. reflexivity. Qed.

Lemma raw_lines_scan_app (more : str) :
  forall body cur,
    PyStr.raw_lines_scan cur (body ++ PyStr.LF :: more)
    = PyStr.raw_lines_scan cur (body ++ [PyStr.LF])
      ++ PyStr.raw_lines_scan [] more.
Proof.
  intros body. induction body as [| a | a b body IH1 IH2] using list_pair_ind;
    intros cur.
  - cbn. change (Ascii.eqb PyStr.LF PyStr.CR) with false.
    change (Ascii.eqb PyStr.LF PyStr.LF) with true. reflexivity.
  - cbn [app PyStr.raw_lines_scan].
    change (Ascii.eqb PyStr.LF PyStr.LF) with true.
    change (Ascii.eqb PyStr.LF PyStr.CR) with false.
    destruct (Ascii.eqb a PyStr.CR); [reflexivity|].
    destruct (Ascii.eqb a PyStr.LF); reflexivity.
  - cbn [app].
    rewrite (raw_lines_scan_cons cur a (b :: body ++ PyStr.LF :: more)).
    rewrite (raw_lines_scan_cons cur a (b :: body ++ [PyStr.LF])).
    destruct (Ascii.eqb a PyStr.CR).
    + destruct (Ascii.eqb b PyStr.LF).
      * rewrite IH1. reflexivity.
      * specialize (IH2 []). cbn [app] in IH2. rewrite IH2. reflexivity.
    + destruct (Ascii.eqb a PyStr.LF).
      * specialize (IH2 []). cbn [app] in IH2. rewrite IH2. reflexivity.
      * specialize (IH2 (a :: cur)). cbn [app] in IH2. exact IH2.
Qed.

Lemma raw_lines_app content more :
  terminated content ->
  PyStr.raw_lines (content ++ more)
  = PyStr.raw_lines content ++ PyStr.raw_lines more.
Proof.
  intros [-> | (body & ->)]; [reflexivity|].
  unfold PyStr.raw_lines. rewrite <- app_assoc. apply raw_lines_scan_app.
Qed.

(** ** The lines [append_to_csv] writes *)

Lemma field_data_no_newline f : no_newline f -> no_newline (Csv.field_data f).
Proof.
  induction 1 as [|c f Hc _ IH]; [constructor|]. cbn [Csv.field_data].
  destruct (Ascii.eqb c Csv.quotechar) eqn:Hq.
  - apply Ascii.eqb_eq in Hq. subst c. repeat constructor; assumption.
  - constructor; assumption.
Qed.

Lemma render_no_newline f : no_newline f -> no_newline (render f).
Proof.
  intros H. unfold render. apply field_data_no_newline in H.
  destruct (existsb Csv.must_quote f); [|exact H].
  constructor; [reflexivity|]. apply Forall_app. split; [exact H|].
  constructor; [reflexivity | constructor].
Qed.

Lemma tail_render_no_newline row :
  Forall no_newline row -> no_newline (tail_render row).
Proof.
  induction 1 as [|f row Hf _ IH]; [constructor|].
  unfold tail_render. cbn [map List.concat]. constructor; [reflexivity|].
  apply Forall_app. split; [apply render_no_newline, Hf | exact IH].
Qed.

Lemma plain_row_no_newline row : plain_row row -> Forall no_newline row.
Proof. apply Forall_impl. intros f [H _]. exact H. Qed.

Lemma plain_row_within_limit row : plain_row row -> Forall within_limit row.
Proof. apply Forall_impl. intros f [_ H]. exact H. Qed.

(** A row is written as one line: characters that are no line ends, then
    CR LF. *)
Lemma writerow_line row :
  plain_row row ->
  exists body, Csv.writerow row = body ++ Csv.lineterminator /\ no_newline body.
Proof.
  intros Hrow. pose proof (plain_row_no_newline row Hrow) as Hnn.
  destruct row as [|f rest].
  - exists []. split; [reflexivity | constructor].
  - destruct f as [|c f]; [destruct rest as [|g rest]|].
    + exists [Csv.quotechar; Csv.quotechar]. split; [reflexivity|].
      repeat constructor.
    + exists (render [] ++ tail_render (g :: rest)).
      rewrite (@writerow_fields [] (g :: rest)); [|right; discriminate].
      rewrite <- app_assoc. split; [reflexivity|].
      apply tail_render_no_newline, (Forall_inv_tail Hnn).
    + exists (render (c :: f) ++ tail_render rest).
      rewrite (@writerow_fields (c :: f) rest); [|left; discriminate].
      rewrite <- app_assoc. split; [reflexivity|].
      apply Forall_app. split.
      * apply render_no_newline, (Forall_inv Hnn).
      * apply tail_render_no_newline, (Forall_inv_tail Hnn).
Qed.

Lemma raw_lines_written rows :
  Forall plain_row rows ->
  forall rest,
    PyStr.raw_lines (Expander.written rows ++ rest)
    = map Csv.writerow rows ++ PyStr.raw_lines rest.
Proof.
  induction 1 as [|row rows Hrow _ IH]; intros rest; [reflexivity|].
  unfold Expander.written. cbn [map List.concat]. fold (Expander.written rows).
  destruct (writerow_line row Hrow) as (body & Hw & Hbody).
  rewrite Hw, <- !app_assoc. unfold PyStr.raw_lines.
  rewrite (raw_lines_scan_line body Hbody [] (Expander.written rows ++ rest)).
  cbn [rev app]. f_equal. apply IH.
Qed.

Lemma written_terminated rows content :
  terminated content -> terminated (content ++ Expander.written rows).
Proof.
  intros Hc. induction rows as [|row rows IH] using rev_ind.
  - unfold Expander.written. cbn. rewrite app_nil_r. exact Hc.
  - right. unfold Expander.written. rewrite map_app, concat_app. cbn.
    unfold Csv.writerow at 2.
    eexists. rewrite app_nil_r. unfold Csv.lineterminator.
    rewrite !app_assoc.
    change [PyStr.CR; PyStr.LF] with ([PyStr.CR] ++ [PyStr.LF]).
    rewrite !app_assoc. reflexivity.
Qed.

(** ** The reader over the lines of a file *)

Lemma scan_state_app ls :
  forall r more,
    scan_state r ls = Some Csv.parse_reset ->
    scan_state r (ls ++ more) = scan_state Csv.parse_reset more.
Proof.
  induction ls as [|line ls IH]; intros r more H.
  - cbn in H. injection H as ->. reflexivity.
  - cbn [app scan_state] in *.
    destruct (Csv.process_line r line) as [r'|]; [|discriminate].
    destruct (Csv.state_eqb (Csv.state r') Csv.START_RECORD); apply IH, H.
Qed.

Lemma read_rows_app ls :
  forall r more,
    scan_state r ls = Some Csv.parse_reset ->
    Csv.read_rows r (ls ++ more)
    = after_rows (Csv.rows (Csv.read_rows r ls))
                 (Csv.read_rows Csv.parse_reset more).
Proof.
  induction ls as [|line ls IH]; intros r more H.
  - cbn in H. injection H as ->. cbn.
    destruct (Csv.read_rows Csv.parse_reset more); reflexivity.
  - cbn [app scan_state Csv.read_rows] in *.
    destruct (Csv.process_line r line) as [r'|]; [|discriminate].
    destruct (Csv.state_eqb (Csv.state r') Csv.START_RECORD).
    + rewrite (IH _ _ H). reflexivity.
    + apply IH, H.
Qed.

Lemma scan_state_written rows :
  Forall plain_row rows ->
  scan_state Csv.parse_reset (map Csv.writerow rows) = Some Csv.parse_reset.
Proof.
  induction 1 as [|row rows Hrow _ IH]; [reflexivity|].
  cbn [map scan_state].
  rewrite (process_line_writerow row (plain_row_within_limit row Hrow)).
  exact IH.
Qed.

Lemma read_rows_written rows :
  Forall plain_row rows ->
  Csv.read_rows Csv.parse_reset (map Csv.writerow rows) = Csv.mkRows rows false.
Proof.
  induction 1 as [|row rows Hrow _ IH]; [reflexivity|].
  cbn [map Csv.read_rows].
  rewrite (process_line_writerow row (plain_row_within_limit row Hrow)).
  cbn [Csv.state Csv.state_eqb Csv.fields]. rewrite IH. reflexivity.
Qed.

(** Appending written rows to a file of complete records gives a file of
    complete records, and reading it gives the records of the file and then
    the rows. *)
Lemma append_complete content rows :
  complete content -> Forall plain_row rows ->
  complete (content ++ Expander.written rows)
  /\ records (content ++ Expander.written rows) = records content ++ rows.
Proof.
  intros [Hterm Hscan] Hrows.
  assert (Hlines : PyStr.raw_lines (content ++ Expander.written rows)
                   = PyStr.raw_lines content ++ map Csv.writerow rows).
  { rewrite (raw_lines_app _ _ Hterm).
    rewrite <- (app_nil_r (Expander.written rows)).
    rewrite (raw_lines_written rows Hrows []). cbn. rewrite app_nil_r.
    reflexivity. }
  split; [split|].
  - apply written_terminated, Hterm.
  - rewrite Hlines, (scan_state_app _ _ _ Hscan). apply scan_state_written, Hrows.
  - unfold records, Csv.reader. rewrite Hlines, (read_rows_app _ _ _ Hscan).
    rewrite (read_rows_written rows Hrows). reflexivity.
Qed.

(** ** What the reader delivers from lines without line ends *)

Lemma plain_field_nil : plain_field [].
Proof. split; [constructor | cbn; unfold Csv.field_limit; lia]. Qed.

Lemma parse_save_field_plain r :
  plain_reader r -> plain_reader (Csv.parse_save_field r).
Proof.
  intros [Hfs Hf]. split; cbn.
  - apply Forall_app. split; [exact Hfs | constructor; [exact Hf | constructor]].
  - apply plain_field_nil.
Qed.

Lemma set_state_plain st r : plain_reader r -> plain_reader (Csv.set_state st r).
Proof. intros H. exact H. Qed.

Lemma parse_add_char_plain r c r' :
  plain_reader r -> Csv.is_newline c = false ->
  Csv.parse_add_char r c = Some r' -> plain_reader r'.
Proof.
  intros [Hfs [Hnn Hlen]] Hc. unfold Csv.parse_add_char.
  destruct (N.leb_spec Csv.field_limit (N.of_nat (List.length (Csv.field r))))
    as [Hge | Hlt]; [discriminate|].
  intros E. injection E as <-. split; cbn; [exact Hfs|]. split.
  - apply Forall_app. split; [exact Hnn | constructor; [exact Hc | constructor]].
  - rewrite length_app. cbn. lia.
Qed.

Lemma option_map_plain st (o : option Csv.Reader) r' :
  (forall r, o = Some r -> plain_reader r) ->
  option_map (Csv.set_state st) o = Some r' -> plain_reader r'.
Proof.
  intros H. destruct o as [r|]; [|discriminate].
  intros E. injection E as <-. apply set_state_plain, H. reflexivity.
Qed.

Lemma parse_process_char_plain r c r' :
  plain_reader r ->
  (forall ch, c = Some ch -> Csv.is_newline ch = false) ->
  Csv.parse_process_char r c = Some r' -> plain_reader r'.
Proof.
  intros Hr Hc.
  assert (Hadd : forall ch r1 r2, plain_reader r1 -> c = Some ch ->
                   Csv.parse_add_char r1 ch = Some r2 -> plain_reader r2).
  { intros ch r1 r2 H1 E. apply (parse_add_char_plain r1 ch r2 H1 (Hc ch E)). }
  assert (Hstart : forall r1, plain_reader r1 ->
                     Csv.start_field r1 c = Some r' -> plain_reader r').
  { intros r1 H1. unfold Csv.start_field. destruct c as [ch|].
    - rewrite (Hc ch eq_refl).
      destruct (Ascii.eqb ch Csv.quotechar);
        [intros E; injection E as <-; exact H1|].
      destruct (Ascii.eqb ch Csv.delimiter);
        [intros E; injection E as <-; apply parse_save_field_plain, H1|].
      apply option_map_plain. intros r2. apply (Hadd ch r1 r2 H1 eq_refl).
    - intros E. injection E as <-. apply parse_save_field_plain, H1. }
  unfold Csv.parse_process_char. destruct (Csv.state r).
  - destruct c as [ch|]; [|intros E; injection E as <-; exact Hr].
    rewrite (Hc ch eq_refl). apply Hstart, Hr.
  - apply Hstart, Hr.
  - destruct c as [ch|];
      [|intros E; injection E as <-; apply parse_save_field_plain, Hr].
    rewrite (Hc ch eq_refl). destruct (Ascii.eqb ch Csv.delimiter).
    + intros E. injection E as <-. apply parse_save_field_plain, Hr.
    + apply (Hadd ch r r' Hr eq_refl).
  - destruct c as [ch|]; [|intros E; injection E as <-; exact Hr].
    destruct (Ascii.eqb ch Csv.quotechar).
    + intros E. injection E as <-. exact Hr.
    + apply (Hadd ch r r' Hr eq_refl).
  - destruct c as [ch|];
      [|intros E; injection E as <-; apply parse_save_field_plain, Hr].
    destruct (Ascii.eqb ch Csv.quotechar).
    + apply option_map_plain. intros r2. apply (Hadd ch r r2 Hr eq_refl).
    + destruct (Ascii.eqb ch Csv.delimiter).
      * intros E. injection E as <-. apply parse_save_field_plain, Hr.
      * rewrite (Hc ch eq_refl). apply option_map_plain.
        intros r2. apply (Hadd ch r r2 Hr eq_refl).
  - destruct c as [ch|]; [|intros E; injection E as <-; exact Hr].
    rewrite (Hc ch eq_refl). discriminate.
Qed.

Lemma process_chars_plain line :
  no_newline line ->
  forall r r', plain_reader r -> Csv.process_chars r line = Some r' ->
               plain_reader r'.
Proof.
  induction 1 as [|c line Hc _ IH]; intros r r' Hr.
  - intros E. injection E as <-. exact Hr.
  - cbn [Csv.process_chars].
    destruct (Csv.parse_process_char r (Some c)) as [r1|] eqn:E1; [|discriminate].
    apply IH. apply (parse_process_char_plain r (Some c) r1 Hr); [|exact E1].
    intros ch E. injection E as <-. exact Hc.
Qed.

Lemma process_line_plain line r r' :
  no_newline line -> plain_reader r -> Csv.process_line r line = Some r' ->
  plain_reader r'.
Proof.
  intros Hl Hr. unfold Csv.process_line.
  destruct (Csv.process_chars r line) as [r1|] eqn:E1; [|discriminate].
  apply parse_process_char_plain; [|intros ch E; discriminate E].
  apply (process_chars_plain line Hl r r1 Hr E1).
Qed.

Lemma parse_reset_plain : plain_reader Csv.parse_reset.
Proof. split; [constructor | apply plain_field_nil]. Qed.

Lemma read_rows_plain lines :
  Forall no_newline lines ->
  forall r, plain_reader r -> Forall plain_row (Csv.rows (Csv.read_rows r lines)).
Proof.
  induction 1 as [|line lines Hl _ IH]; intros r Hr.
  - cbn [Csv.read_rows]. destruct (_ || _)%bool; cbn; [|constructor].
    constructor; [|constructor]. apply (parse_save_field_plain r Hr).
  - cbn [Csv.read_rows].
    destruct (Csv.process_line r line) as [r'|] eqn:E; [|constructor].
    pose proof (process_line_plain line r r' Hl Hr E) as Hr'.
    destruct (Csv.state_eqb (Csv.state r') Csv.START_RECORD).
    + cbn. constructor; [apply Hr'|]. apply IH, parse_reset_plain.
    + apply IH, Hr'.
Qed.

(** ** The lines of a chat response *)

Lemma is_linebreak_newline c :
  Ascii.eqb c PyStr.CR = false -> PyStr.is_linebreak c = false ->
  Csv.is_newline c = false.
Proof.
  intros Hcr Hlb. unfold Csv.is_newline. rewrite Hcr, orb_false_r.
  destruct (Ascii.eqb c PyStr.LF) eqn:E; [|reflexivity].
  apply Ascii.eqb_eq in E. subst c. discriminate Hlb.
Qed.

Lemma splitlines_scan_cons (cur : str) (c : ascii) (s : str) :
  PyStr.splitlines_scan cur (c :: s)
  = if Ascii.eqb c PyStr.CR then
      match s with
      | d :: s'' =>
          if Ascii.eqb d PyStr.LF then rev cur :: PyStr.splitlines_scan [] s''
          else rev cur :: PyStr.splitlines_scan [] s
      | [] => [rev cur]
      end
    else if PyStr.is_linebreak c then rev cur :: PyStr.splitlines_scan [] s
         else PyStr.splitlines_scan (c :: cur) s.
Proof. reflexivity. Qed.

Lemma no_newline_rev s : no_newline s -> no_newline (rev s).
Proof. apply Forall_rev. Qed.

Lemma splitlines_scan_no_newline s :
  forall cur, no_newline cur -> Forall no_newline (PyStr.splitlines_scan cur s).
Proof.
  induction s as [| a | a b s IH1 IH2] using list_pair_ind; intros cur Hcur.
  - cbn. destruct cur; [constructor|].
    constructor; [apply no_newline_rev, Hcur | constructor].
  - rewrite splitlines_scan_cons.
    destruct (Ascii.eqb a PyStr.CR) eqn:Hcr.
    + constructor; [apply no_newline_rev, Hcur | constructor].
    + destruct (PyStr.is_linebreak a) eqn:Hlb.
      * constructor; [apply no_newline_rev, Hcur | constructor].
      * cbn. constructor; [|constructor].
        apply (no_newline_rev (a :: cur)). constructor; [|exact Hcur].
        apply is_linebreak_newline; assumption.
  - rewrite splitlines_scan_cons.
    destruct (Ascii.eqb a PyStr.CR) eqn:Hcr.
    + destruct (Ascii.eqb b PyStr.LF);
        (constructor; [apply no_newline_rev, Hcur|]);
        [apply IH1 | apply IH2]; constructor.
    + destruct (PyStr.is_linebreak a) eqn:Hlb.
      * constructor; [apply no_newline_rev, Hcur|]. apply IH2. constructor.
      * apply IH2. constructor; [|exact Hcur].
        apply is_linebreak_newline; assumption.
Qed.

(** The rows the reader delivers from a chat response are plain. *)
Lemma parsed_plain new_data : Forall plain_row (parsed new_data).
Proof.
  unfold parsed, Csv.reader, PyStr.splitlines.
  apply read_rows_plain; [|apply parse_reset_plain].
  apply splitlines_scan_no_newline. constructor.
Qed.

(** ** The output file during the expansion *)

Lemma written_app rows1 rows2 :
  Expander.written (rows1 ++ rows2)
  = Expander.written rows1 ++ Expander.written rows2.
Proof. unfold Expander.written. rewrite map_app, concat_app. reflexivity. Qed.

Lemma content_of_store {W : Type} (w : W) files path content l :
  content_of (mkState w (store files path content) l) path = content.
Proof. unfold content_of, store. cbn. rewrite eqb_refl. reflexivity. Qed.

Lemma store_other files path content p :
  p <> path -> store files path content p = files p.
Proof.
  intros H. unfold store. apply eqb_neq in H. rewrite H. reflexivity.
Qed.

Section OutputFile.
Context {W : Type} {host : Host W}.
Variables (sample_df : DataFrame) (analysis output_file : str).

Lemma append_to_csv_effect new_data (s : State W) :
  Expander.append_to_csv output_file new_data s
  = (negb (Csv.failed (Csv.reader (PyStr.splitlines new_data))),
     mkState (world s)
             (store (files s) output_file
                    (content_of s output_file
                     ++ Expander.written (parsed new_data)))
             (log s)).
Proof. reflexivity. Qed.

Lemma expand_dataset_files size (s : State W) :
  files (snd (Expander.expand_dataset sample_df analysis
                Expander.expander_prompt size s)) = files s.
Proof.
  unfold Expander.expand_dataset, chat, bind, ret.
  destruct (co_chat _ (world s)) as [[text|e] w]; reflexivity.
Qed.

(** The loop only appends rows to the output file, and touches no other
    file. *)
Lemma expansion_loop_files fuel :
  forall rows_to_add rows_added (s s' : State W) (e : Expander.loop_exit),
    Expander.expansion_loop fuel sample_df analysis output_file
                            rows_to_add rows_added s = (e, s') ->
    exists extra,
      Forall plain_row extra
      /\ content_of s' output_file
         = content_of s output_file ++ Expander.written extra
      /\ (forall p, p <> output_file -> files s' p = files s p).
Proof.
  induction fuel as [|fuel IH]; intros rows_to_add rows_added s s' e Hrun;
    cbn [Expander.expansion_loop] in Hrun.
  - exists []. destruct (rows_added <? rows_to_add); injection Hrun as _ <-;
      (split; [constructor|]); (split; [|reflexivity]);
      unfold Expander.written; cbn; rewrite app_nil_r; reflexivity.
  - destruct (rows_added <? rows_to_add).
    + unfold bind at 1 in Hrun.
      pose proof (expand_dataset_files (Z.min 50 (rows_to_add - rows_added)) s)
        as Hfiles.
      destruct (Expander.expand_dataset sample_df analysis
                  Expander.expander_prompt
                  (Z.min 50 (rows_to_add - rows_added)) s) as [[new_data|] s1].
      * cbn [snd] in Hfiles. unfold bind at 1 in Hrun.
        rewrite append_to_csv_effect in Hrun.
        assert (Hc1 : content_of s1 output_file = content_of s output_file)
          by (unfold content_of; rewrite Hfiles; reflexivity).
        destruct (negb _).
        -- unfold bind, Expander.colored_print, print, emit in Hrun.
           cbn [world files log] in Hrun.
           apply IH in Hrun. destruct Hrun as (extra & Hplain & Hcontent & Hother).
           rewrite content_of_store in Hcontent.
           exists (parsed new_data ++ extra).
           split; [apply Forall_app; split; [apply parsed_plain | exact Hplain]|].
           split.
           ++ rewrite Hcontent, Hc1, written_app, app_assoc. reflexivity.
           ++ intros p Hp. rewrite (Hother p Hp). cbn [files].
              rewrite (store_other _ _ _ p Hp). rewrite Hfiles. reflexivity.
        -- injection Hrun as _ <-. exists (parsed new_data).
           split; [apply parsed_plain|]. split.
           ++ rewrite content_of_store, Hc1. reflexivity.
           ++ intros p Hp. cbn [files]. rewrite (store_other _ _ _ p Hp).
              rewrite Hfiles. reflexivity.
      * cbn [snd] in Hfiles.
        unfold bind, Expander.colored_print, print, emit, ret in Hrun.
        injection Hrun as _ <-. exists [].
        split; [constructor|]. split.
        -- unfold content_of. cbn [files]. rewrite Hfiles.
           unfold Expander.written. cbn. rewrite app_nil_r. reflexivity.
        -- intros p _. cbn [files]. rewrite Hfiles. reflexivity.
    + injection Hrun as _ <-. exists [].
      split; [constructor|]. split; [|reflexivity].
      unfold Expander.written. cbn. rewrite app_nil_r. reflexivity.
Qed.

End OutputFile.

Lemma row_count_app content rows :
  records (content ++ Expander.written rows) = records content ++ rows ->
  row_count (content ++ Expander.written rows)
  = row_count content + Z.of_nat (List.length rows).
Proof.
  intros H. unfold row_count. rewrite H, length_app. lia.
Qed.



(** * Further properties of the installer *)

(** ** What the manifest reader returns *)

Lemma lstrip_split s :
  exists ws, s = ws ++ PyStr.lstrip s /\ blank ws.
Proof.
  induction s as [|c s (ws & Hs & Hws)]; [exists []; split; [reflexivity | constructor]|].
  cbn [PyStr.lstrip]. destruct (PyStr.isspace c) eqn:Hc.
  - exists (c :: ws). split; [cbn; f_equal; exact Hs|].
    constructor; assumption.
  - exists []. split; [reflexivity | constructor].
Qed.

Lemma rstrip_split s :
  exists ws, s = PyStr.rstrip s ++ ws /\ blank ws.
Proof.
  unfold PyStr.rstrip. destruct (lstrip_split (rev s)) as (ws & Hs & Hws).
  exists (rev ws). split; [|apply blank_rev, Hws].
  rewrite <- rev_app_distr, <- Hs, rev_involutive. reflexivity.
Qed.

Lemma lstrip_head s c t : PyStr.lstrip s = c :: t -> PyStr.isspace c = false.
Proof.
  intros H. destruct (lstrip_blank_or_head s) as [Hn | (d & u & Hs & Hd)].
  - rewrite Hn in H. discriminate.
  - rewrite Hs in H. injection H as <- _. exact Hd.
Qed.

Lemma rstrip_last s b c : PyStr.rstrip s = b ++ [c] -> PyStr.isspace c = false.
Proof.
  unfold PyStr.rstrip. intros H.
  assert (Hl : PyStr.lstrip (rev s) = c :: rev b).
  { rewrite <- (rev_involutive (PyStr.lstrip (rev s))), H, rev_app_distr.
    reflexivity. }
  apply (lstrip_head _ _ _ Hl).
Qed.

(** Stripping leaves no white space at either end. *)
Lemma strip_trimmed s : trimmed (PyStr.strip s).
Proof.
  unfold PyStr.strip. split.
  - intros c t H. destruct (rstrip_split (PyStr.lstrip s)) as (ws & Hs & _).
    rewrite H in Hs. cbn in Hs. apply (lstrip_head s c _ Hs).
  - intros b c H. apply (rstrip_last _ _ _ H).
Qed.

Lemma lstrip_trimmed s :
  (forall c t, s = c :: t -> PyStr.isspace c = false) -> PyStr.lstrip s = s.
Proof.
  intros H. destruct s as [|c t]; [reflexivity|]. cbn.
  rewrite (H c t eq_refl). reflexivity.
Qed.

Lemma strip_of_trimmed s : trimmed s -> PyStr.strip s = s.
Proof.
  intros [Hhead Hlast]. unfold PyStr.strip, PyStr.rstrip.
  rewrite (lstrip_trimmed s Hhead).
  rewrite lstrip_trimmed; [apply rev_involutive|].
  intros c t H. apply (Hlast (rev t) c).
  rewrite <- (rev_involutive s), H. reflexivity.
Qed.

(** X1. Whatever the state of the manifest, missing or not, a string
    [read_requirements] returns is not empty and has no white space at its
    beginning or its end, so stripping it again changes nothing; the reading
    leaves the files and the world as they were. *)
Theorem read_requirements_trimmed :
  forall (W : Type) (host : Host W) (file_path : str) (s : State W),
    Forall (fun r => r <> [] /\ trimmed r /\ PyStr.strip r = r)
           (fst (Install.read_requirements file_path s))
    /\ files (snd (Install.read_requirements file_path s)) = files s
    /\ world (snd (Install.read_requirements file_path s)) = world s.
Proof.
  intros W host file_path s. unfold Install.read_requirements, read_file, bind.
  destruct (files s file_path) as [content|]; cbn.
  - split; [|split; reflexivity].
    apply Forall_forall. intros r Hr.
    assert (Hne : r <> []).
    { clear - Hr. induction (PyStr.text_lines content) as [|line f IH];
        [destruct Hr|].
      rewrite requirement_lines_cons in Hr.
      destruct (Install.truthy (PyStr.strip line)) eqn:Ht;
        [|apply IH, Hr].
      destruct (PyStr.startswith "#" line); [apply IH, Hr|].
      destruct Hr as [<- | Hr]; [|apply IH, Hr].
      destruct (PyStr.strip line); [discriminate Ht | discriminate]. }
    destruct (requirement_lines_in _ _ Hr) as (line & _ & ->).
    split; [exact Hne|]. split; [apply strip_trimmed|].
    apply strip_of_trimmed, strip_trimmed.
  - split; [constructor | split; reflexivity].
Qed.

(** X2. A comment that is indented is not ignored: a line of white space,
    then [#], is returned by [read_requirements] as a requirement that
    begins with [#]; validation rejects it, so [main] skips it. *)
Theorem indented_comment_kept :
  forall (W : Type) (host : Host W) (file_path content : str) (s : State W)
         (before after : list str) (ws rest : str),
    files s file_path = Some content ->
    ws <> [] -> blank ws ->
    PyStr.text_lines content = before ++ (ws ++ "#"%char :: rest) :: after ->
    exists kept,
      PyStr.strip (ws ++ "#"%char :: rest) = "#"%char :: kept
      /\ In ("#"%char :: kept) (fst (Install.read_requirements file_path s))
      /\ Install.validate_package_name ("#"%char :: kept) = false.
Proof.
  intros W host file_path content s before after ws rest Hfile Hne Hws Hlines.
  set (line := ws ++ "#"%char :: rest) in *.
  assert (Hl : PyStr.lstrip line = "#"%char :: rest).
  { subst line. clear Hlines Hne. induction Hws as [|c ws Hc _ IH]; [reflexivity|].
    cbn. rewrite Hc. exact IH. }
  assert (Hstrip : exists kept, PyStr.strip line = "#"%char :: kept).
  { unfold PyStr.strip. rewrite Hl.
    destruct (rstrip_split ("#"%char :: rest)) as (t & Ht & Hbl).
    destruct (PyStr.rstrip ("#"%char :: rest)) as [|c kept] eqn:Hr.
    - cbn in Ht. subst t. apply Forall_inv in Hbl. discriminate Hbl.
    - cbn in Ht. injection Ht as <- _. exists kept. reflexivity. }
  destruct Hstrip as (kept & Hkept). exists kept.
  split; [exact Hkept|]. split.
  - destruct (read_requirements_lines host file_path s before after line
                Hfile Hlines) as (_ & _ & Hin).
    rewrite Hin, Hkept.
    + apply in_or_app. right. left. reflexivity.
    + intros Hb. apply strip_nil_iff in Hb. rewrite Hkept in Hb. discriminate.
    + intros [r Hr]. subst line. destruct ws as [|c ws]; [congruence|].
      injection Hr as -> _. apply Forall_inv in Hws. discriminate Hws.
  - apply (@validate_rejects [] kept "#"%char); [reflexivity|].
    right. discriminate.
Qed.

(** ** Splitting at one character *)

Lemma startswith_char d c (s : str) :
  PyStr.startswith [d] (c :: s) = Ascii.eqb d c.
Proof. cbn. apply andb_true_r. Qed.

Lemma split_scan_nonempty sep s :
  forall cur skip, PyStr.split_scan sep cur skip s <> [].
Proof.
  induction s as [|c s IH]; intros cur skip; cbn [PyStr.split_scan].
  - discriminate.
  - destruct skip; [|apply IH].
    destruct (PyStr.startswith sep (c :: s)); [discriminate | apply IH].
Qed.

Lemma last_cons_nonempty (x : str) (l : list str) :
  l <> [] -> List.last (x :: l) [] = List.last l [].
Proof. destruct l; [congruence | reflexivity]. Qed.

Lemma split_scan_char_cons d cur c (s : str) :
  PyStr.split_scan [d] cur 0 (c :: s)
  = if Ascii.eqb d c then rev cur :: PyStr.split_scan [d] [] 0 s
    else PyStr.split_scan [d] (c :: cur) 0 s.
Proof.
  cbn [PyStr.split_scan]. rewrite startswith_char. reflexivity.
Qed.

(** The last piece of a split at [d] is what follows the last [d]. *)
Lemma split_scan_last d (s : str) :
  forall cur, ~ In d cur ->
    after_last d (rev cur ++ s) (List.last (PyStr.split_scan [d] cur 0 s) []).
Proof.
  induction s as [|c s IH]; intros cur Hcur.
  - cbn. rewrite app_nil_r. split.
    + intros H. apply in_rev in H. exact (Hcur H).
    + exists []. split; [reflexivity | left; reflexivity].
  - rewrite split_scan_char_cons. destruct (Ascii.eqb d c) eqn:Hd.
    + apply Ascii.eqb_eq in Hd. subst c.
      rewrite last_cons_nonempty by apply split_scan_nonempty.
      destruct (IH [] (fun H => H)) as [Hno (before & Heq & Hb)].
      cbn in Heq. split; [exact Hno|].
      exists (rev cur ++ d :: before). split.
      * rewrite Heq at 1. rewrite <- app_assoc. reflexivity.
      * right. destruct Hb as [-> | (b & ->)].
        -- exists (rev cur). reflexivity.
        -- exists (rev cur ++ d :: b). rewrite <- app_assoc. reflexivity.
    + assert (Hcur' : ~ In d (c :: cur)).
      { intros [H | H]; [|exact (Hcur H)]. subst c.
        rewrite Ascii.eqb_refl in Hd. discriminate. }
      specialize (IH (c :: cur) Hcur'). cbn [rev] in IH.
      rewrite <- app_assoc in IH. exact IH.
Qed.

Lemma join_nil_cons (p : str) (ps : list str) :
  PyStr.join [] (p :: ps) = p ++ PyStr.join [] ps.
Proof. destruct ps; cbn; [rewrite app_nil_r|]; reflexivity. Qed.

Lemma join_split_scan d (s : str) :
  forall cur,
    PyStr.join [] (PyStr.split_scan [d] cur 0 s)
    = rev cur ++ filter (fun c => negb (Ascii.eqb c d)) s.
Proof.
  induction s as [|c s IH]; intros cur.
  - cbn. rewrite app_nil_r. reflexivity.
  - rewrite split_scan_char_cons. cbn [filter].
    rewrite (Ascii.eqb_sym c d). destruct (Ascii.eqb d c).
    + rewrite join_nil_cons, IH. reflexivity.
    + rewrite IH. cbn. rewrite <- app_assoc. reflexivity.
Qed.

Lemma replace_scan_char d e (s : str) :
  PyStr.replace_scan [d] [e] 0 s
  = map (fun c => if Ascii.eqb c d then e else c) s.
Proof.
  induction s as [|c s IH]; [reflexivity|].
  cbn [PyStr.replace_scan map]. rewrite startswith_char, (Ascii.eqb_sym c d).
  destruct (Ascii.eqb d c); cbn; rewrite IH; reflexivity.
Qed.

(** X3. The three variations [verify_installation] tries after the name
    itself are what its comments say: the name with every hyphen turned
    into an underscore, what follows the last hyphen of the name, and the
    name with its hyphens removed.  None of them holds a hyphen. *)
Theorem variations_of_hyphens :
  forall (package_name : str),
    exists tail,
      Install.variations_of package_name
      = [map underscored package_name; tail; filter not_hyphen package_name]
      /\ after_last "-" package_name tail
      /\ Forall (fun v => ~ In "-"%char v) (Install.variations_of package_name).
Proof.
  intros name. exists (PyStr.last (PyStr.split "-" name)).
  assert (Hvar : Install.variations_of name
                 = [map underscored name; PyStr.last (PyStr.split "-" name);
                    filter not_hyphen name]).
  { unfold Install.variations_of, PyStr.replace, PyStr.split.
    change (list_ascii_of_string "-") with ["-"%char].
    change (list_ascii_of_string "_") with ["_"%char].
    rewrite replace_scan_char, join_split_scan. reflexivity. }
  assert (Htail : after_last "-" name (PyStr.last (PyStr.split "-" name))).
  { apply (split_scan_last "-"%char name [] (fun H => H)). }
  split; [exact Hvar|]. split; [exact Htail|].
  rewrite Hvar. constructor; [|constructor; [|constructor; [|constructor]]].
  - intros H. apply in_map_iff in H. destruct H as (c & Hc & _).
    unfold underscored in Hc. destruct (Ascii.eqb c "-") eqn:E; [discriminate|].
    subst c. discriminate E.
  - apply Htail.
  - intros H. apply filter_In in H. destruct H as [_ H]. discriminate H.
Qed.

(** ** The verdict of the verification *)

Section Verdict.
Context {W : Type} {host : Host W}.

Lemma try_variations_outcome variations :
  forall (s s' : State W) (r : result bool),
    Install.try_variations variations s = (r, s') ->
    exists L,
      log s' = log s ++ L
      /\ (r = Returns true ->
          exists tried name,
            L = map failed_import tried ++ [Import name true]
            /\ initial (tried ++ [name]) variations)
      /\ (r = Returns false -> L = map failed_import variations)
      /\ (forall e, r = Raises e ->
            exists tried bad,
              L = map failed_import tried ++ [Refuse bad e]
              /\ initial (tried ++ [bad]) variations
              /\ refused bad = Some e).
Proof.
  induction variations as [|v vs IH]; intros s s' r Hrun.
  - injection Hrun as <- <-. exists []. rewrite app_nil_r.
    split; [reflexivity|]. split; [discriminate|].
    split; [reflexivity | intros e He; discriminate He].
  - cbn [Install.try_variations] in Hrun. unfold bind, try_import in Hrun.
    destruct (refused v) as [e|] eqn:Hv.
    { injection Hrun as <- <-. exists [Refuse v e].
      split; [reflexivity|]. split; [discriminate|]. split; [discriminate|].
      intros e' He'. injection He' as <-. exists [], v.
      split; [reflexivity|]. split; [exists vs; reflexivity | exact Hv]. }
    destruct (import_module v (world s)) as [ok w]. destruct ok.
    + injection Hrun as <- <-. exists [Import v true].
      split; [reflexivity|]. split; [|split; [discriminate|]].
      * intros _. exists [], v. split; [reflexivity|]. exists vs. reflexivity.
      * intros e He. discriminate He.
    + apply IH in Hrun. destruct Hrun as (L & Hlog & Htrue & Hfalse & Hraise).
      cbn [log] in Hlog. exists (failed_import v :: L).
      split; [rewrite Hlog, <- app_assoc; reflexivity|]. split; [|split].
      * intros Hf. destruct (Htrue Hf) as (tried & name & -> & Hini).
        exists (v :: tried), name. split; [reflexivity|].
        cbn. apply initial_cons, Hini.
      * intros Hf. rewrite (Hfalse Hf). reflexivity.
      * intros e He. destruct (Hraise e He) as (tried & bad & -> & Hini & Hbad).
        exists (v :: tried), bad. split; [reflexivity|].
        split; [cbn; apply initial_cons, Hini | exact Hbad].
Qed.


End Verdict.

(** ** Running the self-check again *)

Lemma universal_newlines_plain s :
  ~ In PyStr.CR s -> PyStr.universal_newlines s = s.
Proof.
  induction s as [|c s IH]; intros H; [reflexivity|].
  cbn [PyStr.universal_newlines].
  destruct (Ascii.eqb c PyStr.CR) eqn:Hc.
  - apply Ascii.eqb_eq in Hc. exfalso. apply H. left. congruence.
  - rewrite IH; [reflexivity|]. intros Hin. apply H. right. exact Hin.
Qed.

Section SelfCheckAgain.
Context {W : Type} {host : Host W}.

Lemma load_stored_hash (w : W) fs l (h : str) :
  trimmed h -> ~ In PyStr.CR h ->
  Install.load_script_hash (mkState w (store fs Install.HASH_FILE h) l)
  = (h, mkState w (store fs Install.HASH_FILE h) l).
Proof.
  intros Ht Hcr. unfold Install.load_script_hash, read_file, bind, ret.
  cbn [files]. unfold store at 1. rewrite eqb_refl.
  rewrite (universal_newlines_plain h Hcr), (strip_of_trimmed h Ht). reflexivity.
Qed.

Lemma self_check_silent (s : State W) :
  Install.calculate_file_hash script_source <> [] ->
  fst (Install.load_script_hash s) = Install.calculate_file_hash script_source ->
  Install.self_check s = (true, s).
Proof.
  intros Hne Hload. unfold Install.self_check, bind.
  assert (Hs : Install.load_script_hash s
               = (Install.calculate_file_hash script_source, s)).
  { rewrite <- Hload. unfold Install.load_script_hash, read_file, bind, ret.
    destruct (files s Install.HASH_FILE); reflexivity. }
  rewrite Hs.
  destruct (Install.calculate_file_hash script_source) as [|c h] eqn:Hh;
    [congruence|].
  cbn [Install.truthy negb]. rewrite eqb_refl. reflexivity.
Qed.

(** X5. A run that the self-check accepted is accepted again without a
    word: when the digest of the script is not empty, has no white space
    at its ends and no CR (a hexadecimal digest is such), and [self_check]
    returned True, a second [self_check] in the state the first one left
    returns True, prints nothing, asks nothing and writes nothing. *)
Theorem self_check_again :
  forall (s s1 : State W),
    Install.calculate_file_hash script_source <> [] ->
    trimmed (Install.calculate_file_hash script_source) ->
    ~ In PyStr.CR (Install.calculate_file_hash script_source) ->
    Install.self_check s = (true, s1) ->
    Install.self_check s1 = (true, s1).
Proof.
  intros s s1 Hne Ht Hcr Hrun. apply (self_check_silent s1 Hne).
  unfold Install.self_check, bind in Hrun.
  assert (Hs : Install.load_script_hash s
               = (fst (Install.load_script_hash s), s)).
  { unfold Install.load_script_hash, read_file, bind, ret.
    destruct (files s Install.HASH_FILE); reflexivity. }
  rewrite Hs in Hrun.
  destruct (fst (Install.load_script_hash s)) as [|c saved] eqn:Hsaved.
  - cbn [Install.truthy negb] in Hrun.
    unfold print, emit, Install.save_script_hash, write_file, ret in Hrun.
    cbn in Hrun. injection Hrun as <-.
    rewrite (load_stored_hash _ _ _ _ Ht Hcr). reflexivity.
  - cbn [Install.truthy negb] in Hrun.
    destruct (PyStr.eqb (Install.calculate_file_hash script_source) (c :: saved))
      eqn:Heq.
    + cbn [negb] in Hrun. injection Hrun as <-.
      apply eqb_eq in Heq. rewrite Hsaved. symmetry. exact Heq.
    + cbn [negb] in Hrun.
      unfold print, emit, input, Install.save_script_hash, write_file, ret in Hrun.
      cbn [world files log] in Hrun.
      destruct (stdin_line (world s)) as [answer w].
      destruct (PyStr.eqb (PyStr.lower answer) "y"); [|discriminate Hrun].
      cbn in Hrun. injection Hrun as <-.
      rewrite (load_stored_hash _ _ _ _ Ht Hcr). reflexivity.
Qed.

End SelfCheckAgain.

(** ** Computations that leave the other files alone *)

Section Frames.
Context {W : Type} {host : Host W}.

Lemma writes_only_ret {A : Type} path (a : A) : writes_only path (@ret W A a).
Proof. intros s p _. reflexivity. Qed.

Lemma writes_only_bind {A B : Type} path (c : M W A) (k : A -> M W B) :
  writes_only path c -> (forall a, writes_only path (k a)) ->
  writes_only path (bind c k).
Proof.
  intros Hc Hk s p Hp. unfold bind. specialize (Hc s p Hp).
  destruct (c s) as [a s1]. cbn [snd] in Hc. rewrite (Hk a s1 p Hp). exact Hc.
Qed.

Lemma writes_only_print path line : writes_only path (@print W line).
Proof. intros s p _. reflexivity. Qed.

Lemma writes_only_input path prompt : writes_only path (input prompt).
Proof.
  intros s p _. unfold input. destruct (stdin_line (world s)); reflexivity.
Qed.

Lemma writes_only_run path argv : writes_only path (run argv).
Proof.
  intros s p _. unfold run. destruct (subprocess_run argv (world s)); reflexivity.
Qed.

Lemma writes_only_try_import path name : writes_only path (try_import name).
Proof.
  intros s p _. unfold try_import. destruct (refused name); [reflexivity|].
  destruct (import_module name (world s)); reflexivity.
Qed.

Lemma writes_only_read_file path file : writes_only path (@read_file W file).
Proof. intros s p _. reflexivity. Qed.

Lemma writes_only_write_file path content :
  writes_only path (@write_file W path content).
Proof.
  intros s p Hp. unfold write_file. cbn. apply store_other, Hp.
Qed.

Lemma writes_only_append_file path content :
  writes_only path (@append_file W path content).
Proof.
  intros s p Hp. unfold append_file. cbn. apply store_other, Hp.
Qed.

Lemma writes_only_chat path request : writes_only path (chat request).
Proof.
  intros s p _. unfold chat. destruct (co_chat request (world s)); reflexivity.
Qed.

End Frames.

Ltac frame_step :=
  match goal with
  | |- writes_only _ (bind _ _) => apply writes_only_bind; [|intros ?]
  | |- writes_only _ (ret _) => apply writes_only_ret
  | |- writes_only _ (print _) => apply writes_only_print
  | |- writes_only _ (input _) => apply writes_only_input
  | |- writes_only _ (run _) => apply writes_only_run
  | |- writes_only _ (try_import _) => apply writes_only_try_import
  | |- writes_only _ (read_file _) => apply writes_only_read_file
  | |- writes_only _ (write_file _ _) => apply writes_only_write_file
  | |- writes_only _ (append_file _ _) => apply writes_only_append_file
  | |- writes_only _ (chat _) => apply writes_only_chat
  | |- writes_only _ (if ?b then _ else _) => destruct b
  | |- writes_only _ (match ?x with _ => _ end) => destruct x
  | |- writes_only _ (let (_, _) := ?x in _) => destruct x
  end.

(** ** The files the installer writes *)

Section InstallerFiles.
Context {W : Type} {host : Host W}.

Lemma writes_only_try_variations path variations :
  writes_only path (Install.try_variations variations).
Proof.
  induction variations as [|v vs IH]; cbn [Install.try_variations];
    repeat frame_step. exact IH.
Qed.

Lemma writes_only_verify_installation path package :
  writes_only path (Install.verify_installation package).
Proof.
  unfold Install.verify_installation. repeat frame_step.
  apply writes_only_try_variations.
Qed.

Lemma writes_only_uninstall_all path installed :
  writes_only path (Install.uninstall_all installed).
Proof.
  induction installed as [|p ps IH]; cbn [Install.uninstall_all];
    repeat frame_step; [|exact IH].
  unfold Install.uninstall_package. repeat frame_step.
Qed.

Lemma writes_only_install_loop path requirements :
  forall installed, writes_only path (Install.install_loop requirements installed).
Proof.
  induction requirements as [|package rest IH]; intros installed;
    cbn [Install.install_loop]; [apply writes_only_ret|].
  destruct (negb (Install.validate_package_name package)).
  - repeat frame_step. apply IH.
  - apply writes_only_bind;
      [unfold Install.install_package; repeat frame_step|].
    intros [success output]. destruct success.
    + apply writes_only_bind; [apply writes_only_print|]. intros _.
      apply writes_only_bind; [apply writes_only_verify_installation|].
      intros verified. destruct verified; repeat frame_step; apply IH.
    + apply writes_only_bind; [apply writes_only_print|]. intros _.
      apply writes_only_bind; [apply writes_only_print|]. intros _.
      apply writes_only_bind; [apply writes_only_input|]. intros answer.
      destruct (PyStr.eqb (PyStr.lower answer) "y").
      * apply writes_only_bind; [apply writes_only_uninstall_all|]. intros _.
        repeat frame_step.
      * apply IH.
Qed.

Lemma writes_only_self_check :
  writes_only Install.HASH_FILE Install.self_check.
Proof.
  unfold Install.self_check, Install.load_script_hash, Install.save_script_hash.
  repeat frame_step.
Qed.

(** X6. The installer writes one file at most, its digest file: whatever
    happens in [main], every other file of the store, the manifest among
    them, is after it what it was before. *)
Theorem main_writes_only_hash_file :
  forall (s : State W) (path : str),
    path <> Install.HASH_FILE ->
    files (snd (Install.main s)) path = files s path.
Proof.
  intros s path Hpath. revert s path Hpath.
  change (writes_only Install.HASH_FILE Install.main).
  unfold Install.main.
  apply writes_only_bind; [apply writes_only_self_check|]. intros ok.
  destruct (negb ok); [apply writes_only_print|].
  apply writes_only_bind;
    [unfold Install.check_python_installation; repeat frame_step|].
  intros ok2. destruct (negb ok2); [repeat frame_step|].
  apply writes_only_bind; [apply writes_only_read_file|]. intros f.
  destruct f; [|apply writes_only_print].
  apply writes_only_bind;
    [unfold Install.read_requirements; repeat frame_step|].
  intros requirements. destruct (negb (Install.truthy requirements));
    [apply writes_only_print|].
  apply writes_only_bind; [apply writes_only_print|]. intros _.
  apply writes_only_bind; [apply writes_only_install_loop|]. intros r.
  destruct (fst r); repeat frame_step.
Qed.

End InstallerFiles.

(** ** Triples *)

Lemma triple_ret {W A : Type} (pre : State W -> Prop) (a : A)
  (post : A -> State W -> Prop) :
  (forall s, pre s -> post a s) -> triple pre (ret a) post.
Proof. intros H s Hs. apply H, Hs. Qed.

Lemma triple_bind {W A B : Type} (pre : State W -> Prop) (c : M W A)
  (mid : A -> State W -> Prop) (k : A -> M W B) (post : B -> State W -> Prop) :
  triple pre c mid -> (forall a, triple (mid a) (k a) post) ->
  triple pre (bind c k) post.
Proof.
  intros Hc Hk s Hs. unfold bind. specialize (Hc s Hs).
  destruct (c s) as [a s1]. apply (Hk a s1 Hc).
Qed.

Lemma triple_weaken {W A : Type} (pre pre' : State W -> Prop) (c : M W A)
  (post post' : A -> State W -> Prop) :
  (forall s, pre' s -> pre s) -> (forall a s, post a s -> post' a s) ->
  triple pre c post -> triple pre' c post'.
Proof. intros Hpre Hpost H s Hs. apply Hpost, H, Hpre, Hs. Qed.

Lemma triple_pure {W A : Type} (pre : State W -> Prop) (Q : Prop) (c : M W A)
  (post : A -> State W -> Prop) :
  (Q -> triple pre c post) -> triple (fun s => pre s /\ Q) c post.
Proof. intros H s [Hs HQ]. apply (H HQ s Hs). Qed.

Lemma extends_refl {W : Type} (P : list str -> Prop) (s : State W) : extends P s s.
Proof. exists []. rewrite app_nil_r. split; [reflexivity | constructor]. Qed.

Lemma extends_trans {W : Type} (P : list str -> Prop) (s1 s2 s3 : State W) :
  extends P s1 s2 -> extends P s2 s3 -> extends P s1 s3.
Proof.
  intros (L1 & H1 & P1) (L2 & H2 & P2). exists (L1 ++ L2).
  rewrite H2, H1, <- app_assoc. split; [reflexivity|].
  rewrite commands_app. apply Forall_app. split; assumption.
Qed.

Lemma extends_quiet {W : Type} (P : list str -> Prop) (s s' : State W) L :
  log s' = log s ++ L -> commands L = [] -> extends P s s'.
Proof. intros H Hc. exists L. rewrite Hc. split; [exact H | constructor]. Qed.

Lemma extends_impl {W : Type} (P Q : list str -> Prop) (s s' : State W) :
  (forall argv, P argv -> Q argv) -> extends P s s' -> extends Q s s'.
Proof.
  intros H (L & Hlog & HP). exists L. split; [exact Hlog|].
  apply (Forall_impl _ H HP).
Qed.

(** ** The commands of the installer *)

Section InstallerCommands.
Context {W : Type} {host : Host W}.
Variable s0 : State W.

(** What holds all along [main]: only commands of [main] were run since
    [s0], and the manifest is the one of [s0]. *)
Let along (s : State W) : Prop :=
  extends (main_command s0) s0 s
  /\ files s Install.requirements_file = files s0 Install.requirements_file.

Lemma along_logged (s : State W) events :
  commands events = [] -> along s -> along (logged events s).
Proof.
  intros Hc [He Hf]. split; [|exact Hf].
  apply (extends_trans _ _ _ _ He). apply (extends_quiet _ _ _ events); trivial.
Qed.

Lemma triple_print line (A := unit) :
  triple along (print line) (fun _ => along).
Proof. intros s Hs. apply (along_logged s [Print line] eq_refl Hs). Qed.

Lemma triple_self_check : triple along Install.self_check (fun _ => along).
Proof.
  intros s [He Hf].
  assert (Hquiet : exists L, log (snd (Install.self_check s)) = log s ++ L
                             /\ commands L = []).
  { unfold Install.self_check, Install.load_script_hash, read_file, bind, ret.
    destruct (files s Install.HASH_FILE) as [content|]; cbn [fst snd].
    - destruct (negb (Install.truthy _));
        [exists [Print first_run_line]; split; reflexivity|].
      destruct (negb (PyStr.eqb _ _));
        [|exists []; rewrite app_nil_r; split; reflexivity].
      unfold print, emit, input. cbn [world files log].
      destruct (stdin_line (world s)) as [answer w].
      destruct (PyStr.eqb (PyStr.lower answer) "y"); cbn;
        rewrite <- app_assoc; eexists; split; reflexivity.
    - cbn. exists [Print first_run_line]. split; reflexivity. }
  destruct Hquiet as (L & Hlog & Hc). split.
  - apply (extends_trans _ _ _ _ He), (extends_quiet _ _ _ L Hlog Hc).
  - rewrite <- Hf. apply writes_only_self_check. discriminate.
Qed.

Lemma triple_check_python_installation :
  triple along Install.check_python_installation (fun _ => along).
Proof.
  intros s [He Hf]. unfold Install.check_python_installation, bind, run, ret.
  fold version_command.
  destruct (subprocess_run version_command (world s)) as [p w]. cbn.
  split; [|exact Hf]. apply (extends_trans _ _ _ _ He).
  exists [Run version_command (returncode p)]. split; [reflexivity|].
  constructor; [left; reflexivity | constructor].
Qed.

Lemma triple_read_requirements :
  triple along (Install.read_requirements Install.requirements_file)
         (fun requirements s =>
            along s /\ requirements = manifest_requirements s0).
Proof.
  intros s Hs. unfold Install.read_requirements, read_file, bind, ret.
  unfold manifest_requirements. destruct Hs as [He Hf]. rewrite <- Hf.
  destruct (files s Install.requirements_file) as [content|] eqn:Hfile;
    cbn [fst snd].
  - split; [|reflexivity]. split; [exact He | rewrite Hfile; exact Hf].
  - split; [|reflexivity]. apply (along_logged s [Print _] eq_refl).
    split; [exact He | rewrite Hfile; exact Hf].
Qed.

Lemma triple_install_loop :
  triple along (Install.install_loop (manifest_requirements s0) [])
         (fun _ => along).
Proof.
  intros s [He Hf].
  pose proof (writes_only_install_loop Install.HASH_FILE
                (manifest_requirements s0) [] s Install.requirements_file)
    as Hkeep.
  destruct (Install.install_loop (manifest_requirements s0) [] s) as [r s']
    eqn:Hrun.
  cbn [snd] in *. split.
  - apply (extends_trans _ _ _ _ He).
    destruct (@install_loop_commands W host (manifest_requirements s0) [] s s' r
                Hrun (Forall_nil _)) as (L & Hlog & Hall).
    rewrite app_nil_r in Hall. exists L. split; [exact Hlog|].
    apply (Forall_impl _ (fun argv H => or_intror H) Hall).
  - rewrite <- Hf. apply Hkeep. discriminate.
Qed.

Lemma triple_print_ret {A : Type} line (a : A) :
  triple along (print line ;; ret a)%monad (fun _ => along).
Proof.
  apply (triple_bind _ _ (fun _ => along)); [apply triple_print|].
  intros _. apply triple_ret. trivial.
Qed.

Lemma main_along : triple along Install.main (fun _ => along).
Proof.
  unfold Install.main.
  apply (triple_bind _ _ (fun _ => along)); [apply triple_self_check|].
  intros ok. destruct (negb ok); [apply triple_print_ret|].
  apply (triple_bind _ _ (fun _ => along));
    [apply triple_check_python_installation|].
  intros ok2. destruct (negb ok2).
  { apply (triple_bind _ _ (fun _ => along)); [apply triple_print|].
    intros _. apply triple_print_ret. }
  apply (triple_bind _ _ (fun _ => along)); [intros s Hs; exact Hs|].
  intros f. destruct f as [content|]; [|apply triple_print_ret].
  apply (triple_bind _ _ _ _ _ triple_read_requirements).
  intros requirements.
  destruct (negb (Install.truthy requirements)).
  { apply (triple_weaken along _ _ (fun _ => along));
      [intros s [H _]; exact H | trivial | apply triple_print_ret]. }
  intros s [Hs ->]. revert s Hs.
  change (triple along
            (bind (print "Installing packages...")
               (fun _ => bind (Install.install_loop (manifest_requirements s0) [])
                  (fun r => match fst r with
                            | Install.Raised e => ret (Raises e)
                            | Install.Returned => ret (Returns tt)
                            | Install.Finished =>
                                bind (print "Installation process completed.")
                                  (fun _ => bind (print "The hash file is to check if the install script hasn't been modified to prevent malicious use of the install script from the user or external parties.")
                                     (fun _ => ret (Returns tt)))
                            end)))
            (fun _ => along)).
  apply (triple_bind _ _ (fun _ => along)); [apply triple_print|]. intros _.
  apply (triple_bind _ _ (fun _ => along)); [apply triple_install_loop|].
  intros r. destruct (fst r).
  - apply (triple_bind _ _ (fun _ => along)); [apply triple_print|].
    intros _. apply triple_print_ret.
  - apply triple_ret. trivial.
  - apply triple_ret. trivial.
Qed.

End InstallerCommands.

(** X7. Every command [main] runs is the version check of the interpreter
    or a command of the package manager (install, metadata query or
    uninstall) for a requirement of the manifest that passed validation.
    With no manifest, or one without requirements, it runs nothing but the
    version check. *)
Theorem main_commands :
  forall (W : Type) (host : Host W) (s : State W),
    exists L,
      log (snd (Install.main s)) = log s ++ L
      /\ Forall (main_command s) (commands L)
      /\ (manifest_requirements s = [] ->
          Forall (eq version_command) (commands L)).
Proof.
  intros W host s.
  destruct (main_along s s (conj (extends_refl _ s) eq_refl))
    as [(L & Hlog & Hall) _].
  exists L. split; [exact Hlog|]. split; [exact Hall|].
  intros Hnone. apply (Forall_impl _ (P := main_command s)); [|exact Hall].
  intros argv [H | (package & Hin & _)]; [symmetry; exact H|].
  rewrite Hnone in Hin. destruct Hin.
Qed.

(** ** The record of the loop and the uninstalls *)

Section LoopRecord.
Context {W : Type} {host : Host W}.

Lemma filter_uninstall_commands installed :
  filter is_uninstall (map uninstall_command installed)
  = map uninstall_command installed.
Proof.
  induction installed as [|p ps IH]; [reflexivity|].
  cbn [map filter]. change (is_uninstall (uninstall_command p)) with true.
  rewrite IH. reflexivity.
Qed.

Lemma install_loop_record_from requirements :
  forall installed (s s' : State W) fl record,
    Install.install_loop requirements installed s = ((fl, record), s') ->
    Forall (fun p => Install.validate_package_name p = true) installed ->
    exists mask L,
      log s' = log s ++ L
      /\ record = installed ++ verified_of requirements mask
      /\ Forall (fun p => Install.validate_package_name p = true) record
      /\ filter is_uninstall (commands L)
         = match fl with
           | Install.Returned => map uninstall_command record
           | Install.Finished | Install.Raised _ => []
           end.
Proof.
  induction requirements as [|package rest IH];
    intros installed s s' fl record Hrun Hinst.
  - injection Hrun as <- <- <-. exists [], []. rewrite !app_nil_r.
    repeat split. exact Hinst.
  - destruct (Install.validate_package_name package) eqn:Hv.
    + destruct (Install.install_package package s) as [[success output] s1] eqn:Hi.
      destruct (install_package_log _ _ Hi) as (code & Hlog1).
      destruct success.
      * destruct (Install.verify_installation package
                    (logged [Print ("Successfully installed " ++ package)] s1))
          as [verdict s2] eqn:Hvf.
        destruct (verify_installation_log _ _ Hvf)
          as (Lv & Hlog2 & _ & _ & _ & Hcv & _).
        assert (Hfv : filter is_uninstall (commands Lv) = [])
          by (destruct Hcv as [-> | [-> _]]; reflexivity).
        cbn [logged log] in Hlog2. rewrite Hlog1 in Hlog2.
        destruct verdict as [[|]|e].
        3:{ erewrite install_loop_raised in Hrun by eassumption.
            injection Hrun as <- <- <-. exists []. eexists.
            split; [rewrite Hlog2, <- !app_assoc; reflexivity|].
            split; [cbn; rewrite app_nil_r; reflexivity|].
            split; [exact Hinst|].
            cbn [app commands filter].
            change (is_uninstall (install_command package)) with false.
            cbv iota. exact Hfv. }
        -- erewrite install_loop_verified in Hrun by eassumption.
           apply IH in Hrun.
           2:{ apply Forall_app. split; [exact Hinst|].
               constructor; [exact Hv | constructor]. }
           destruct Hrun as (mask & L & Hlog & Hrec & Hvalid & Hun).
           cbn [logged log] in Hlog. rewrite Hlog2 in Hlog.
           exists (true :: mask). eexists.
           split; [rewrite Hlog, <- !app_assoc; reflexivity|].
           split; [rewrite Hrec, <- app_assoc; reflexivity|].
           split; [exact Hvalid|].
           cbn [app commands]. rewrite ?commands_app. cbn [commands app].
           cbn [filter]. change (is_uninstall (install_command package)) with false.
           cbv iota. rewrite filter_app, Hfv. exact Hun.
        -- erewrite install_loop_unverified in Hrun by eassumption.
           apply IH in Hrun; [|exact Hinst].
           destruct Hrun as (mask & L & Hlog & Hrec & Hvalid & Hun).
           cbn [logged log] in Hlog. rewrite Hlog2 in Hlog.
           exists (false :: mask). eexists.
           split; [rewrite Hlog, <- !app_assoc; reflexivity|].
           split; [exact Hrec|]. split; [exact Hvalid|].
           cbn [app commands]. rewrite ?commands_app. cbn [commands app].
           cbn [filter]. change (is_uninstall (install_command package)) with false.
           cbv iota. rewrite filter_app, Hfv. exact Hun.
      * pose proof (@install_loop_failed _ _ package rest installed s s1 output
                      Hv Hi) as Hstep.
        cbv zeta in Hstep. rewrite Hstep in Hrun. clear Hstep.
        destruct (PyStr.eqb _ _).
        -- injection Hrun as <- <- <-.
           match goal with
           | |- context [Install.uninstall_all installed ?st] =>
               destruct (uninstall_all_log installed st)
                 as (Lu & Hlogu & Hcu & _)
           end.
           exists []. eexists.
           split; [cbn [logged log] in *; rewrite Hlogu, Hlog1, <- !app_assoc;
                   reflexivity|].
           split; [destruct rest; cbn; rewrite app_nil_r; reflexivity|].
           split; [exact Hinst|].
           cbn [app commands]. rewrite ?commands_app. cbn [commands app].
           cbn [filter]. change (is_uninstall (install_command package)) with false.
           cbv iota. rewrite !filter_app, Hcu, filter_uninstall_commands. cbn.
           apply app_nil_r.
        -- apply IH in Hrun; [|exact Hinst].
           destruct Hrun as (mask & L & Hlog & Hrec & Hvalid & Hun).
           cbn [logged log] in Hlog. rewrite Hlog1 in Hlog.
           exists (false :: mask). eexists.
           split; [rewrite Hlog, <- !app_assoc; reflexivity|].
           split; [exact Hrec|]. split; [exact Hvalid|].
           cbn [app commands]. rewrite ?commands_app. cbn [commands app].
           cbn [filter]. change (is_uninstall (install_command package)) with false.
           cbv iota. exact Hun.
    + rewrite (install_loop_invalid _ _ _ _ Hv) in Hrun.
      apply IH in Hrun; [|exact Hinst].
      destruct Hrun as (mask & L & Hlog & Hrec & Hvalid & Hun).
      cbn [logged log] in Hlog.
      exists (false :: mask). eexists.
      split; [rewrite Hlog, <- !app_assoc; reflexivity|].
      split; [exact Hrec|]. split; [exact Hvalid|].
      cbn [app commands]. exact Hun.
Qed.

(** X8. The record the loop leaves is a selection of the requirements, in
    their order, all of which passed validation.  Uninstall commands are
    run only when the loop returns for a rollback, and then they are the
    uninstalls of the record, in order; a loop that runs to its end, or
    that an exception of the verification ends, has uninstalled nothing. *)
Theorem install_loop_record :
  forall (requirements : list str) (s s' : State W) (fl : Install.flow)
         (record : list str),
    Install.install_loop requirements [] s = ((fl, record), s') ->
    exists mask L,
      log s' = log s ++ L
      /\ record = verified_of requirements mask
      /\ Forall (fun p => Install.validate_package_name p = true) record
      /\ filter is_uninstall (commands L)
         = match fl with
           | Install.Returned => map uninstall_command record
           | Install.Finished | Install.Raised _ => []
           end.
Proof.
  intros requirements s s' fl record Hrun.
  apply (install_loop_record_from requirements [] s s' fl record Hrun).
  constructor.
Qed.

End LoopRecord.

(** ** What validation accepts *)

(** X9. [validate_package_name] accepts exactly the strings of a name, or of
    a name, an operator and a version, where an operator is one of the
    characters less-than, greater-than, equals and exclamation mark with or
    without an equals sign after it, and the same strings followed by one
    line feed.  So the empty string is rejected, an accepted string begins
    with a name character, and a lone [=] or [!] counts as an operator. *)
Theorem validate_package_name_accepts :
  (forall s,
      Install.validate_package_name s = true <->
      requirement_with pattern_operator s
      \/ exists g, s = g ++ [PyStr.LF] /\ requirement_with pattern_operator g)
  /\ Install.validate_package_name [] = false
  /\ (forall s, Install.validate_package_name s = true ->
        exists c t, s = c :: t /\ name_char c = true)
  /\ (forall name version,
        word name -> word version ->
        Install.validate_package_name (name ++ "=" ++ version) = true
        /\ Install.validate_package_name (name ++ "!" ++ version) = true).
Proof.
  split; [apply validate_package_name_iff|]. split; [reflexivity|]. split.
  - intros s Hs. apply validate_package_name_iff in Hs.
    assert (Hreq : forall g, requirement_with pattern_operator g ->
                     exists c t, g = c :: t /\ name_char c = true).
    { intros g [[Hne Hall] | (name & op & version & -> & [Hne Hall] & _)].
      - destruct g as [|c t]; [congruence|]. exists c, t.
        split; [reflexivity | apply (Forall_inv Hall)].
      - destruct name as [|c t]; [congruence|]. eexists c, _.
        split; [reflexivity | apply (Forall_inv Hall)]. }
    destruct Hs as [Hg | (g & -> & Hg)]; [apply Hreq, Hg|].
    destruct (Hreq g Hg) as (c & t & -> & Hc). eexists c, _.
    split; [reflexivity | exact Hc].
  - intros name version Hn Hv.
    split; apply validate_package_name_iff; left; right;
      [exists name, ("=" : str), version | exists name, ("!" : str), version];
      (split; [reflexivity|]); (split; [exact Hn|]); (split; [|exact Hv]).
    + exists "="%char. split; [reflexivity | left; reflexivity].
    + exists "!"%char. split; [reflexivity | left; reflexivity].
Qed.

(** ** The download instructions *)

(** X10. Whatever the platform is called, [get_python_download_instructions]
    names a page under https://www.python.org/downloads/; the page for
    Windows, macOS or the sources is chosen by the name of the platform
    without regard to case. *)
Theorem download_instructions_page :
  forall (W : Type) (host : Host W),
    PyStr.contains "https://www.python.org/downloads/"
      Install.get_python_download_instructions = true
    /\ (PyStr.lower platform_system = "windows" ->
        PyStr.contains "/downloads/windows/"
          Install.get_python_download_instructions = true)
    /\ (PyStr.lower platform_system = "darwin" ->
        PyStr.contains "/downloads/mac-osx/"
          Install.get_python_download_instructions = true)
    /\ (PyStr.lower platform_system = "linux" ->
        PyStr.contains "/downloads/source/"
          Install.get_python_download_instructions = true).
Proof.
  intros W host. unfold Install.get_python_download_instructions.
  split; [|split; [|split]].
  - destruct (PyStr.eqb _ _); [vm_compute; reflexivity|].
    destruct (PyStr.eqb _ _); [vm_compute; reflexivity|].
    destruct (PyStr.eqb _ _); vm_compute; reflexivity.
  - intros ->. vm_compute. reflexivity.
  - intros ->. vm_compute. reflexivity.
  - intros ->. vm_compute. reflexivity.
Qed.

(** ** The check of the interpreter *)

(** X11. When the self-check has accepted the run and the version check of
    the interpreter exits with another code than 0, [main] prints the error
    and the download instructions and ends: the version check is the one
    command it ran, no file is touched after the self-check, and the user
    is asked nothing. *)
Theorem python_check_failure_stops_main :
  forall (W : Type) (host : Host W) (s s1 : State W) (p : completed) (w : W),
    Install.self_check s = (true, s1) ->
    subprocess_run version_command (world s1) = (p, w) ->
    returncode p <> 0 ->
    log (snd (Install.main s))
    = log s1
      ++ [Run version_command (returncode p);
          Print "Error: Python is not installed or not accessible.";
          Print Install.get_python_download_instructions]
    /\ files (snd (Install.main s)) = files s1.
Proof.
  intros W host s s1 p w Hself Hrun Hcode.
  assert (Hmain : Install.main s
                  = (Returns tt, mkState w (files s1)
                           (log s1
                            ++ [Run version_command (returncode p);
                                Print "Error: Python is not installed or not accessible.";
                                Print Install.get_python_download_instructions]))).
  { unfold Install.main. unfold bind at 1. rewrite Hself. cbn [negb].
    unfold Install.check_python_installation, run, bind, ret.
    fold (@version_command W host). rewrite Hrun.
    apply Z.eqb_neq in Hcode. cbn [world files log]. rewrite Hcode. cbn [negb].
    unfold print, emit. cbn [fst snd world files log].
    rewrite <- !app_assoc. reflexivity. }
  rewrite Hmain. split; reflexivity.
Qed.

(** The installer on a host where the interpreter cannot be run. *)
Lemma python_check_failure_stops_main_witness :
  commands (log (snd (Install.main (Scripted.start MoreSamples.no_python
                                      Scripted.no_files))))
  = [version_command].
Proof.
  assert (Hself : Install.self_check
                    (Scripted.start MoreSamples.no_python Scripted.no_files)
                  = (true,
                     snd (Install.self_check
                            (Scripted.start MoreSamples.no_python
                                            Scripted.no_files))))
    by (vm_compute; reflexivity).
  destruct (python_check_failure_stops_main Scripted.Script Scripted.host
              (Scripted.start MoreSamples.no_python Scripted.no_files) _
              (mkCompleted 1 [] []) MoreSamples.no_python Hself)
    as [Hlog _].
  - reflexivity.
  - discriminate.
  - rewrite Hlog. vm_compute. reflexivity.
Defined.

(** ** The number of requests of the expansion loop *)

Lemma request_count_bounds deficit :
  0 < deficit ->
  50 * (Z.of_nat (request_count deficit) - 1) < deficit
  <= 50 * Z.of_nat (request_count deficit).
Proof.
  intros Hd. unfold request_count.
  assert (H0 : 0 <= (deficit + 49) / 50) by (apply Z.div_pos; lia).
  rewrite Z2Nat.id by exact H0.
  pose proof (Z.div_mod (deficit + 49) 50 ltac:(lia)) as Hdm.
  pose proof (Z.mod_pos_bound (deficit + 49) 50 ltac:(lia)) as Hb.
  lia.
Qed.

Lemma batch_plan_length n :
  forall deficit,
    (Z.to_nat deficit <= n)%nat -> 0 <= deficit ->
    List.length (batch_plan n deficit) = request_count deficit.
Proof.
  induction n as [|n IH]; intros deficit Hn Hd.
  - assert (deficit = 0) by lia. subst deficit. reflexivity.
  - cbn [batch_plan]. destruct (0 <? deficit) eqn:Hpos.
    + apply Z.ltb_lt in Hpos. cbn [List.length]. rewrite IH by lia.
      unfold request_count. destruct (Z.le_gt_cases 50 deficit) as [Hbig | Hsmall].
      * rewrite Z.min_l by lia.
        replace (deficit + 49) with (deficit - 50 + 49 + 1 * 50) by lia.
        rewrite Z.div_add by lia.
        assert (0 <= (deficit - 50 + 49) / 50) by (apply Z.div_pos; lia). lia.
      * rewrite Z.min_r by lia.
        replace (deficit - deficit + 49) with 49 by lia.
        assert (Hone : (deficit + 49) / 50 = 1)
          by (symmetry; apply (Z.div_unique _ _ 1 (deficit - 1)); lia).
        rewrite Hone. reflexivity.
    + apply Z.ltb_ge in Hpos. assert (deficit = 0) by lia. subst deficit.
      reflexivity.
Qed.

(** X12. To add [rows_to_add] rows the loop asks the chat API the deficit
    over 50, rounded up, times at most, and exactly so many times when it
    runs to its end. *)
Theorem expansion_loop_request_count :
  forall (W : Type) (host : Host W) (sample_df : DataFrame)
         (analysis output_file : str) (rows_to_add : Z)
         (s s' : State W) (e : Expander.loop_exit),
    0 < rows_to_add ->
    Expander.expansion_loop (Z.to_nat rows_to_add) sample_df analysis output_file
                            rows_to_add 0 s = (e, s') ->
    (exists asked,
        List.length (chat_requests (log s'))
        = (List.length (chat_requests (log s)) + asked)%nat
        /\ (asked <= request_count rows_to_add)%nat
        /\ (forall n, e = Expander.Complete n -> asked = request_count rows_to_add))
    /\ 50 * (Z.of_nat (request_count rows_to_add) - 1) < rows_to_add
       <= 50 * Z.of_nat (request_count rows_to_add).
Proof.
  intros W host sample_df analysis output_file rows_to_add s s' e Hpos Hrun.
  split; [|apply request_count_bounds, Hpos].
  destruct (@expansion_loop_plan W host sample_df analysis output_file
              (Z.to_nat rows_to_add) rows_to_add 0 s s' e ltac:(lia) Hrun)
    as (sizes & [rest Hini] & Hreq & _ & Hdone).
  replace (rows_to_add - 0) with rows_to_add in * by lia.
  pose proof (batch_plan_length (Z.to_nat rows_to_add) rows_to_add
                ltac:(lia) ltac:(lia)) as Hlen.
  exists (List.length sizes). split; [|split].
  - rewrite Hreq, length_app, length_map. reflexivity.
  - rewrite <- Hlen, Hini, length_app. lia.
  - intros n Hn. destruct (Hdone n Hn) as [-> _]. exact Hlen.
Qed.

(** ** Reading back what was appended *)

Lemma complete_nil : complete [].
Proof. split; [left; reflexivity | reflexivity]. Qed.


(** ** Responses without quote characters *)

Lemma process_line_fields line :
  forall st acc cur,
    st = Csv.START_FIELD \/ st = Csv.IN_FIELD ->
    no_newline line -> no_quote line ->
    (N.of_nat (List.length cur + List.length line) <= Csv.field_limit)%N ->
    Csv.process_line (Csv.mkReader st acc (rev cur)) line
    = Some (Csv.mkReader Csv.START_RECORD
              (acc ++ PyStr.split_scan [Csv.delimiter] cur 0 line) []).
Proof.
  induction line as [|c line IH]; intros st acc cur Hst Hnl Hq Hlen.
  - destruct Hst as [-> | ->]; reflexivity.
  - assert (Hn : Csv.is_newline c = false) by apply (Forall_inv Hnl).
    assert (Hc : Ascii.eqb c Csv.quotechar = false).
    { apply Ascii.eqb_neq. intros ->. apply Hq. left. reflexivity. }
    assert (Hq' : no_quote line) by (intros H; apply Hq; right; exact H).
    apply Forall_inv_tail in Hnl. cbn [List.length] in Hlen.
    rewrite split_scan_char_cons, (Ascii.eqb_sym Csv.delimiter c).
    unfold Csv.process_line. cbn [Csv.process_chars].
    destruct (Ascii.eqb c Csv.delimiter) eqn:Hd.
    + assert (Hstep : Csv.parse_process_char (Csv.mkReader st acc (rev cur)) (Some c)
                      = Some (Csv.mkReader Csv.START_FIELD (acc ++ [rev cur]) [])).
      { destruct Hst as [-> | ->]; unfold Csv.parse_process_char, Csv.start_field;
          cbn [Csv.state]; rewrite Hn, ?Hc, Hd; reflexivity. }
      rewrite Hstep.
      specialize (IH Csv.START_FIELD (acc ++ [rev cur]) [] (or_introl eq_refl)
                     Hnl Hq' ltac:(cbn [List.length]; lia)).
      unfold Csv.process_line in IH. cbn [rev] in IH. rewrite IH.
      rewrite <- app_assoc. reflexivity.
    + assert (Hstep : Csv.parse_process_char (Csv.mkReader st acc (rev cur)) (Some c)
                      = Some (Csv.mkReader Csv.IN_FIELD acc (rev (c :: cur)))).
      { assert (Hlt : (N.of_nat (List.length (rev cur)) < Csv.field_limit)%N)
          by (rewrite length_rev; lia).
        destruct Hst as [-> | ->]; unfold Csv.parse_process_char, Csv.start_field;
          cbn [Csv.state]; rewrite Hn, ?Hc, Hd;
          rewrite (parse_add_char_ok _ _ _ _ Hlt); reflexivity. }
      rewrite Hstep.
      specialize (IH Csv.IN_FIELD acc (c :: cur) (or_intror eq_refl)
                     Hnl Hq' ltac:(cbn [List.length]; lia)).
      unfold Csv.process_line in IH. exact IH.
Qed.

Lemma process_line_fields_of line :
  no_newline line -> no_quote line -> within_limit line ->
  Csv.process_line Csv.parse_reset line
  = Some (Csv.mkReader Csv.START_RECORD (fields_of line) []).
Proof.
  intros Hnl Hq Hlen. destruct line as [|c line]; [reflexivity|].
  pose proof (process_line_fields (c :: line) Csv.START_FIELD [] []
                (or_introl eq_refl) Hnl Hq Hlen) as H.
  cbn [rev app] in H. unfold fields_of, PyStr.split. rewrite <- H.
  unfold Csv.process_line, Csv.parse_reset. cbn [Csv.process_chars].
  assert (Hn : Csv.is_newline c = false) by apply (Forall_inv Hnl).
  unfold Csv.parse_process_char at 1 3. cbn [Csv.state]. rewrite Hn.
  reflexivity.
Qed.

Lemma read_rows_fields_of lines :
  Forall no_newline lines -> Forall no_quote lines -> Forall within_limit lines ->
  Csv.read_rows Csv.parse_reset lines = Csv.mkRows (map fields_of lines) false.
Proof.
  induction lines as [|line lines IH]; intros Hnl Hq Hlen; [reflexivity|].
  cbn [Csv.read_rows map].
  rewrite (process_line_fields_of line (Forall_inv Hnl) (Forall_inv Hq)
             (Forall_inv Hlen)).
  cbn [Csv.state Csv.state_eqb Csv.fields].
  rewrite (IH (Forall_inv_tail Hnl) (Forall_inv_tail Hq) (Forall_inv_tail Hlen)).
  reflexivity.
Qed.

Lemma splitlines_scan_chars (P : ascii -> Prop) s :
  Forall P s ->
  forall cur, Forall P cur -> Forall (Forall P) (PyStr.splitlines_scan cur s).
Proof.
  induction s as [| a | a b s IH1 IH2] using list_pair_ind; intros Hs cur Hcur.
  - cbn. destruct cur; [constructor|].
    constructor; [apply Forall_rev, Hcur | constructor].
  - rewrite splitlines_scan_cons.
    destruct (Ascii.eqb a PyStr.CR);
      [constructor; [apply Forall_rev, Hcur | constructor]|].
    destruct (PyStr.is_linebreak a);
      [constructor; [apply Forall_rev, Hcur | constructor]|].
    cbn [PyStr.splitlines_scan]. constructor; [|constructor].
    apply (Forall_rev (l := a :: cur)). constructor; [apply (Forall_inv Hs) | exact Hcur].
  - pose proof (Forall_inv Hs) as Ha. apply Forall_inv_tail in Hs.
    pose proof (Forall_inv_tail Hs) as Hs'.
    rewrite splitlines_scan_cons.
    destruct (Ascii.eqb a PyStr.CR).
    + destruct (Ascii.eqb b PyStr.LF);
        (constructor; [apply Forall_rev, Hcur|]);
        [apply IH1 | apply IH2]; trivial; constructor.
    + destruct (PyStr.is_linebreak a).
      * constructor; [apply Forall_rev, Hcur|]. apply IH2; trivial; constructor.
      * apply IH2; trivial. constructor; assumption.
Qed.

Lemma splitlines_no_quote new_data :
  no_quote new_data -> Forall no_quote (PyStr.splitlines new_data).
Proof.
  intros Hq.
  assert (H : Forall (Forall (fun c => c <> Csv.quotechar))
                     (PyStr.splitlines new_data)).
  { apply splitlines_scan_chars; [|constructor].
    apply Forall_forall. intros c Hc ->. exact (Hq Hc). }
  apply (Forall_impl _ (P := Forall (fun c => c <> Csv.quotechar))); [|exact H].
  intros line Hline Hin. apply (proj1 (Forall_forall _ _) Hline _ Hin).
  reflexivity.
Qed.


(** ** Responses within the field size limit *)

Lemma parse_process_char_short r c :
  Csv.state r <> Csv.EAT_CRNL -> Csv.is_newline c = false ->
  (N.of_nat (List.length (Csv.field r)) < Csv.field_limit)%N ->
  exists r',
    Csv.parse_process_char r (Some c) = Some r'
    /\ Csv.state r' <> Csv.EAT_CRNL
    /\ (List.length (Csv.field r') <= S (List.length (Csv.field r)))%nat.
Proof.
  intros Hst Hn Hlt. destruct r as [st acc buf]. cbn [Csv.state Csv.field] in *.
  pose proof (fun st' => parse_add_char_ok st' acc buf c Hlt) as Hadd.
  destruct st; try congruence;
    unfold Csv.parse_process_char, Csv.start_field, Csv.set_state,
      Csv.parse_save_field;
    cbn [Csv.state Csv.fields Csv.field]; rewrite ?Hn;
    repeat match goal with
           | |- context [if ?b then _ else _] => destruct b
           end;
    rewrite ?Hadd; cbn [option_map Csv.state Csv.fields Csv.field];
    eexists; (split; [reflexivity|]); cbn [Csv.state Csv.field];
    (split; [discriminate|]); rewrite ?length_app; cbn [List.length]; lia.
Qed.

Lemma parse_process_char_eol r :
  exists r',
    Csv.parse_process_char r None = Some r'
    /\ Csv.state r' <> Csv.EAT_CRNL
    /\ (List.length (Csv.field r') <= List.length (Csv.field r))%nat.
Proof.
  destruct r as [st acc buf].
  destruct st; eexists; (split; [reflexivity|]); cbn;
    (split; [discriminate | lia]).
Qed.

Lemma process_chars_short line :
  forall r,
    no_newline line -> Csv.state r <> Csv.EAT_CRNL ->
    (N.of_nat (List.length (Csv.field r) + List.length line) <= Csv.field_limit)%N ->
    exists r',
      Csv.process_chars r line = Some r'
      /\ Csv.state r' <> Csv.EAT_CRNL
      /\ (List.length (Csv.field r')
          <= List.length (Csv.field r) + List.length line)%nat.
Proof.
  induction line as [|c line IH]; intros r Hnl Hst Hlen.
  - exists r. split; [reflexivity|]. split; [exact Hst | lia].
  - cbn [List.length] in Hlen.
    destruct (parse_process_char_short r c Hst (Forall_inv Hnl) ltac:(lia))
      as (r1 & Hstep & Hst1 & Hlen1).
    destruct (IH r1 (Forall_inv_tail Hnl) Hst1 ltac:(lia))
      as (r2 & Hrest & Hst2 & Hlen2).
    exists r2. cbn [Csv.process_chars List.length]. rewrite Hstep.
    split; [exact Hrest|]. split; [exact Hst2 | lia].
Qed.

Lemma total_length_cons (line : str) lines :
  total_length (line :: lines) = (List.length line + total_length lines)%nat.
Proof. reflexivity. Qed.

Lemma read_rows_short lines :
  forall r,
    Forall no_newline lines -> Csv.state r <> Csv.EAT_CRNL ->
    (N.of_nat (List.length (Csv.field r) + total_length lines)
     <= Csv.field_limit)%N ->
    Csv.failed (Csv.read_rows r lines) = false.
Proof.
  induction lines as [|line lines IH]; intros r Hnl Hst Hlen.
  - cbn [Csv.read_rows]. destruct (_ || _)%bool; reflexivity.
  - rewrite total_length_cons in Hlen.
    destruct (process_chars_short line r (Forall_inv Hnl) Hst ltac:(lia))
      as (r1 & Hchars & Hst1 & Hlen1).
    destruct (parse_process_char_eol r1) as (r2 & Heol & Hst2 & Hlen2).
    cbn [Csv.read_rows]. unfold Csv.process_line. rewrite Hchars, Heol.
    destruct (Csv.state_eqb (Csv.state r2) Csv.START_RECORD).
    + cbn [Csv.cons_row Csv.failed].
      apply IH; [exact (Forall_inv_tail Hnl) | discriminate|].
      cbn [Csv.parse_reset Csv.field List.length]. lia.
    + apply IH; [exact (Forall_inv_tail Hnl) | exact Hst2 | lia].
Qed.

Lemma splitlines_scan_total s :
  forall cur,
    (total_length (PyStr.splitlines_scan cur s)
     <= List.length cur + List.length s)%nat.
Proof.
  induction s as [| a | a b s IH1 IH2] using list_pair_ind; intros cur.
  - cbn [PyStr.splitlines_scan]. destruct cur as [|c cur]; [cbn; lia|].
    rewrite total_length_cons, length_rev. cbn. lia.
  - rewrite splitlines_scan_cons.
    destruct (Ascii.eqb a PyStr.CR);
      [rewrite total_length_cons, length_rev; cbn; lia|].
    destruct (PyStr.is_linebreak a);
      [rewrite total_length_cons, length_rev; cbn; lia|].
    cbn [PyStr.splitlines_scan].
    rewrite total_length_cons, length_rev. cbn. lia.
  - rewrite splitlines_scan_cons. destruct (Ascii.eqb a PyStr.CR).
    + destruct (Ascii.eqb b PyStr.LF); rewrite total_length_cons, length_rev.
      * specialize (IH1 []). cbn [List.length] in *. lia.
      * specialize (IH2 []). cbn [List.length] in *. lia.
    + destruct (PyStr.is_linebreak a).
      * rewrite total_length_cons, length_rev.
        specialize (IH2 []). cbn [List.length] in *. lia.
      * specialize (IH2 (a :: cur)). cbn [List.length] in *. lia.
Qed.

Lemma reader_short new_data :
  (N.of_nat (List.length new_data) <= Csv.field_limit)%N ->
  Csv.failed (Csv.reader (PyStr.splitlines new_data)) = false.
Proof.
  intros Hlen. unfold Csv.reader, PyStr.splitlines.
  apply read_rows_short.
  - apply splitlines_scan_no_newline. constructor.
  - discriminate.
  - pose proof (splitlines_scan_total new_data []) as H.
    cbn [Csv.parse_reset Csv.field List.length] in *. lia.
Qed.

Section ShortResponses.
Context {W : Type} {host : Host W}.

(** The worlds in which the chat API answers with responses no longer than
    the field size limit, now and after any number of requests. *)
Variable good : W -> Prop.
Hypothesis good_chat :
  forall request w,
    good w ->
    good (snd (co_chat request w))
    /\ forall text, fst (co_chat request w) = inl text -> within_limit text.

Let calm (s : State W) : Prop := good (world s).

Lemma calm_colored_print text color :
  triple calm (Expander.colored_print text color) (fun _ => calm).
Proof. intros s Hs. exact Hs. Qed.

Lemma calm_chat request :
  triple calm (chat request)
         (fun r s => calm s /\ forall text, r = inl text -> within_limit text).
Proof.
  intros s Hs. unfold chat. destruct (good_chat request (world s) Hs) as [Hg Ht].
  destruct (co_chat request (world s)) as [r w]. cbn [fst snd] in *.
  split; [exact Hg | exact Ht].
Qed.

Lemma calm_expand_dataset sample_df analysis prompt size :
  triple calm (Expander.expand_dataset sample_df analysis prompt size)
         (fun r s => calm s /\ forall text, r = Some text -> within_limit text).
Proof.
  unfold Expander.expand_dataset.
  apply (triple_bind _ _ _ _ _ (calm_chat _)). intros [text|e].
  - apply triple_ret. intros s [Hs Ht]. split; [exact Hs|].
    intros t Heq. injection Heq as <-. apply Ht. reflexivity.
  - intros s [Hs _]. split; [exact Hs | intros t Heq; discriminate Heq].
Qed.

Lemma calm_analyze_dataset sample_df prompt :
  triple calm (Expander.analyze_dataset sample_df prompt) (fun _ => calm).
Proof.
  unfold Expander.analyze_dataset.
  apply (triple_bind _ _ _ _ _ (calm_chat _)). intros [text|e].
  - apply triple_ret. intros s [Hs _]. exact Hs.
  - intros s [Hs _]. exact Hs.
Qed.

Lemma calm_expansion_loop sample_df analysis output_file rows_to_add fuel :
  forall rows_added,
    triple calm
           (Expander.expansion_loop fuel sample_df analysis output_file
                                    rows_to_add rows_added)
           (fun e _ => e <> Expander.CsvError).
Proof.
  induction fuel as [|fuel IH]; intros rows_added;
    cbn [Expander.expansion_loop];
    (destruct (rows_added <? rows_to_add); [|intros s _; discriminate]).
  - intros s _. discriminate.
  - apply (triple_bind _ _ _ _ _ (calm_expand_dataset _ _ _ _)).
    intros [new_data|].
    + intros s [Hs Ht]. specialize (Ht new_data eq_refl).
      unfold bind at 1. rewrite append_to_csv_effect.
      rewrite (reader_short new_data Ht). cbn [negb].
      unfold bind at 1. apply IH. exact Hs.
    + intros s _. discriminate.
Qed.


End ShortResponses.

(** ** The files of the expander *)

Lemma output_file_differs input_file :
  Expander.output_file_of input_file <> input_file.
Proof.
  unfold Expander.output_file_of, PyStr.basename, PyStr.last, PyStr.split.
  change (list_ascii_of_string "/") with ["/"%char].
  destruct (split_scan_last "/" input_file [] (fun H => H))
    as [_ (before & Heq & Hb)].
  cbn [rev app] in Heq.
  remember (List.last (PyStr.split_scan ["/"%char] [] 0 input_file) []) as tail
    eqn:Htail.
  clear Htail. intros Hsame. rewrite Heq in Hsame.
  apply app_inv_tail in Hsame. destruct Hb as [-> | (b & ->)].
  - discriminate Hsame.
  - apply (f_equal (@rev ascii)) in Hsame. rewrite rev_app_distr in Hsame.
    cbn in Hsame. discriminate Hsame.
Qed.

Section ExpanderFiles.
Context {W : Type} {host : Host W}.

Lemma writes_only_colored_print path text color :
  writes_only path (@Expander.colored_print W text color).
Proof. apply writes_only_print. Qed.

Lemma writes_only_expansion_loop sample_df analysis output_file rows_to_add fuel :
  forall rows_added,
    writes_only output_file
      (@Expander.expansion_loop W host fuel sample_df analysis output_file
                                rows_to_add rows_added).
Proof.
  intros rows_added s p Hp.
  destruct (Expander.expansion_loop fuel sample_df analysis output_file
              rows_to_add rows_added s) as [e s'] eqn:Hrun.
  destruct (expansion_loop_files sample_df analysis output_file fuel
              rows_to_add rows_added s s' e Hrun) as (_ & _ & _ & Hother).
  exact (Hother p Hp).
Qed.

Lemma writes_only_expander_main input_file sample_df target_rows :
  writes_only (Expander.output_file_of input_file)
              (@Expander.main W host input_file sample_df target_rows).
Proof.
  unfold Expander.main, Expander.read_csv, Expander.analyze_dataset.
  repeat first [ apply writes_only_colored_print
               | apply writes_only_expansion_loop
               | frame_step ].
Qed.

(** X16. The expander writes one file at most, [expanded_] and the base
    name of the input file, and this is never the input file: whatever
    happens in [main], the input file and every other file are after it
    what they were before.  The output file is left as it was, or it holds
    the original frame as pandas writes it and then rows the reader
    delivered from responses. *)
Theorem expander_main_files :
  forall (input_file : str) (sample_df : DataFrame) (target_rows : Z)
         (s : State W),
    Expander.output_file_of input_file <> input_file
    /\ files (snd (Expander.main input_file sample_df target_rows s)) input_file
       = files s input_file
    /\ (forall path,
          path <> Expander.output_file_of input_file ->
          files (snd (Expander.main input_file sample_df target_rows s)) path
          = files s path)
    /\ (files (snd (Expander.main input_file sample_df target_rows s))
              (Expander.output_file_of input_file)
        = files s (Expander.output_file_of input_file)
        \/ exists content original_df extra,
             files s input_file = Some content
             /\ pd_read_csv content = inr original_df
             /\ Forall plain_row extra
             /\ content_of (snd (Expander.main input_file sample_df target_rows s))
                           (Expander.output_file_of input_file)
                = df_to_csv original_df ++ Expander.written extra).
Proof.
  intros input_file sample_df target_rows s.
  pose proof (output_file_differs input_file) as Hdiff.
  pose proof (writes_only_expander_main input_file sample_df target_rows s)
    as Hframe.
  split; [exact Hdiff|]. split; [apply Hframe; congruence|].
  split; [exact Hframe|]. clear Hframe.
  set (output_file := Expander.output_file_of input_file).
  set (same := fun st : State W => files st = files s).
  set (holds := fun (original_df : DataFrame) (st : State W) =>
                  exists extra,
                    Forall plain_row extra
                    /\ content_of st output_file
                       = df_to_csv original_df ++ Expander.written extra).
  set (post := fun st : State W =>
                 files st output_file = files s output_file
                 \/ exists content original_df extra,
                      files s input_file = Some content
                      /\ pd_read_csv content = inr original_df
                      /\ Forall plain_row extra
                      /\ content_of st output_file
                         = df_to_csv original_df ++ Expander.written extra).
  assert (Hsame : forall st, same st -> post st)
    by (intros st Hst; left; unfold same in Hst; rewrite Hst; reflexivity).
  assert (Hprint : forall (P : State W -> Prop) text color,
             (forall st l, P st -> P (mkState (world st) (files st) l)) ->
             triple P (Expander.colored_print text color) (fun _ => P))
    by (intros P text color HP st Hst; apply HP, Hst).
  assert (Hsame_log : forall st l,
             same st -> same (mkState (world st) (files st) l))
    by (intros st l Hst; exact Hst).
  assert (Hholds_log : forall original_df st l,
             holds original_df st
             -> holds original_df (mkState (world st) (files st) l))
    by (intros original_df st l Hst; exact Hst).
  cut (triple same (Expander.main input_file sample_df target_rows)
              (fun _ => post)); [intros Hmain; exact (Hmain s eq_refl)|].
  unfold Expander.main.
  apply (triple_bind _ _
           (fun r st =>
              same st
              /\ forall original_df,
                   r = inr original_df ->
                   exists content, files s input_file = Some content
                                   /\ pd_read_csv content = inr original_df)).
  { intros st Hst. unfold Expander.read_csv, read_file, bind, ret.
    unfold same in Hst. rewrite Hst.
    destruct (files s input_file) as [content|]; cbn [fst snd].
    - split; [exact Hst|]. intros original_df Hr. exists content.
      split; [reflexivity | exact Hr].
    - split; [exact Hst | intros original_df Hr; discriminate Hr]. }
  intros [e|original_df].
  { apply triple_pure. intros _.
    apply (triple_bind _ _ (fun _ => same)); [apply Hprint, Hsame_log|].
    intros _ st Hst. apply Hsame, Hst. }
  apply triple_pure. intros Hreadable.
  destruct (Hreadable original_df eq_refl) as (content & Hfile & Hread).
  clear Hreadable.
  apply (triple_bind _ _ (fun _ => same)); [apply Hprint, Hsame_log|]. intros _.
  assert (Hdone : forall st, holds original_df st -> post st).
  { intros st (extra & Hplain & Hcontent). right.
    exists content, original_df, extra. repeat split; assumption. }
  destruct (_ =? 0).
  { apply (triple_bind _ _ (fun _ => same)); [apply Hprint, Hsame_log|].
    intros _ st Hst. apply Hsame, Hst. }
  apply (triple_bind _ _ (fun _ => same)); [apply Hprint, Hsame_log|]. intros _.
  apply (triple_bind _ _ (fun _ => same)); [apply Hprint, Hsame_log|]. intros _.
  apply (triple_bind _ _ (fun _ => same)).
  { intros st Hst. unfold Expander.analyze_dataset, chat, bind.
    destruct (co_chat _ (world st)) as [[text|e] w]; exact Hst. }
  intros [analysis|]; [|intros st Hst; apply Hsame, Hst].
  apply (triple_bind _ _ (fun _ => same)); [apply Hprint, Hsame_log|]. intros _.
  apply (triple_bind _ _ (fun _ => holds original_df)).
  { intros st _. exists []. split; [constructor|].
    unfold write_file. cbn [snd]. rewrite content_of_store.
    unfold Expander.written. cbn. rewrite app_nil_r. reflexivity. }
  intros _.
  apply (triple_bind _ _ (fun _ => holds original_df));
    [apply Hprint, Hholds_log|]. intros _.
  apply (triple_bind _ _ (fun _ => holds original_df)).
  { intros st (extra & Hplain & Hcontent).
    destruct (Expander.expansion_loop _ _ _ _ _ _ st) as [exit st'] eqn:Hrun.
    destruct (expansion_loop_files _ _ _ _ _ _ _ _ _ Hrun)
      as (more & Hmore & Hcontent' & _).
    exists (extra ++ more). split; [apply Forall_app; split; assumption|].
    cbn [snd]. fold output_file in Hcontent'.
    rewrite Hcontent', Hcontent, written_app, app_assoc. reflexivity. }
  intros [rows_added | | |] st Hst; apply Hdone, Hst.
Qed.

(** X17. When the input file cannot be read, [main] prints the error and
    returns: no file is touched and no request goes to the chat API. *)
Theorem main_unreadable_input :
  forall (input_file : str) (sample_df : DataFrame) (target_rows : Z)
         (s : State W),
    (files s input_file = None
     \/ exists content e, files s input_file = Some content
                          /\ pd_read_csv content = inl e) ->
    fst (Expander.main input_file sample_df target_rows s) = Expander.Return
    /\ files (snd (Expander.main input_file sample_df target_rows s)) = files s
    /\ chat_requests (log (snd (Expander.main input_file sample_df target_rows s)))
       = chat_requests (log s)
    /\ exists e,
         log (snd (Expander.main input_file sample_df target_rows s))
         = log s ++ [Print (Expander.SECONDARY_COLOR
                            ++ ("Error reading the original CSV file: " ++ e)
                            ++ Expander.RESET_ALL)].
Proof.
  intros input_file sample_df target_rows s Hbad.
  unfold Expander.main, Expander.read_csv, read_file, bind, ret.
  destruct Hbad as [Hnone | (content & e & Hfile & Hread)].
  - rewrite Hnone. unfold Expander.colored_print, print, emit.
    cbn [fst snd world files log]. rewrite chat_requests_app.
    cbn [chat_requests]. rewrite app_nil_r.
    split; [reflexivity|]. split; [reflexivity|]. split; [reflexivity|].
    eexists. reflexivity.
  - rewrite Hfile, Hread. unfold Expander.colored_print, print, emit.
    cbn [fst snd world files log]. rewrite chat_requests_app.
    cbn [chat_requests]. rewrite app_nil_r.
    split; [reflexivity|]. split; [reflexivity|]. split; [reflexivity|].
    eexists. reflexivity.
Qed.

(** X18. When rows are to be added and the analysis request fails, [main]
    returns after this one request: no file is touched, so no output file
    is created, and no generation request is made. *)
Theorem main_analysis_failure :
  forall (input_file : str) (sample_df : DataFrame) (target_rows : Z)
         (s : State W) (content : str) (original_df : DataFrame)
         (e : str) (w : W),
    files s input_file = Some content ->
    pd_read_csv content = inr original_df ->
    Z.of_nat (List.length (values original_df)) < target_rows ->
    co_chat (Expander.analysis_request sample_df Expander.analyzer_prompt)
            (world s) = (inr e, w) ->
    fst (Expander.main input_file sample_df target_rows s) = Expander.Return
    /\ files (snd (Expander.main input_file sample_df target_rows s)) = files s
    /\ chat_requests (log (snd (Expander.main input_file sample_df target_rows s)))
       = chat_requests (log s)
         ++ [Expander.analysis_request sample_df Expander.analyzer_prompt].
Proof.
  intros input_file sample_df target_rows s content original_df e w
         Hfile Hread Hless Hchat.
  unfold Expander.main, Expander.read_csv, read_file, bind, ret.
  rewrite Hfile, Hread. cbn beta iota.
  assert (Hz : (Z.max 0 (target_rows - Z.of_nat (List.length (values original_df)))
                =? 0) = false) by (apply Z.eqb_neq; lia).
  rewrite Hz.
  unfold Expander.analyze_dataset, Expander.colored_print, print, emit, chat,
    bind, ret.
  cbn [world files log fst snd]. rewrite Hchat. cbn [world files log fst snd].
  split; [reflexivity|]. split; [reflexivity|].
  rewrite !chat_requests_app. cbn [chat_requests]. rewrite !app_nil_r.
  reflexivity.
Qed.

End ExpanderFiles.

(** ** The properties above on the scripted host *)

(** The indented comment of a manifest on the scripted host. *)
Lemma indented_comment_kept_witness :
  In ("# note" : str)
     (fst (Install.read_requirements Install.requirements_file
             MoreSamples.indented_start))
  /\ Install.validate_package_name "# note" = false.
Proof.
  destruct (indented_comment_kept Scripted.Script Scripted.host
              Install.requirements_file MoreSamples.indented_manifest
              MoreSamples.indented_start
              [("requests" ++ [PyStr.LF]) : str] [] "  " (" note" ++ [PyStr.LF]))
    as (kept & Hstrip & Hin & Hval).
  - reflexivity.
  - discriminate.
  - repeat constructor.
  - vm_compute. reflexivity.
  - assert (Hkept : kept = (" note" : str))
      by (vm_compute in Hstrip; injection Hstrip as <-; reflexivity).
    subst kept. split; [exact Hin | exact Hval].
Defined.


(** Two runs of the self-check on the scripted host, the first one the
    first run of the script. *)
Lemma self_check_again_witness :
  Install.self_check (snd (Install.self_check InstallSamples.unverified_start))
  = (true, snd (Install.self_check InstallSamples.unverified_start)).
Proof.
  apply (@self_check_again Scripted.Script Scripted.host
           InstallSamples.unverified_start).
  - vm_compute. discriminate.
  - split.
    + intros c t H. vm_compute in H. injection H as <- _. reflexivity.
    + intros b c H. apply (f_equal (@rev ascii)) in H.
      rewrite rev_app_distr in H. vm_compute in H. injection H as <- _.
      reflexivity.
  - vm_compute. intros H.
    repeat (destruct H as [H | H]; [discriminate H|]). exact H.
  - vm_compute. reflexivity.
Defined.

(** The installer leaves the manifest of the scripted host as it was. *)
Lemma main_writes_only_hash_file_witness :
  files (snd (Install.main InstallSamples.manifest_start)) Install.requirements_file
  = files InstallSamples.manifest_start Install.requirements_file.
Proof.
  apply (@main_writes_only_hash_file Scripted.Script Scripted.host).
  discriminate.
Defined.

(** The loop over [alpha], [beta] and [broken] where both can be imported
    and the user asks for the rollback. *)
Lemma install_loop_record_witness :
  filter is_uninstall
    (commands (log (snd (Install.install_loop
                           ["alpha" : str; "beta" : str; "broken" : str] []
                           InstallSamples.verified_start))))
  = [uninstall_command "alpha"; uninstall_command "beta"].
Proof.
  assert (Hrun : Install.install_loop
                   ["alpha" : str; "beta" : str; "broken" : str] []
                   InstallSamples.verified_start
                 = ((Install.Returned, ["alpha" : str; "beta" : str]),
                    snd (Install.install_loop
                           ["alpha" : str; "beta" : str; "broken" : str] []
                           InstallSamples.verified_start)))
    by (vm_compute; reflexivity).
  destruct (@install_loop_record Scripted.Script Scripted.host
              ["alpha" : str; "beta" : str; "broken" : str]
              InstallSamples.verified_start _ Install.Returned
              ["alpha" : str; "beta" : str] Hrun)
    as (mask & L & Hlog & _ & _ & Hfilter).
  rewrite Hlog. exact Hfilter.
Defined.

(** Ten rows are to become 120: three requests. *)
Lemma expansion_loop_request_count_witness :
  List.length (chat_requests (log (snd Samples.loop_run))) = 3%nat.
Proof.
  assert (Hrun : Expander.expansion_loop (Z.to_nat 110) Samples.sample_df
                   "two integer columns" "expanded_data.csv" 110 0
                   Samples.loop_start
                 = (Expander.Complete 110, snd Samples.loop_run))
    by (vm_compute; reflexivity).
  destruct (expansion_loop_request_count Scripted.Script Scripted.host
              Samples.sample_df "two integer columns" "expanded_data.csv" 110
              Samples.loop_start (snd Samples.loop_run) (Expander.Complete 110)
              ltac:(lia) Hrun)
    as [(asked & Hlen & _ & Hdone) _].
  rewrite Hlen, (Hdone 110 eq_refl). reflexivity.
Defined.


Lemma short_script_chat :
  forall (request : chat_request) (w : Scripted.Script),
    MoreSamples.short_script w ->
    MoreSamples.short_script (snd (co_chat request w))
    /\ forall text, fst (co_chat request w) = inl text -> within_limit text.
Proof.
  intros request w Hw. unfold MoreSamples.short_script in *. cbn.
  destruct (Scripted.responses w) as [|r rs]; cbn.
  - split; [constructor | intros text H; discriminate H].
  - split; [exact (Forall_inv_tail Hw)|].
    intros text ->. exact (Forall_inv Hw).
Qed.


(** [main] on a file that is not there. *)
Lemma main_unreadable_input_witness :
  chat_requests
    (log (snd (Expander.main "missing.csv" Samples.sample_df 120
                 Samples.main_start))) = [].
Proof.
  destruct (@main_unreadable_input Scripted.Script Scripted.host
              "missing.csv" Samples.sample_df 120 Samples.main_start)
    as (_ & _ & Hchat & _).
  - left. reflexivity.
  - rewrite Hchat. reflexivity.
Defined.

(** [main] on the dataset of ten rows when the chat API fails. *)
Lemma main_analysis_failure_witness :
  files (snd (Expander.main "data.csv" Samples.sample_df 120
                (Scripted.start MoreSamples.failing_api Samples.data_files)))
  = Samples.data_files
  /\ List.length
       (chat_requests
          (log (snd (Expander.main "data.csv" Samples.sample_df 120
                       (Scripted.start MoreSamples.failing_api
                                       Samples.data_files))))) = 1%nat.
Proof.
  destruct (@main_analysis_failure Scripted.Script Scripted.host
              "data.csv" Samples.sample_df 120
              (Scripted.start MoreSamples.failing_api Samples.data_files)
              Samples.dataset Samples.original_df "too many requests"
              (snd (Scripted.next_response MoreSamples.failing_api)))
    as (_ & Hfiles & Hchat).
  - reflexivity.
  - vm_compute. reflexivity.
  - vm_compute. reflexivity.
  - reflexivity.
  - rewrite Hfiles, Hchat. split; reflexivity.
Defined.
